(** * UnrealIRCd: message-tag handler registry (src/api-mtag.c) and the
      channel database module (src/modules/channeldb.c)

    The registry is embedded over an explicit memory: objects live in finite
    maps from addresses to records, a C pointer is an [option positive]
    ([None] is NULL) and the intrusive [prev]/[next] links of the C structs
    are record fields.  The channel database is embedded over a small file
    system with a fault schedule. *)

From Stdlib Require Import ZArith Ascii String List Lia Bool.

From Stdlib Require Import Init.Byte.

From Stdlib Require Strings.Byte.

From stdpp Require Import gmap strings list fin_maps.

Local Open Scope Z_scope.

(** ** Outcomes of a C function

    A C function returns, calls [abort()], dereferences an address that holds
    no object, or loops for ever. *)

Inductive Outcome (S A : Type) : Type :=
| Ret (a : A) (s : S)   (* normal return, with the state it leaves *)
| Abort (s : S)         (* abort() was called in state s *)
| Fault                 (* access through a pointer to no object *)
| Hang.                 (* the loop does not terminate *)

Arguments Ret {S A} a s.

Arguments Abort {S A} s.

Arguments Fault {S A}.

Arguments Hang {S A}.

(** State-and-outcome monad in which the C bodies are written. *)
Definition M (S A : Type) : Type := S -> Outcome S A.

Definition ret {S A : Type} (a : A) : M S A := fun s => Ret a s.

Definition bind {S A B : Type} (c : M S A) (k : A -> M S B) : M S B :=
  fun s =>
    match c s with
    | Ret a s' => k a s'
    | Abort s' => Abort s'
    | Fault => Fault
    | Hang => Hang
    end.

Definition get {S : Type} : M S S := fun s => Ret s s.

Definition modify {S : Type} (f : S -> S) : M S unit := fun s => Ret tt (f s).

Definition fault {S A : Type} : M S A := fun _ => Fault.

Definition hang {S A : Type} : M S A := fun _ => Hang.

Definition abort {S A : Type} : M S A := fun s => Abort s.

(** Run a computation on a component of the state (a lens). *)
Definition zoom {S T A : Type} (proj : S -> T) (inj : T -> S -> S)
    (c : M T A) : M S A :=
  fun s =>
    match c (proj s) with
    | Ret a t => Ret a (inj t s)
    | Abort t => Abort (inj t s)
    | Fault => Fault
    | Hang => Hang
    end.

Declare Scope m_scope.
Delimit Scope m_scope with M.

Notation "x <- c ;; k" := (bind c (fun x => k))
  (at level 100, c at next level, right associativity) : m_scope.

Notation "c ;;; k" := (bind c (fun _ => k))
  (at level 100, right associativity) : m_scope.

Definition addr := positive.

Definition ptr := option addr.

(** Case-insensitive comparison, as [stricmp] ([strcasecmp]) on ASCII. *)

Definition tolower (c : ascii) : ascii :=
  let n := nat_of_ascii c in
  if (Nat.leb 65 n && Nat.leb n 90)%bool then ascii_of_nat (n + 32) else c.

Fixpoint strlower (s : string) : string :=
  match s with
  | EmptyString => EmptyString
  | String c r => String (tolower c) (strlower r)
  end.

(** [stricmp a b] is [true] when the C function returns 0. *)
Definition stricmp (a b : string) : bool := String.eqb (strlower a) (strlower b).

(** ** Intrusive doubly linked lists (the [ListStruct] view of a struct)

    Every listed struct starts with [prev] and [next]; the list macros cast
    the object to [ListStruct] and touch those two fields only. *)

Class ListStruct (A : Type) := {
  ls_prev : A -> ptr;
  ls_next : A -> ptr;
  ls_set_prev : ptr -> A -> A;
  ls_set_next : ptr -> A -> A;
  ls_prev_set_prev : forall p x, ls_prev (ls_set_prev p x) = p;
  ls_next_set_prev : forall p x, ls_next (ls_set_prev p x) = ls_next x;
  ls_prev_set_next : forall p x, ls_prev (ls_set_next p x) = ls_prev x;
  ls_next_set_next : forall p x, ls_next (ls_set_next p x) = p
}.

Section ListItems.

Context {A : Type} `{ListStruct A}.

(** The state of a list operation: the objects and the list head. *)
Definition LState : Type := gmap addr A * ptr.

Definition ld (a : addr) : M LState A :=
  fun s => match fst s !! a with Some x => Ret x s | None => Fault end.

Definition st (a : addr) (f : A -> A) : M LState unit :=
  fun s => match fst s !! a with
           | Some _ => Ret tt (alter f a (fst s), snd s)
           | None => Fault
           end.

Definition get_head : M LState ptr := fun s => Ret (snd s) s.

Definition set_head (p : ptr) : M LState unit := fun s => Ret tt (fst s, p).

(** Modelled from the spec: the list macro [AddListItem(item, list)]
    (its definition is outside the given sources), which must "link [the
    entry] into the registry's ordered collection".  On the [prev]/[next]
    fields declared in modules.h this is insertion at the head:
    [item->next = *list; item->prev = NULL;
     if ( *list) ( *list)->prev = item; *list = item;]. *)
Definition add_ListItem (item : addr) : M LState unit :=
  (head <- get_head ;;
   st item (ls_set_next head) ;;;
   st item (ls_set_prev None) ;;;
   match head with
   | Some l => st l (ls_set_prev (Some item))
   | None => ret tt
   end ;;;
   set_head (Some item))%M.

(** Modelled from the spec: the list macro [DelListItem(item, list)]
    (outside the given sources), the "unlink" of the registry.  It walks
    the list from the head until it meets [item], then joins the
    neighbours: [if (l->prev) l->prev->next = l->next; else *list = l->next;
    if (l->next) l->next->prev = l->prev;].  An item that is not met
    leaves the list as it is.  [fuel] bounds the walk. *)
Fixpoint del_ListItem_walk (fuel : nat) (l : ptr) (item : addr) : M LState unit :=
  match fuel with
  | O => hang
  | S fuel' =>
      match l with
      | None => ret tt
      | Some la =>
          (x <- ld la ;;
           if decide (la = item) then
             match ls_prev x with
             | Some p => st p (ls_set_next (ls_next x))
             | None => set_head (ls_next x)
             end ;;;
             match ls_next x with
             | Some n => st n (ls_set_prev (ls_prev x))
             | None => ret tt
             end
           else del_ListItem_walk fuel' (ls_next x) item)%M
      end
  end.

(** A walk over more nodes than there are objects has met some object
    twice, so it is on a cycle and the C loop never ends: the fuel
    [S (size objects)] runs out exactly when the loop hangs. *)
Definition del_ListItem (item : addr) : M LState unit :=
  fun s => del_ListItem_walk (S (size (fst s))) (snd s) item s.

(** The addresses met by following [next] from [l], at most [fuel] of
    them. *)
Fixpoint walk (fuel : nat) (h : gmap addr A) (l : ptr) : list addr :=
  match fuel with
  | O => []
  | S fuel' =>
      match l with
      | None => []
      | Some a =>
          a :: match h !! a with
               | Some x => walk fuel' h (ls_next x)
               | None => []
               end
      end
  end.

(** [dll h prev head l]: following [next] from [head] meets exactly the
    addresses [l] and ends in NULL, and every [prev] points back. *)
Fixpoint dll (h : gmap addr A) (prev head : ptr) (l : list addr) : Prop :=
  match l with
  | [] => head = None
  | a :: l' =>
      head = Some a /\
      exists x, h !! a = Some x /\ ls_prev x = prev /\
                dll h (Some a) (ls_next x) l'
  end.

Definition is_list (h : gmap addr A) (head : ptr) (l : list addr) : Prop :=
  NoDup l /\ dll h None head l.

End ListItems.

(** ** The message-tag handler registry (src/api-mtag.c) *)

Module Mtag.

Definition MTAG_HANDLER_FLAGS_NONE : Z := 0.

Definition MTAG_HANDLER_FLAGS_NO_CAP_NEEDED : Z := 1.

Definition MODERR_NOERROR : Z := 0.

Definition MODERR_EXISTS : Z := 1.

Definition MODERR_NOSPACE : Z := 2.

Definition MODERR_INVALID : Z := 3.

Definition MODERR_NOTFOUND : Z := 4.

Inductive ModuleObjectType : Type :=
| MOBJ_EVENT | MOBJ_HOOK | MOBJ_COMMAND | MOBJ_HOOKTYPE | MOBJ_VERSIONFLAG
| MOBJ_SNOMASK | MOBJ_UMODE | MOBJ_COMMANDOVERRIDE | MOBJ_EXTBAN
| MOBJ_CALLBACK | MOBJ_ISUPPORT | MOBJ_EFUNCTION | MOBJ_CMODE | MOBJ_MODDATA
| MOBJ_VALIDATOR | MOBJ_CLICAP | MOBJ_MTAG | MOBJ_HISTORY_BACKEND.

Definition is_MOBJ_MTAG (t : ModuleObjectType) : bool :=
  match t with MOBJ_MTAG => true | _ => false end.

(** [struct ClientCapability]: the fields the registry reads or writes. *)
Record ClientCapability : Type := mkClientCapability {
  cap_name : string;
  cap_mtag_handler : ptr          (* for reverse dependency *)
}.

(** [struct MessageTagHandler]. Function pointers are addresses of code. *)
Record MessageTagHandler : Type := mkMessageTagHandler {
  prev : ptr;
  next : ptr;
  name : string;
  flags : Z;
  is_ok : ptr;
  can_send : ptr;
  owner : ptr;
  clicap_handler : ptr;
  unloaded : bool
}.

(** [MessageTagHandlerInfo], the registration request. *)
Record MessageTagHandlerInfo : Type := mkMessageTagHandlerInfo {
  req_name : string;
  req_flags : Z;
  req_is_ok : ptr;
  req_can_send : ptr;
  req_clicap_handler : ptr
}.

(** [ModuleObject]: a node of a module's list of registered objects. *)
Record ModuleObject : Type := mkModuleObject {
  mo_prev : ptr;
  mo_next : ptr;
  mo_type : ModuleObjectType;
  mo_object : ptr
}.

(** [struct Module]: the fields the registry reads or writes. *)
Record Module : Type := mkModule {
  objects : ptr;
  errorcode : Z
}.

Inductive LogLine : Type :=
| ircd_log_ERROR (msg : string)      (* ircd_log(LOG_ERROR, ...) *)
| sendto_realops (msg : string).

Definition set_prev (p : ptr) (m : MessageTagHandler) : MessageTagHandler :=
  mkMessageTagHandler p (next m) (name m) (flags m) (is_ok m) (can_send m)
    (owner m) (clicap_handler m) (unloaded m).

Definition set_next (p : ptr) (m : MessageTagHandler) : MessageTagHandler :=
  mkMessageTagHandler (prev m) p (name m) (flags m) (is_ok m) (can_send m)
    (owner m) (clicap_handler m) (unloaded m).

Definition set_flags (f : Z) (m : MessageTagHandler) : MessageTagHandler :=
  mkMessageTagHandler (prev m) (next m) (name m) f (is_ok m) (can_send m)
    (owner m) (clicap_handler m) (unloaded m).

Definition set_is_ok (p : ptr) (m : MessageTagHandler) : MessageTagHandler :=
  mkMessageTagHandler (prev m) (next m) (name m) (flags m) p (can_send m)
    (owner m) (clicap_handler m) (unloaded m).

Definition set_owner (p : ptr) (m : MessageTagHandler) : MessageTagHandler :=
  mkMessageTagHandler (prev m) (next m) (name m) (flags m) (is_ok m) (can_send m)
    p (clicap_handler m) (unloaded m).

Definition set_clicap_handler (p : ptr) (m : MessageTagHandler) : MessageTagHandler :=
  mkMessageTagHandler (prev m) (next m) (name m) (flags m) (is_ok m) (can_send m)
    (owner m) p (unloaded m).

Definition set_unloaded (b : bool) (m : MessageTagHandler) : MessageTagHandler :=
  mkMessageTagHandler (prev m) (next m) (name m) (flags m) (is_ok m) (can_send m)
    (owner m) (clicap_handler m) b.

Definition set_mo_prev (p : ptr) (o : ModuleObject) : ModuleObject :=
  mkModuleObject p (mo_next o) (mo_type o) (mo_object o).

Definition set_mo_next (p : ptr) (o : ModuleObject) : ModuleObject :=
  mkModuleObject (mo_prev o) p (mo_type o) (mo_object o).

#[export] Instance MessageTagHandler_ListStruct : ListStruct MessageTagHandler.
Proof.
  refine {| ls_prev := prev; ls_next := next;
            ls_set_prev := set_prev; ls_set_next := set_next |};
    intros; reflexivity.
Defined.

#[export] Instance ModuleObject_ListStruct : ListStruct ModuleObject.
Proof.
  refine {| ls_prev := mo_prev; ls_next := mo_next;
            ls_set_prev := set_mo_prev; ls_set_next := set_mo_next |};
    intros; reflexivity.
Defined.

(** The memory the registry works on.  [MyFree] of a handler puts its
    address in [freed] and leaves the bytes where they are: a later read
    through a stale pointer sees the old contents. *)
Record State : Type := mkState {
  mtaghandlers : ptr;                       (* the list of handlers *)
  mtags : gmap addr MessageTagHandler;      (* every handler ever allocated *)
  freed : gset addr;                        (* handlers given to MyFree *)
  clicaps : gmap addr ClientCapability;
  modules : gmap addr Module;
  mobjs : gmap addr ModuleObject;           (* live ModuleObject nodes *)
  ircd_rehashing : bool;                    (* loop.ircd_rehashing *)
  logs : list LogLine                       (* oldest first *)
}.

Definition with_registry (r : gmap addr MessageTagHandler * ptr) (s : State) : State :=
  mkState (snd r) (fst r) (freed s) (clicaps s) (modules s) (mobjs s)
    (ircd_rehashing s) (logs s).

Definition with_freed (f : gset addr) (s : State) : State :=
  mkState (mtaghandlers s) (mtags s) f (clicaps s) (modules s) (mobjs s)
    (ircd_rehashing s) (logs s).

Definition with_clicaps (c : gmap addr ClientCapability) (s : State) : State :=
  mkState (mtaghandlers s) (mtags s) (freed s) c (modules s) (mobjs s)
    (ircd_rehashing s) (logs s).

Definition with_modules (m : gmap addr Module) (s : State) : State :=
  mkState (mtaghandlers s) (mtags s) (freed s) (clicaps s) m (mobjs s)
    (ircd_rehashing s) (logs s).

Definition with_mobjs (m : gmap addr ModuleObject) (s : State) : State :=
  mkState (mtaghandlers s) (mtags s) (freed s) (clicaps s) (modules s) m
    (ircd_rehashing s) (logs s).

Definition with_rehashing (b : bool) (s : State) : State :=
  mkState (mtaghandlers s) (mtags s) (freed s) (clicaps s) (modules s) (mobjs s)
    b (logs s).

Definition with_logs (l : list LogLine) (s : State) : State :=
  mkState (mtaghandlers s) (mtags s) (freed s) (clicaps s) (modules s) (mobjs s)
    (ircd_rehashing s) l.

Definition registry (s : State) : gmap addr MessageTagHandler * ptr :=
  (mtags s, mtaghandlers s).

(** The object list of module [mo], as a list state. *)
Definition module_objects (mo : addr) (s : State) : gmap addr ModuleObject * ptr :=
  (mobjs s, match modules s !! mo with Some md => objects md | None => None end).

Definition with_module_objects (mo : addr) (r : gmap addr ModuleObject * ptr)
    (s : State) : State :=
  with_modules (alter (fun md => mkModule (snd r) (errorcode md)) mo (modules s))
    (with_mobjs (fst r) s).

(** Field accesses. *)
Definition load (m : addr) : M State MessageTagHandler :=
  fun s => match mtags s !! m with Some x => Ret x s | None => Fault end.

Definition store (m : addr) (f : MessageTagHandler -> MessageTagHandler) : M State unit :=
  fun s => match mtags s !! m with
           | Some _ => Ret tt (with_registry (alter f m (mtags s), mtaghandlers s) s)
           | None => Fault
           end.

Definition store_clicap_mtag_handler (c : addr) (p : ptr) : M State unit :=
  fun s => match clicaps s !! c with
           | Some _ => Ret tt (with_clicaps
                                 (alter (fun x => mkClientCapability (cap_name x) p) c
                                    (clicaps s)) s)
           | None => Fault
           end.

Definition load_module (mo : addr) : M State Module :=
  fun s => match modules s !! mo with Some x => Ret x s | None => Fault end.

Definition store_errorcode (mo : addr) (e : Z) : M State unit :=
  fun s => match modules s !! mo with
           | Some _ => Ret tt (with_modules
                                 (alter (fun x => mkModule (objects x) e) mo (modules s)) s)
           | None => Fault
           end.

Definition log (l : LogLine) : M State unit :=
  modify (fun s => with_logs (logs s ++ [l]) s).

(** [for (m = mtaghandlers; m; m = m->next) if (!stricmp(token, m->name)) return m;] *)
Fixpoint Find_walk (fuel : nat) (token : string) (m : ptr) : M State ptr :=
  match fuel with
  | O => hang
  | S fuel' =>
      match m with
      | None => ret None
      | Some a =>
          (x <- load a ;;
           if stricmp token (name x) then ret (Some a)
           else Find_walk fuel' token (next x))%M
      end
  end.

Definition MessageTagHandlerFind (token : string) : M State ptr :=
  fun s => Find_walk (S (size (mtags s))) token (mtaghandlers s) s.

Definition no_cap_needed (f : Z) : bool :=
  negb (Z.eqb (Z.land f MTAG_HANDLER_FLAGS_NO_CAP_NEEDED) 0).

Definition msg_both : string :=
  "MessageTagHandlerAdd(): .flags is set to MTAG_HANDLER_FLAGS_NO_CAP_NEEDED " +:+
  "but a .clicap_handler is passed as well. These options are mutually " +:+
  "exclusive, choose one or the other.".

Definition msg_neither : string :=
  "MessageTagHandlerAdd(): no .clicap_handler is passed. If the " +:+
  "message tag really does not require a cap then you must " +:+
  "set .flags to MTAG_HANDLER_FLAGS_NO_CAP_NEEDED".

(** [MyMallocEx(sizeof(MessageTagHandler))] then [m->name = strdup(..)]:
    a zeroed object at an address never used before. *)
Definition alloc_mtag (nm : string) : M State addr :=
  fun s =>
    let a := fresh (dom (mtags s)) in
    Ret a (with_registry
             (<[a := mkMessageTagHandler None None nm 0 None None None None false]>
                (mtags s), mtaghandlers s) s).

Definition alloc_mobj (o : ModuleObject) : M State addr :=
  fun s =>
    let a := fresh (dom (mobjs s)) in
    Ret a (with_mobjs (<[a := o]> (mobjs s)) s).

Definition MessageTagHandlerAdd (module : ptr) (mreq : MessageTagHandlerInfo)
    : M State ptr :=
  (* Some consistency checks to avoid a headache for module devs later on: *)
  (if no_cap_needed (req_flags mreq) && bool_decide (is_Some (req_clicap_handler mreq))
   then (log (ircd_log_ERROR msg_both) ;;; abort)
   else if negb (no_cap_needed (req_flags mreq))
           && negb (bool_decide (is_Some (req_clicap_handler mreq)))
   then (log (ircd_log_ERROR msg_neither) ;;; abort)
   else
     found <- MessageTagHandlerFind (req_name mreq) ;;
     r <- match found with
          | Some m =>
              x <- load m ;;
              if unloaded x
              then (store m (set_unloaded false) ;;; ret (Some m))
              else (match module with
                    | Some mo => store_errorcode mo MODERR_EXISTS
                    | None => ret tt
                    end ;;; ret None)
          | None =>
              (* New message tag handler *)
              m <- alloc_mtag (req_name mreq) ;; ret (Some m)
          end ;;
     match r with
     | None => ret None
     | Some m =>
         (* Add or update the following fields: *)
         store m (set_owner module) ;;;
         store m (set_flags (req_flags mreq)) ;;;
         store m (set_is_ok (req_is_ok mreq)) ;;;
         store m (set_clicap_handler (req_clicap_handler mreq)) ;;;
         (* Update reverse dependency (if any) *)
         x <- load m ;;
         match clicap_handler x with
         | Some c => store_clicap_mtag_handler c (Some m)
         | None => ret tt
         end ;;;
         zoom registry with_registry (add_ListItem m) ;;;
         match module with
         | Some mo =>
             _ <- load_module mo ;;
             mobj <- alloc_mobj (mkModuleObject None None MOBJ_MTAG (Some m)) ;;
             zoom (module_objects mo) (with_module_objects mo) (add_ListItem mobj) ;;;
             store_errorcode mo MODERR_NOERROR
         | None => ret tt
         end ;;;
         ret (Some m)
     end)%M.

Definition MyFree_mtag (m : addr) : M State unit :=
  modify (fun s => with_freed ({[m]} ∪ freed s) s).

Definition unload_mtag_handler_commit (m : addr) : M State unit :=
  (x <- load m ;;
   (* This is an unusual operation, I think we should log it. *)
   log (ircd_log_ERROR ("Unloading message-tag handler for '" +:+ name x +:+ "'")) ;;;
   log (sendto_realops ("Unloading message-tag handler for '" +:+ name x +:+ "'")) ;;;
   (* Remove reverse dependency, if any *)
   match clicap_handler x with
   | Some c => store_clicap_mtag_handler c None
   | None => ret tt
   end ;;;
   (* Destroy the object *)
   zoom registry with_registry (del_ListItem m) ;;;
   MyFree_mtag m)%M.

(** [for (mobj = m->owner->objects; mobj; mobj = mobj->next)] looking for
    the node of type MOBJ_MTAG that holds [m]; it is unlinked and freed. *)
Fixpoint Del_mobj_walk (fuel : nat) (mo : addr) (mobj : ptr) (m : addr) : M State unit :=
  match fuel with
  | O => hang
  | S fuel' =>
      match mobj with
      | None => ret tt
      | Some oa =>
          fun s =>
            match mobjs s !! oa with
            | None => Fault
            | Some o =>
                if is_MOBJ_MTAG (mo_type o) && bool_decide (mo_object o = Some m)
                then (zoom (module_objects mo) (with_module_objects mo) (del_ListItem oa) ;;;
                      modify (fun s => with_mobjs (delete oa (mobjs s)) s))%M s
                else Del_mobj_walk fuel' mo (mo_next o) m s
            end
      end
  end.

Definition MessageTagHandlerDel (m : addr) : M State unit :=
  (s <- get ;;
   (if ircd_rehashing s
    then store m (set_unloaded true)
    else unload_mtag_handler_commit m) ;;;
   x <- load m ;;
   match owner x with
   | Some mo =>
       md <- load_module mo ;;
       s' <- get ;;
       Del_mobj_walk (S (size (mobjs s'))) mo (objects md) m ;;;
       store m (set_owner None)
   | None => ret tt
   end)%M.

(** [for (m = mtaghandlers; m; m = m_next) { m_next = m->next;
     if (m->unloaded) unload_mtag_handler_commit(m); }] *)
Fixpoint unload_all_walk (fuel : nat) (m : ptr) : M State unit :=
  match fuel with
  | O => hang
  | S fuel' =>
      match m with
      | None => ret tt
      | Some a =>
          (x <- load a ;;
           (if unloaded x then unload_mtag_handler_commit a else ret tt) ;;;
           unload_all_walk fuel' (next x))%M
      end
  end.

Definition unload_all_unused_mtag_handlers : M State unit :=
  fun s => unload_all_walk (S (size (mtags s))) (mtaghandlers s) s.

(** The handlers met from the list head, at most [n] of them. *)
Definition handler_list (n : nat) (s : State) : list addr :=
  walk n (mtags s) (mtaghandlers s).

End Mtag.

(** ** The channel database (src/modules/channeldb.c) *)

Module ChannelDb.

Definition CHANNELDB_VERSION : Z := 100.

Definition MAGIC_CHANNEL_START : Z := 0x11111111.

Definition MAGIC_CHANNEL_END : Z := 0x22222222.

Definition ENOENT : Z := 2.

Definition MOD_SUCCESS : Z := 0.

Definition MOD_FAILED : Z := -1.

(** *** Bytes and machine integers *)

Definition byte_of_Z (z : Z) : byte :=
  match Byte.of_N (Z.to_N (z mod 256)) with
  | Some b => b
  | None => x00
  end.

Definition Z_of_byte (b : byte) : Z := Z.of_N (Byte.to_N b).

(** The [n] bytes of an unsigned integer, least significant first (the
    layout of [fwrite(&t, 1, sizeof(t), fd)] on the little-endian
    machines the server runs on). *)
Fixpoint le_bytes (n : nat) (v : Z) : list byte :=
  match n with
  | O => []
  | S n' => byte_of_Z v :: le_bytes n' (v / 256)
  end.

Fixpoint le_value (bs : list byte) : Z :=
  match bs with
  | [] => 0
  | b :: bs' => Z_of_byte b + 256 * le_value bs'
  end.

(** C conversions between the integer types involved. *)
Definition to_uint16 (z : Z) : Z := z mod 2 ^ 16.

Definition to_uint32 (z : Z) : Z := z mod 2 ^ 32.

Definition to_uint64 (z : Z) : Z := z mod 2 ^ 64.

(** [uint64_t] to [time_t] (a signed 64-bit integer). *)
Definition to_time_t (u : Z) : Z := if u <? 2 ^ 63 then u else u - 2 ^ 64.

(** A [char *]: [None] is NULL. *)
Definition cstr : Type := option string.

(** [snprintf(buf, size, ...)] keeps at most [size - 1] characters. *)
Definition snprintf (size : nat) (s : string) : string :=
  String.substring 0 (size - 1) s.

(** *** Channels *)

Record Ban : Type := mkBan {
  banstr : cstr;
  who : cstr;
  when : Z               (* time_t *)
}.

(** The channel modes are kept by code outside this module; it is used
    through four operations. *)
Class ChannelModes (Mode : Type) := {
  (** the modes of a channel just made by [get_channel(.., CREATE)] *)
  mode_new : Mode;
  (** [channel_modes(&me, modebuf, parabuf, .., channel)] *)
  channel_modes : Mode -> string * string;
  (** [has_channel_mode(channel, c)] *)
  has_channel_mode : Mode -> ascii -> bool;
  (** [do_mode(channel, &me, NULL, parc, parv, 0, 0)] *)
  do_mode : Mode -> list string -> Mode
}.

Section WithModes.

Context {Mode : Type} `{ChannelModes Mode}.

Record Channel : Type := mkChannel {
  chname : string;
  creationtime : Z;      (* time_t *)
  topic : cstr;
  topic_nick : cstr;
  topic_time : Z;        (* time_t *)
  mode : Mode;
  mode_lock : cstr;
  banlist : list Ban;
  exlist : list Ban;
  invexlist : list Ban
}.

Definition set_creationtime (t : Z) (c : Channel) : Channel :=
  mkChannel (chname c) t (topic c) (topic_nick c) (topic_time c) (mode c)
    (mode_lock c) (banlist c) (exlist c) (invexlist c).

Definition set_topic (t : cstr) (c : Channel) : Channel :=
  mkChannel (chname c) (creationtime c) t (topic_nick c) (topic_time c) (mode c)
    (mode_lock c) (banlist c) (exlist c) (invexlist c).

Definition set_topic_nick (t : cstr) (c : Channel) : Channel :=
  mkChannel (chname c) (creationtime c) (topic c) t (topic_time c) (mode c)
    (mode_lock c) (banlist c) (exlist c) (invexlist c).

Definition set_topic_time (t : Z) (c : Channel) : Channel :=
  mkChannel (chname c) (creationtime c) (topic c) (topic_nick c) t (mode c)
    (mode_lock c) (banlist c) (exlist c) (invexlist c).

Definition set_mode (m : Mode) (c : Channel) : Channel :=
  mkChannel (chname c) (creationtime c) (topic c) (topic_nick c) (topic_time c) m
    (mode_lock c) (banlist c) (exlist c) (invexlist c).

Definition set_mode_lock (t : cstr) (c : Channel) : Channel :=
  mkChannel (chname c) (creationtime c) (topic c) (topic_nick c) (topic_time c) (mode c)
    t (banlist c) (exlist c) (invexlist c).

Definition set_banlist (l : list Ban) (c : Channel) : Channel :=
  mkChannel (chname c) (creationtime c) (topic c) (topic_nick c) (topic_time c) (mode c)
    (mode_lock c) l (exlist c) (invexlist c).

Definition set_exlist (l : list Ban) (c : Channel) : Channel :=
  mkChannel (chname c) (creationtime c) (topic c) (topic_nick c) (topic_time c) (mode c)
    (mode_lock c) (banlist c) l (invexlist c).

Definition set_invexlist (l : list Ban) (c : Channel) : Channel :=
  mkChannel (chname c) (creationtime c) (topic c) (topic_nick c) (topic_time c) (mode c)
    (mode_lock c) (banlist c) (exlist c) l.

(** *** The world of the module *)

Inductive IoResult : Type :=
| io_ok
| io_err (errno : Z).

(** The system calls made, with their success. *)
Inductive SysCall : Type :=
| sys_fopen (path : string) (writing : bool) (ok : bool)
| sys_fwrite (path : string) (data : list byte) (ok : bool)
| sys_fclose (ok : bool)
| sys_rename (src dst : string) (ok : bool).

(** The lines given to the log and to the operators. *)
Inductive LogLine : Type :=
| warn_write_error (fname : string)      (* WARN_WRITE_ERROR(fname) *)
| warn_rename_failed (src dst : string)  (* "Error renaming '%s' to '%s'" *)
| warn_read_error                        (* "Read error from database file" *)
| warn_no_database                       (* "No database present .., will start a new one" *)
| warn_cannot_open                       (* "Unable to open the database file" *)
| warn_wrong_version (got : Z)           (* "has a wrong version" *)
| error_magic_start (magic : Z)          (* "channel magic start is 0x%x" *)
| error_magic_end (magic : Z)            (* "channel magic end is 0x%x" *)
| info_added (n : Z)                     (* "Added %d persistent channels (+P)" *)
| warn_renamed_corrupt (fname : string)  (* "Existing database renamed to %s" *)
| warn_rename_corrupt_failed (fname : string)
| error_loading_module.

Record World : Type := mkWorld {
  files : gmap string (list byte);   (* the file system *)
  faults : list IoResult;            (* results of the coming fallible calls *)
  syscalls : list SysCall;           (* the calls made, oldest first *)
  rstream : list byte;               (* unread bytes of the FILE open for reading *)
  channels : list Channel;           (* the channel list, [channels] first *)
  logs : list LogLine;               (* oldest first *)
  database : string;                 (* cfg.database *)
  channeldb_loaded : Z;              (* the module's static int *)
  persistent : gmap string Z;        (* named variables kept by the core *)
  timers : list string               (* events registered with EventAdd *)
}.

Definition with_files f (w : World) : World :=
  mkWorld f (faults w) (syscalls w) (rstream w) (channels w) (logs w)
    (database w) (channeldb_loaded w) (persistent w) (timers w).

Definition with_faults f (w : World) : World :=
  mkWorld (files w) f (syscalls w) (rstream w) (channels w) (logs w)
    (database w) (channeldb_loaded w) (persistent w) (timers w).

Definition with_syscalls t (w : World) : World :=
  mkWorld (files w) (faults w) t (rstream w) (channels w) (logs w)
    (database w) (channeldb_loaded w) (persistent w) (timers w).

Definition with_rstream r (w : World) : World :=
  mkWorld (files w) (faults w) (syscalls w) r (channels w) (logs w)
    (database w) (channeldb_loaded w) (persistent w) (timers w).

Definition with_channels c (w : World) : World :=
  mkWorld (files w) (faults w) (syscalls w) (rstream w) c (logs w)
    (database w) (channeldb_loaded w) (persistent w) (timers w).

Definition with_logs l (w : World) : World :=
  mkWorld (files w) (faults w) (syscalls w) (rstream w) (channels w) l
    (database w) (channeldb_loaded w) (persistent w) (timers w).

Definition with_database d (w : World) : World :=
  mkWorld (files w) (faults w) (syscalls w) (rstream w) (channels w) (logs w)
    d (channeldb_loaded w) (persistent w) (timers w).

Definition with_channeldb_loaded v (w : World) : World :=
  mkWorld (files w) (faults w) (syscalls w) (rstream w) (channels w) (logs w)
    (database w) v (persistent w) (timers w).

Definition with_persistent p (w : World) : World :=
  mkWorld (files w) (faults w) (syscalls w) (rstream w) (channels w) (logs w)
    (database w) (channeldb_loaded w) p (timers w).

Definition with_timers t (w : World) : World :=
  mkWorld (files w) (faults w) (syscalls w) (rstream w) (channels w) (logs w)
    (database w) (channeldb_loaded w) (persistent w) t.

Definition log (l : LogLine) : M World unit :=
  modify (fun w => with_logs (logs w ++ [l]) w).

Definition called (c : SysCall) : M World unit :=
  modify (fun w => with_syscalls (syscalls w ++ [c]) w).

(** The result the environment gives to the next fallible call; when the
    script is used up, calls succeed. *)
Definition next_result : M World IoResult :=
  fun w => match faults w with
           | [] => Ret io_ok w
           | r :: rest => Ret r (with_faults rest w)
           end.

Definition is_ok (r : IoResult) : bool :=
  match r with io_ok => true | io_err _ => false end.

(** [fopen(path, "wb")]: the FILE is named by its path; [false] is NULL. *)
Definition fopen_wb (path : string) : M World bool :=
  (r <- next_result ;;
   called (sys_fopen path true (is_ok r)) ;;;
   if is_ok r
   then (modify (fun w => with_files (<[path := []]> (files w)) w) ;;; ret true)
   else ret false)%M.

(** [fopen(path, "rb")]: [None] when the FILE is open, else [errno]. *)
Definition fopen_rb (path : string) : M World (option Z) :=
  (r <- next_result ;;
   w <- get ;;
   match r, files w !! path with
   | io_ok, Some content =>
       called (sys_fopen path false true) ;;;
       modify (with_rstream content) ;;; ret None
   | io_ok, None => called (sys_fopen path false false) ;;; ret (Some ENOENT)
   | io_err e, _ => called (sys_fopen path false false) ;;; ret (Some e)
   end)%M.

(** Modelled from the spec: [write_data(fd, buf, len)] (its definition is
    outside the given sources), one [fwrite] of [len] bytes; 1 when all of
    them were written. A failed write leaves the file as it was. *)
Definition write_data (fd : string) (data : list byte) : M World bool :=
  (r <- next_result ;;
   called (sys_fwrite fd data (is_ok r)) ;;;
   if is_ok r
   then (modify (fun w => with_files (alter (fun old => old ++ data) fd (files w)) w) ;;;
         ret true)
   else ret false)%M.

Definition fclose : M World bool :=
  (r <- next_result ;; called (sys_fclose (is_ok r)) ;;; ret (is_ok r))%M.

Definition rename (src dst : string) : M World bool :=
  (r <- next_result ;;
   called (sys_rename src dst (is_ok r)) ;;;
   if is_ok r
   then (modify (fun w =>
            match files w !! src with
            | Some content => with_files (<[dst := content]> (delete src (files w))) w
            | None => w
            end) ;;; ret true)
   else ret false)%M.

(** Modelled from the spec: [write_int32], [write_int64] and [write_str]
    (outside the given sources) of the "length-prefixed record format":
    integers as their bytes, a string as a 16-bit length followed by its
    characters, NULL as the length 0xffff. *)
Definition write_int32 (fd : string) (t : Z) : M World bool :=
  write_data fd (le_bytes 4 (to_uint32 t)).

Definition write_int64 (fd : string) (t : Z) : M World bool :=
  write_data fd (le_bytes 8 (to_uint64 t)).

Definition strlen (s : string) : Z := Z.of_nat (String.length s).

Definition write_str (fd : string) (x : cstr) : M World bool :=
  (let len := match x with
              | Some s => to_uint16 (strlen s)
              | None => 0xffff
              end in
   ok <- write_data fd (le_bytes 2 len) ;;
   if negb ok then ret false
   else match x with
        | Some s =>
            if (0 <? len) && (len <? 0xffff)
            then write_data fd (firstn (Z.to_nat len) (list_byte_of_string s))
            else ret true
        | None => ret true
        end)%M.

(** Modelled from the spec: [read_data(fd, buf, len)] (outside the given
    sources), one [fread]; 0 when fewer than [len] bytes were left. *)
Definition read_data (len : nat) : M World (option (list byte)) :=
  fun w =>
    if (length (rstream w) <? len)%nat
    then Ret None (with_rstream [] w)
    else Ret (Some (firstn len (rstream w))) (with_rstream (skipn len (rstream w)) w).

(** Modelled from the spec: [read_str(fd, &x)] (outside the given
    sources), the reader of [write_str]: 0xffff gives NULL, 0 the empty
    string; a length above 10000 is refused. [None] is the result 0. *)
Definition read_str : M World (option cstr) :=
  (l <- read_data 2 ;;
   match l with
   | None => ret None
   | Some lb =>
       let len := le_value lb in
       if len =? 0xffff then ret (Some None)
       else if len =? 0 then ret (Some (Some ""))
       else if 10000 <? len then ret None
       else
         d <- read_data (Z.to_nat len) ;;
         match d with
         | None => ret None
         | Some bytes => ret (Some (Some (string_of_list_byte bytes)))
         end
   end)%M.

(** *** Writing the database *)

(** The macro [W_SAFE(x)]: when [x] is 0, warn, close and return 0. *)
Definition W_SAFE (tmpfname : string) (x : M World bool) (k : M World bool)
    : M World bool :=
  (ok <- x ;;
   if ok then k
   else (log (warn_write_error tmpfname) ;;; _ <- fclose ;; ret false))%M.

Fixpoint write_listmode_entries (fd tmpfname : string) (l : list Ban) : M World bool :=
  match l with
  | [] => ret true
  | e :: rest =>
      (* The entry, setby, seton *)
      W_SAFE tmpfname (write_str fd (banstr e))
        (W_SAFE tmpfname (write_str fd (who e))
           (W_SAFE tmpfname (write_int64 fd (when e))
              (write_listmode_entries fd tmpfname rest)))
  end.

Definition write_listmode (fd tmpfname : string) (lst : list Ban) : M World bool :=
  (* First count and write the list count *)
  let cnt := Z.of_nat (length lst) in
  W_SAFE tmpfname (write_int32 fd cnt) (write_listmode_entries fd tmpfname lst).

Definition write_channel_entry (fd tmpfname : string) (channel : Channel) : M World bool :=
  W_SAFE tmpfname (write_int32 fd MAGIC_CHANNEL_START)
  (* Channel name *)
  (W_SAFE tmpfname (write_str fd (Some (chname channel)))
  (* Channel creation time *)
  (W_SAFE tmpfname (write_int64 fd (creationtime channel))
  (* Topic (topic, setby, seton) *)
  (W_SAFE tmpfname (write_str fd (topic channel))
  (W_SAFE tmpfname (write_str fd (topic_nick channel))
  (W_SAFE tmpfname (write_int64 fd (topic_time channel))
  (* Basic channel modes (eg: +sntkl key 55) *)
  (let (modebuf, parabuf) := channel_modes (mode channel) in
   W_SAFE tmpfname (write_str fd (Some modebuf))
  (W_SAFE tmpfname (write_str fd (Some parabuf))
  (* Mode lock *)
  (W_SAFE tmpfname (write_str fd (mode_lock channel))
  (* List modes (bans, exempts, invex) *)
  (ok <- write_listmode fd tmpfname (banlist channel) ;;
   if negb ok then ret false else
   ok <- write_listmode fd tmpfname (exlist channel) ;;
   if negb ok then ret false else
   ok <- write_listmode fd tmpfname (invexlist channel) ;;
   if negb ok then ret false else
   W_SAFE tmpfname (write_int32 fd MAGIC_CHANNEL_END) (ret true))%M)))))))).

Definition persistent_channel (c : Channel) : bool := has_channel_mode (mode c) "P".

Fixpoint write_channel_entries (fd tmpfname : string) (l : list Channel) : M World bool :=
  match l with
  | [] => ret true
  | channel :: rest =>
      (* We only care about +P (persistent) channels *)
      if persistent_channel channel
      then (ok <- write_channel_entry fd tmpfname channel ;;
            if negb ok then ret false
            else write_channel_entries fd tmpfname rest)%M
      else write_channel_entries fd tmpfname rest
  end.

(** The build for POSIX systems (no [_WIN32], no [BENCHMARK]). 1 is
    success. *)
Definition write_channeldb : M World Z :=
  (w <- get ;;
   (* Write to a tempfile first, then rename it if everything succeeded *)
   let tmpfname := snprintf 512 (database w +:+ ".tmp") in
   fd <- fopen_wb tmpfname ;;
   if negb fd then (log (warn_write_error tmpfname) ;;; ret 0)
   else
     ok <- W_SAFE tmpfname (write_data tmpfname (le_bytes 4 (to_uint32 CHANNELDB_VERSION)))
       ((* First, count +P channels and write the count to the database *)
        let cnt := Z.of_nat (length (filter (fun c => persistent_channel c = true)
                                            (channels w))) in
        W_SAFE tmpfname (write_int64 tmpfname cnt)
          (write_channel_entries tmpfname tmpfname (channels w))) ;;
     if negb ok then ret 0
     else
       (* Everything seems to have gone well, attempt to close and rename the tempfile *)
       closed <- fclose ;;
       if negb closed then (log (warn_write_error tmpfname) ;;; ret 0)
       else
         renamed <- rename tmpfname (database w) ;;
         if negb renamed
         then (log (warn_rename_failed tmpfname (database w)) ;;; ret 0)
         else ret 1)%M.

(** [EVENT(write_channeldb_evt)] *)
Definition write_channeldb_evt : M World unit :=
  (_ <- write_channeldb ;; ret tt)%M.

(** *** Reading the database *)

(** Modelled from the spec: [get_channel(&me, chname, CREATE)] (outside
    the given sources): the channel of that name, made empty and put in
    front of the channel list when there is none. A channel is pointed to
    by its place in the list. *)
Fixpoint find_channel (nm : string) (l : list Channel) : option nat :=
  match l with
  | [] => None
  | c :: rest =>
      if stricmp nm (chname c) then Some O
      else match find_channel nm rest with
           | Some i => Some (S i)
           | None => None
           end
  end.

Definition new_channel (nm : string) : Channel :=
  mkChannel nm 0 None None 0 mode_new None [] [] [].

Definition get_channel_CREATE (chname : cstr) : M World nat :=
  match chname with
  | None => fault
  | Some nm =>
      (w <- get ;;
       match find_channel nm (channels w) with
       | Some i => ret i
       | None => modify (with_channels (new_channel nm :: channels w)) ;;; ret O
       end)%M
  end.

Definition update_channel (ch : nat) (f : Channel -> Channel) : M World unit :=
  modify (fun w => with_channels (alter f ch (channels w)) w).

(** [strtoken] with the separator " " until it gives NULL: the words
    between runs of spaces. *)
Fixpoint strtoken (s : string) (word : string) : list string :=
  match s with
  | EmptyString => if String.eqb word "" then [] else [word]
  | String c rest =>
      if Ascii.eqb c " "
      then (if String.eqb word "" then strtoken rest ""
            else word :: strtoken rest "")
      else strtoken rest (word +:+ String c EmptyString)
  end.

(** NULL [modes] or [parameters] are dereferenced by [strdup] and
    [strlcpy]; [myparv] has 64 places, one for the modes and one for the
    closing NULL. *)
Definition set_channel_mode (ch : nat) (modes parameters : cstr) : M World unit :=
  match modes, parameters with
  | Some m, Some p =>
      let buf := snprintf 512 p in
      let params := strtoken buf "" in
      if (62 <? length params)%nat then fault
      else update_channel ch (fun c => set_mode (do_mode (mode c) (m :: params)) c)
  | _, _ => fault
  end.

(** The first macro [R_SAFE(x)], of read_listmode. *)
Definition R_SAFE_listmode {A : Type} (x : M World (option A))
    (k : A -> M World bool) : M World bool :=
  (r <- x ;;
   match r with
   | Some a => k a
   | None => log warn_read_error ;;; ret false
   end)%M.

Fixpoint read_listmode_entries (n : nat) (ch : nat)
    (getl : Channel -> list Ban) (setl : list Ban -> Channel -> Channel)
    : M World bool :=
  match n with
  | O => ret true
  | S n' =>
      R_SAFE_listmode read_str (fun e_banstr =>
      R_SAFE_listmode read_str (fun e_who =>
      R_SAFE_listmode (read_data 8) (fun when_bytes =>
        (update_channel ch
           (fun c => setl (mkBan e_banstr e_who (to_time_t (le_value when_bytes))
                             :: getl c) c) ;;;
         read_listmode_entries n' ch getl setl)%M)))
  end.

(** [read_listmode(fd, &channel->list)]; the list is given by its field. *)
Definition read_listmode (ch : nat)
    (getl : Channel -> list Ban) (setl : list Ban -> Channel -> Channel)
    : M World bool :=
  R_SAFE_listmode (read_data 4) (fun total =>
    read_listmode_entries (Z.to_nat (le_value total)) ch getl setl).

(** How one turn of the loop of read_channeldb ends. *)
Inductive Turn : Type :=
| turn_next            (* the end of the body is reached *)
| turn_break           (* [break] *)
| turn_return0.        (* [return 0] from within R_SAFE *)

(** The second macro [R_SAFE(x)], of read_channeldb; a turn of the loop
    also gives the count [added] it leaves. *)
Definition R_SAFE {A : Type} (added : Z) (x : M World (option A))
    (k : A -> M World (Turn * Z)) : M World (Turn * Z) :=
  (r <- x ;;
   match r with
   | Some a => k a
   | None => log warn_read_error ;;; _ <- fclose ;; ret (turn_return0, added)
   end)%M.

Definition nonzero (x : M World bool) : M World (option unit) :=
  (b <- x ;; ret (if b then Some tt else None))%M.

(** The body of the loop; the count of channels so far is [added]. *)
Definition read_channel_entry (added : Z) : M World (Turn * Z) :=
  R_SAFE added (read_data 4) (fun magic =>
  if negb (le_value magic =? MAGIC_CHANNEL_START)
  then (log (error_magic_start (le_value magic)) ;;; ret (turn_break, added))%M
  else
  R_SAFE added read_str (fun chname =>
  R_SAFE added (read_data 8) (fun creationtime =>
  R_SAFE added read_str (fun topic =>
  R_SAFE added read_str (fun topic_nick =>
  R_SAFE added (read_data 8) (fun topic_time =>
  R_SAFE added read_str (fun modes1 =>
  R_SAFE added read_str (fun modes2 =>
  R_SAFE added read_str (fun mode_lock =>
  (* If we got this far, we can create/initialize the channel with the above *)
  (channel <- get_channel_CREATE chname ;;
   update_channel channel (set_creationtime (to_time_t (le_value creationtime))) ;;;
   update_channel channel (set_topic topic) ;;;
   update_channel channel (set_topic_nick topic_nick) ;;;
   update_channel channel (set_topic_time (to_time_t (le_value topic_time))) ;;;
   update_channel channel (set_mode_lock mode_lock) ;;;
   set_channel_mode channel modes1 modes2 ;;;
   R_SAFE added (nonzero (read_listmode channel banlist set_banlist)) (fun _ =>
   R_SAFE added (nonzero (read_listmode channel exlist set_exlist)) (fun _ =>
   R_SAFE added (nonzero (read_listmode channel invexlist set_invexlist)) (fun _ =>
   R_SAFE added (read_data 4) (fun magic =>
   (* added++ *)
   if negb (le_value magic =? MAGIC_CHANNEL_END)
   then (log (error_magic_end (le_value magic)) ;;; ret (turn_break, added + 1))
   else ret (turn_next, added + 1))))))%M))))))))).

(** [for (i=1; i <= count; i++)], with [n] turns left. What the loop
    gives is whether [return 0] was met, and [added]. *)
Fixpoint read_channel_entries (n : nat) (added : Z) : M World (bool * Z) :=
  match n with
  | O => ret (true, added)
  | S n' =>
      (r <- read_channel_entry added ;;
       match r with
       | (turn_next, added') => read_channel_entries n' added'
       | (turn_break, added') => ret (true, added')
       | (turn_return0, added') => ret (false, added')
       end)%M
  end.

(** The first macro of read_channeldb outside the loop: the same
    [R_SAFE], giving 0. *)
Definition R_SAFE0 {A : Type} (x : M World (option A))
    (k : A -> M World Z) : M World Z :=
  (r <- x ;;
   match r with
   | Some a => k a
   | None => log warn_read_error ;;; _ <- fclose ;; ret 0
   end)%M.

(** The build without [BENCHMARK]. 1 is success. *)
Definition read_channeldb : M World Z :=
  (w <- get ;;
   e <- fopen_rb (database w) ;;
   match e with
   | Some errno =>
       if errno =? ENOENT
       then
         (* Database does not exist. Could be first boot *)
         (log warn_no_database ;;; ret 1)
       else (log warn_cannot_open ;;; ret 0)
   | None =>
       R_SAFE0 (read_data 4) (fun version =>
       if CHANNELDB_VERSION <? le_value version
       then (log (warn_wrong_version (le_value version)) ;;; _ <- fclose ;; ret 0)
       else
       R_SAFE0 (read_data 8) (fun count =>
         r <- read_channel_entries (Z.to_nat (le_value count)) 0 ;;
         match r with
         | (false, _) => ret 0
         | (true, added) =>
             _ <- fclose ;;
             (if negb (added =? 0) then log (info_added added) else ret tt) ;;;
             ret 1
         end))
   end)%M.

(** *** The module entry points *)

Variable PERMDATADIR : string.

(** [setcfg]: the default is data/channel.db. *)
Definition setcfg : M World unit :=
  modify (with_database (PERMDATADIR +:+ "/channel.db")).

(** [freecfg]: [safe_free(cfg.database)] leaves NULL, here the empty
    string. *)
Definition freecfg : M World unit := modify (with_database "").

(** Modelled from the spec: [LoadPersistentInt(modinfo, var)] and
    [SavePersistentInt(modinfo, var)] (outside the given sources), which
    "let a module stash a named scalar in process-wide storage that
    survives that module's own unload/reload cycle": saving stores the
    value under the name of the variable, loading gives the variable the
    stored value when there is one and leaves it alone when there is
    none. *)
Definition LoadPersistentInt_channeldb_loaded : M World unit :=
  modify (fun w =>
    match persistent w !! "channeldb_loaded" with
    | Some v => with_channeldb_loaded v w
    | None => w
    end).

Definition SavePersistentInt_channeldb_loaded : M World unit :=
  modify (fun w =>
    with_persistent (<["channeldb_loaded" := channeldb_loaded w]> (persistent w)) w).

(** Loading the shared object of the module gives its static variables
    their initial values: [channeldb_loaded = 0] and an all-zero [cfg]. *)
Definition module_image_loaded : M World unit :=
  modify (fun w => with_channeldb_loaded 0 (with_database "" w)).

Definition MOD_TEST : M World Z :=
  (modify (with_database "") ;;; ret MOD_SUCCESS)%M.

Definition MOD_INIT : M World Z :=
  (LoadPersistentInt_channeldb_loaded ;;;
   setcfg ;;;
   ret MOD_SUCCESS)%M.

(** [channeldb_configrun] for a [set::channeldb] block with the given
    directives (name, value). *)
Fixpoint channeldb_configrun (entries : list (string * string)) : M World Z :=
  match entries with
  | [] => ret 1
  | (varname, vardata) :: rest =>
      ((if String.eqb varname "database"
        then modify (with_database vardata) else ret tt) ;;;
       channeldb_configrun rest)%M
  end.

(** [EventAdd] and the check of [ModuleGetError] after it: the core may
    refuse the timer. *)
Definition EventAdd (nm : string) : M World bool :=
  (r <- next_result ;;
   if is_ok r then (modify (fun w => with_timers (timers w ++ [nm]) w) ;;; ret true)
   else ret false)%M.

Definition MOD_LOAD : M World Z :=
  (w <- get ;;
   (if channeldb_loaded w =? 0
    then
      (* If this is the first time that our module is loaded, then read the database. *)
      (r <- read_channeldb ;;
       (if r =? 0
        then
          let fname := snprintf 512 (database w +:+ ".corrupt") in
          moved <- rename (database w) fname ;;
          if moved then log (warn_renamed_corrupt fname)
          else log (warn_rename_corrupt_failed fname)
        else ret tt) ;;;
       modify (with_channeldb_loaded 1))
    else ret tt) ;;;
   ok <- EventAdd "channeldb_write_channeldb" ;;
   if negb ok then (log error_loading_module ;;; ret MOD_FAILED)
   else ret MOD_SUCCESS)%M.

Definition MOD_UNLOAD : M World Z :=
  (_ <- write_channeldb ;;
   freecfg ;;;
   SavePersistentInt_channeldb_loaded ;;;
   ret MOD_SUCCESS)%M.

(** A load of the module by the core: the image, then the entry points
    in their order, with the configuration run between init and load. *)
Definition load_module (conf : list (string * string)) : M World Z :=
  (module_image_loaded ;;;
   _ <- MOD_TEST ;;
   _ <- MOD_INIT ;;
   _ <- channeldb_configrun conf ;;
   MOD_LOAD)%M.

End WithModes.

Arguments Channel Mode : clear implicits.

Arguments World Mode : clear implicits.

(** *** The configuration hooks *)

(** A directive of a configuration block: [ce_varname], [ce_vardata]
    (NULL when the directive has no value), and the file name and line
    the messages name. *)
Record ConfigEntry : Type := mkConfigEntry {
  ce_varname : string;
  ce_vardata : cstr;
  ce_filename : string;      (* ce_fileptr->cf_filename *)
  ce_varlinenum : Z
}.

(** The block [ce] handed to the hooks: its name and its [ce_entries]. *)
Record ConfigBlock : Type := mkConfigBlock {
  cb_varname : string;
  cb_entries : list ConfigEntry
}.

(** The two [config_error] lines of channeldb_configtest. *)
Inductive ConfigError : Type :=
| blank_without_value (file : string) (line : Z) (varname : string)
| unknown_directive (file : string) (line : Z) (varname : string).

(** What channeldb_configtest leaves: its result, [*errs], the entries
    (the test rewrites the value of a database directive) and the lines
    it printed. *)
Record ConfigTested : Type := mkConfigTested {
  ct_result : Z;
  ct_errs : Z;
  ct_entries : list ConfigEntry;
  ct_lines : list ConfigError
}.

Section Config.

(** [CONFIG_SET] and [convert_to_absolute_path(&path, dir)] are declared
    outside the given sources. *)
Variable CONFIG_SET : Z.

Variable convert_to_absolute_path : string -> string -> string.

Variable PERMDATADIR : string.

(** The loop of channeldb_configtest over [ce->ce_entries]; [errors]
    counts as the C [int] does on lists of fewer than 2^31 entries. *)
Fixpoint configtest_entries (l : list ConfigEntry) (errors : Z)
    : Z * list ConfigEntry * list ConfigError :=
  match l with
  | [] => (errors, [], [])
  | cep :: rest =>
      match ce_vardata cep with
      | None =>
          let '(n, l', msgs) := configtest_entries rest (errors + 1) in
          (n, cep :: l',
           blank_without_value (ce_filename cep) (ce_varlinenum cep) (ce_varname cep)
             :: msgs)
      | Some v =>
          if String.eqb (ce_varname cep) "database"
          then
            let '(n, l', msgs) := configtest_entries rest errors in
            (n,
             mkConfigEntry (ce_varname cep)
               (Some (convert_to_absolute_path v PERMDATADIR))
               (ce_filename cep) (ce_varlinenum cep) :: l',
             msgs)
          else
            let '(n, l', msgs) := configtest_entries rest (errors + 1) in
            (n, cep :: l',
             unknown_directive (ce_filename cep) (ce_varlinenum cep) (ce_varname cep)
               :: msgs)
      end
  end.

(** [channeldb_configtest(cf, ce, type, errs)]; [errs] is the value of
    [*errs] at the call. *)
Definition channeldb_configtest (ce : option ConfigBlock) (type : Z) (errs : Z)
    : ConfigTested :=
  (* We are only interested in set::channeldb::database *)
  if negb (type =? CONFIG_SET)
  then mkConfigTested 0 errs (match ce with Some b => cb_entries b | None => [] end) []
  else
    match ce with
    | None => mkConfigTested 0 errs [] []
    | Some b =>
        if negb (String.eqb (cb_varname b) "channeldb")
        then mkConfigTested 0 errs (cb_entries b) []
        else
          let '(errors, l', msgs) := configtest_entries (cb_entries b) 0 in
          mkConfigTested (if errors =? 0 then 1 else -1) errors l' msgs
    end.

(** [channeldb_configrun(cf, ce, type)], the hook: the loop is
    [channeldb_configrun] above, on the directives with their values (a
    NULL value is the empty string, as for [freecfg]). *)
Definition channeldb_configrun_hook {Mode : Type} `{ChannelModes Mode}
    (ce : option ConfigBlock) (type : Z) : M (World Mode) Z :=
  (* We are only interested in set::channeldb::database *)
  if negb (type =? CONFIG_SET) then ret 0
  else
    match ce with
    | None => ret 0
    | Some b =>
        if negb (String.eqb (cb_varname b) "channeldb") then ret 0
        else channeldb_configrun
               (map (fun cep => (ce_varname cep, default "" (ce_vardata cep)))
                  (cb_entries b))
    end.

End Config.

End ChannelDb.

(** * Vocabulary of the statements

    What the theorems below speak of: shapes of linked lists, the bytes a
    database is made of, well-formed inputs, and the example states the
    closed statements are evaluated on. *)

Section ListItemShapes.
Context {A : Type} `{LS : ListStruct A}.
Implicit Types (h : gmap addr A) (l : list addr) (a item : addr) (q : ptr).

(** [y] is [x] with other links. *)
Inductive relinked : A -> A -> Prop :=
| relinked_refl x : relinked x x
| relinked_prev q x y : relinked x y -> relinked x (ls_set_prev q y)
| relinked_next q x y : relinked x y -> relinked x (ls_set_next q y).

(** [h'] holds the objects of [h], some with other links. *)
Definition heap_relinked h h' : Prop :=
  forall a, match h !! a, h' !! a with
            | Some x, Some y => relinked x y
            | None, None => True
            | _, _ => False
            end.

(** Write through a pointer that may be NULL. *)
Definition palter (f : A -> A) (q : ptr) h : gmap addr A :=
  match q with Some a => alter f a h | None => h end.

(** [h'] has at [a] an object with the links [h] has there. *)
Definition same_links h h' a : Prop :=
  forall x, h !! a = Some x ->
    exists x', h' !! a = Some x' /\ ls_prev x' = ls_prev x /\ ls_next x' = ls_next x.

(** The objects after the node [x] is taken out of its list. *)
Definition unlinked h (x : A) : gmap addr A :=
  palter (ls_set_prev (ls_prev x)) (ls_next x)
    (palter (ls_set_next (ls_next x)) (ls_prev x) h).

End ListItemShapes.

Module MtagSpec.
Import Mtag.

(** The first entry of [l] whose name is [token], case ignored. *)
Fixpoint first_match (h : gmap addr MessageTagHandler) (token : string)
    (l : list addr) : ptr :=
  match l with
  | [] => None
  | a :: l' =>
      match h !! a with
      | Some x => if stricmp token (name x) then Some a else first_match h token l'
      | None => None
      end
  end.

(** A request passes the consistency checks when exactly one of the flag
    and the capability is given. *)
Definition request_ok (mreq : MessageTagHandlerInfo) : Prop :=
  (no_cap_needed (req_flags mreq) = true /\ req_clicap_handler mreq = None) \/
  (no_cap_needed (req_flags mreq) = false /\ is_Some (req_clicap_handler mreq)).

Definition request_contradictory (mreq : MessageTagHandlerInfo) : Prop :=
  (no_cap_needed (req_flags mreq) = true /\ is_Some (req_clicap_handler mreq)) \/
  (no_cap_needed (req_flags mreq) = false /\ req_clicap_handler mreq = None).

Definition s_empty : State :=
  mkState None ∅ ∅ ∅ ∅ ∅ false [].

(** ** The commit routine *)

Definition clear_cap (c : ptr) (caps : gmap addr ClientCapability)
    : gmap addr ClientCapability :=
  match c with
  | Some c => alter (fun cc => mkClientCapability (cap_name cc) None) c caps
  | None => caps
  end.

Definition unload_lines (x : MessageTagHandler) : list LogLine :=
  [ircd_log_ERROR ("Unloading message-tag handler for '" +:+ name x +:+ "'");
   sendto_realops ("Unloading message-tag handler for '" +:+ name x +:+ "'")].

(** ** Removing the handler from its owner's object list *)

(** [s'] differs from [s] in the module tables only. *)
Definition modules_only (s s' : State) : Prop :=
  mtaghandlers s' = mtaghandlers s /\ mtags s' = mtags s /\ freed s' = freed s /\
  clicaps s' = clicaps s /\ ircd_rehashing s' = ircd_rehashing s /\ logs s' = logs s.

Definition owner_ok (s : State) (x : MessageTagHandler) : Prop :=
  forall mo, owner x = Some mo ->
    exists md ol, modules s !! mo = Some md /\ is_list (mobjs s) (objects md) ol.

(** The last part of MessageTagHandlerDel: the owner forgets the handler. *)
Definition forget_owner (m : addr) : M State unit :=
  (x <- load m ;;
   match owner x with
   | Some mo =>
       md <- load_module mo ;;
       s' <- get ;;
       Del_mobj_walk (S (size (mobjs s'))) mo (objects md) m ;;;
       store m (set_owner None)
   | None => ret tt
   end)%M.

(** ** The commit sweep *)

Definition cap_ok (s : State) (a : addr) : Prop :=
  forall y c, mtags s !! a = Some y -> clicap_handler y = Some c ->
              is_Some (clicaps s !! c).

(** The [unloaded] flag of the object at [a], [false] if there is none. *)
Definition is_unloaded (s : State) (a : addr) : bool :=
  match mtags s !! a with Some y => unloaded y | None => false end.

(** [loop.ircd_rehashing] is set and cleared by the core around a rehash. *)
Definition set_rehashing (b : bool) : M State unit := modify (with_rehashing b).

(** Two capabilities and a module, no handler yet. *)
Definition s_caps : State :=
  mkState None ∅ ∅
    (<[1%positive := mkClientCapability "cap-one" None]>
       (<[2%positive := mkClientCapability "cap-two" None]> ∅))
    (<[7%positive := mkModule None MODERR_NOERROR]> ∅) ∅ false [].

Definition req_with (nm : string) (c : addr) : MessageTagHandlerInfo :=
  mkMessageTagHandlerInfo nm MTAG_HANDLER_FLAGS_NONE (Some 9%positive) None (Some c).

Definition req_nocap (nm : string) : MessageTagHandlerInfo :=
  mkMessageTagHandlerInfo nm MTAG_HANDLER_FLAGS_NO_CAP_NEEDED (Some 9%positive) None None.

(** Module 7 registers "typing" (with capability 1) and "msgid". *)
Definition two_handlers : M State unit :=
  (_ <- MessageTagHandlerAdd (Some 7%positive) (req_with "typing" 1%positive) ;;
   _ <- MessageTagHandlerAdd (Some 7%positive) (req_nocap "msgid") ;;
   ret tt)%M.

Definition s_two : State :=
  Eval vm_compute in
    match two_handlers s_caps with Ret _ s => s | _ => s_caps end.

(** The handler "typing" in [s_two]. *)
Definition x_typing : MessageTagHandler :=
  mkMessageTagHandler (Some 2%positive) None "typing" MTAG_HANDLER_FLAGS_NONE
    (Some 9%positive) None (Some 7%positive) (Some 1%positive) false.

(** "msgid" and "time" are registered, then "msgid" is deleted during a
    rehash: it stays in the list, marked unloaded. *)
Definition before_revive : M State unit :=
  (_ <- MessageTagHandlerAdd None (req_nocap "msgid") ;;
   _ <- MessageTagHandlerAdd None (req_nocap "time") ;;
   set_rehashing true ;;;
   MessageTagHandlerDel 1%positive)%M.

Definition s_before_revive : State :=
  Eval vm_compute in
    match before_revive s_caps with Ret _ s => s | _ => s_caps end.

(** A handler bound to capability 1 is deleted during a rehash, registered
    again with capability 2 (revived), and deleted after the rehash. *)
Definition rebind : M State unit :=
  (_ <- MessageTagHandlerAdd None (req_with "typing" 1%positive) ;;
   set_rehashing true ;;;
   MessageTagHandlerDel 1%positive ;;;
   _ <- MessageTagHandlerAdd None (req_with "typing" 2%positive) ;;
   set_rehashing false ;;;
   MessageTagHandlerDel 1%positive)%M.

(** An ordinary rehash: module 7 has registered "typing"; during the
    rehash the handler is deleted and the module registers it again, which
    revives the entry; the rehash ends. *)
Definition rehash_revive : M State unit :=
  (_ <- MessageTagHandlerAdd (Some 7%positive) (req_with "typing" 1%positive) ;;
   set_rehashing true ;;;
   MessageTagHandlerDel 1%positive ;;;
   _ <- MessageTagHandlerAdd (Some 7%positive) (req_with "typing" 1%positive) ;;
   set_rehashing false)%M.

Definition s_revived : State :=
  Eval vm_compute in
    match rehash_revive s_caps with Ret _ s => s | _ => s_caps end.

End MtagSpec.

Module ChannelDbSpec.
Import ChannelDb.

(** ** The file format *)

Definition ser_str (x : cstr) : list byte :=
  match x with
  | None => le_bytes 2 0xffff
  | Some s =>
      let len := to_uint16 (strlen s) in
      le_bytes 2 len ++
      (if (0 <? len) && (len <? 0xffff)
       then take (Z.to_nat len) (list_byte_of_string s) else [])
  end.

Definition ser_ban (e : Ban) : list byte :=
  ser_str (banstr e) ++ ser_str (who e) ++ le_bytes 8 (to_uint64 (when e)).

Definition ser_bans (l : list Ban) : list byte := concat (map ser_ban l).

Definition ser_listmode (l : list Ban) : list byte :=
  le_bytes 4 (to_uint32 (Z.of_nat (length l))) ++ ser_bans l.

(** What can be read back: a string of at most 10000 characters, a time
    that is a [time_t]. *)
Definition cstr_ok (x : cstr) : Prop :=
  match x with Some s => strlen s <= 10000 | None => True end.

Definition time_ok (t : Z) : Prop := - 2 ^ 63 <= t < 2 ^ 63.

Definition ban_ok (e : Ban) : Prop :=
  cstr_ok (banstr e) /\ cstr_ok (who e) /\ time_ok (when e).

Definition listmode_ok (l : list Ban) : Prop :=
  Forall ban_ok l /\ Z.of_nat (length l) < 2 ^ 32.

Section WithModes.
Context {Mode : Type} `{ChannelModes Mode}.
Implicit Types (w : World Mode) (c : Channel Mode).

(** The parts of the world a read never touches. *)
Definition same_env w w' : Prop :=
  files w' = files w /\ faults w' = faults w /\ syscalls w' = syscalls w /\
  database w' = database w /\ channeldb_loaded w' = channeldb_loaded w /\
  persistent w' = persistent w /\ timers w' = timers w.

(** A list field of a channel, with the laws of its accessors. *)
Record BanField : Type := mkBanField {
  bf_get : Channel Mode -> list Ban;
  bf_set : list Ban -> Channel Mode -> Channel Mode;
  bf_get_set : forall v c, bf_get (bf_set v c) = v;
  bf_set_set : forall u v c, bf_set v (bf_set u c) = bf_set v c;
  bf_set_get : forall c, bf_set (bf_get c) c = c
}.

Definition push_bans (F : BanField) (l : list Ban) (c : Channel Mode) : Channel Mode :=
  bf_set F (rev l ++ bf_get F c) c.

(** How a failed read_listmode leaves the world. *)
Definition listmode_stopped (ch : nat) w w' : Prop :=
  same_env w w' /\ rstream w' = [] /\ logs w' = logs w ++ [warn_read_error] /\
  exists f, channels w' = alter f ch (channels w).

(** ** One channel record *)

Definition ser_channel_with (endmagic : Z) (c : Channel Mode) : list byte :=
  le_bytes 4 (to_uint32 MAGIC_CHANNEL_START) ++
  ser_str (Some (chname c)) ++
  le_bytes 8 (to_uint64 (creationtime c)) ++
  ser_str (topic c) ++
  ser_str (topic_nick c) ++
  le_bytes 8 (to_uint64 (topic_time c)) ++
  ser_str (Some (fst (channel_modes (mode c)))) ++
  ser_str (Some (snd (channel_modes (mode c)))) ++
  ser_str (mode_lock c) ++
  ser_listmode (banlist c) ++
  ser_listmode (exlist c) ++
  ser_listmode (invexlist c) ++
  le_bytes 4 (to_uint32 endmagic).

Definition ser_channel : Channel Mode -> list byte :=
  ser_channel_with MAGIC_CHANNEL_END.

(** The parameters handed to [do_mode] for the strings of [channel_modes]. *)
Definition mode_parv (m : Mode) : list string :=
  fst (channel_modes m) :: strtoken (snprintf 512 (snd (channel_modes m))) "".

(** The modes are given back by [do_mode] from what [channel_modes]
    printed. *)
Definition modes_ok (m : Mode) : Prop :=
  cstr_ok (Some (fst (channel_modes m))) /\
  cstr_ok (Some (snd (channel_modes m))) /\
  (length (mode_parv m) <= 63)%nat /\
  do_mode mode_new (mode_parv m) = m.

Definition channel_ok (c : Channel Mode) : Prop :=
  cstr_ok (Some (chname c)) /\ time_ok (creationtime c) /\
  cstr_ok (topic c) /\ cstr_ok (topic_nick c) /\ time_ok (topic_time c) /\
  modes_ok (mode c) /\ cstr_ok (mode_lock c) /\
  listmode_ok (banlist c) /\ listmode_ok (exlist c) /\ listmode_ok (invexlist c).

(** The channel as the reader makes it: each list in reverse. *)
Definition restored (c : Channel Mode) : Channel Mode :=
  mkChannel (chname c) (creationtime c) (topic c) (topic_nick c) (topic_time c)
    (mode c) (mode_lock c) (rev (banlist c)) (rev (exlist c)) (rev (invexlist c)).

Definition head_ok w : bool :=
  match faults w with [] => true | r :: _ => is_ok r end.

(** The world after [fclose]. *)
Definition closed w : World Mode :=
  with_syscalls (syscalls w ++ [sys_fclose (head_ok w)]) (with_faults (tail (faults w)) w).

(** How a read that stopped inside a record leaves the world: one read
    error is logged, or two when the read stopped inside a list mode
    (read_listmode logs its own); nothing else is reported, and of the
    channels at most one was added in front. *)
Definition entry_stopped w w' : Prop :=
  files w' = files w /\ database w' = database w /\
  channeldb_loaded w' = channeldb_loaded w /\ persistent w' = persistent w /\
  timers w' = timers w /\ rstream w' = [] /\
  (logs w' = logs w ++ [warn_read_error] \/
   logs w' = logs w ++ [warn_read_error; warn_read_error]) /\
  (exists r, syscalls w' = syscalls w ++ [sys_fclose r]) /\
  (exists pre, channels w' = pre ++ channels w /\ (length pre <= 1)%nat).

Definition banlist_field : BanField :=
  mkBanField banlist set_banlist (fun _ _ => eq_refl) (fun _ _ _ => eq_refl)
    (fun c => match c return set_banlist (banlist c) c = c with
              | mkChannel _ _ _ _ _ _ _ _ _ _ => eq_refl
              end).

Definition exlist_field : BanField :=
  mkBanField exlist set_exlist (fun _ _ => eq_refl) (fun _ _ _ => eq_refl)
    (fun c => match c return set_exlist (exlist c) c = c with
              | mkChannel _ _ _ _ _ _ _ _ _ _ => eq_refl
              end).

Definition invexlist_field : BanField :=
  mkBanField invexlist set_invexlist (fun _ _ => eq_refl) (fun _ _ _ => eq_refl)
    (fun c => match c return set_invexlist (invexlist c) c = c with
              | mkChannel _ _ _ _ _ _ _ _ _ _ => eq_refl
              end).

(** ** The writer *)

Definition ok_write (tmp : string) (c : SysCall) : Prop :=
  exists d, c = sys_fwrite tmp d true.

(** What a write to [tmp] leaves alone. *)
Definition frame (tmp : string) w w' : Prop :=
  channels w' = channels w /\ database w' = database w /\ rstream w' = rstream w /\
  channeldb_loaded w' = channeldb_loaded w /\ persistent w' = persistent w /\
  timers w' = timers w /\
  forall p, p ≠ tmp -> files w' !! p = files w !! p.

(** The behaviour of a writing function that appends [data] to [tmp]
    when all goes well; it stops at the first write that fails, and
    [closing] says whether it then warns and closes the file. *)
Definition wspec (tmp : string) (data : list byte) (closing : bool)
    (f : M (World Mode) bool) : Prop :=
  forall w, exists b w' tr,
    f w = Ret b w' /\ syscalls w' = syscalls w ++ tr /\ frame tmp w w' /\
    (b = true ->
       Forall (ok_write tmp) tr /\ logs w' = logs w /\
       files w' = alter (fun old => old ++ data) tmp (files w)) /\
    (b = false ->
       exists tr0 d r,
         Forall (ok_write tmp) tr0 /\
         tr = tr0 ++ sys_fwrite tmp d false :: (if closing then [sys_fclose r] else []) /\
         logs w' = logs w ++ (if closing then [warn_write_error tmp] else [])) /\
    (faults w = [] -> b = true /\ faults w' = []).

(** The +P channels, in the order of the channel list. *)
Definition persistent_channels (l : list (Channel Mode)) : list (Channel Mode) :=
  filter (fun c => persistent_channel c = true) l.

Definition ser_channels (l : list (Channel Mode)) : list byte :=
  concat (map ser_channel (persistent_channels l)).

(** The whole file for a channel list. *)
Definition ser_db (l : list (Channel Mode)) : list byte :=
  le_bytes 4 (to_uint32 CHANNELDB_VERSION) ++
  le_bytes 8 (to_uint64 (Z.of_nat (length (persistent_channels l)))) ++
  ser_channels l.

(** The world after the call [c] that took the next scripted result. *)
Definition after_call (c : SysCall) w : World Mode :=
  with_syscalls (syscalls w ++ [c]) (with_faults (tail (faults w)) w).

(** The calls write_channeldb makes, by its result: the rename is the
    last call and comes after an open, writes and a close that all
    succeeded. *)
Inductive write_trace (tmp db : string) : Z -> list SysCall -> Prop :=
| wt_open_failed :
    write_trace tmp db 0 [sys_fopen tmp true false]
| wt_write_failed tr d r :
    Forall (ok_write tmp) tr ->
    write_trace tmp db 0
      (sys_fopen tmp true true :: tr ++ [sys_fwrite tmp d false; sys_fclose r])
| wt_close_failed tr :
    Forall (ok_write tmp) tr ->
    write_trace tmp db 0 (sys_fopen tmp true true :: tr ++ [sys_fclose false])
| wt_rename_failed tr :
    Forall (ok_write tmp) tr ->
    write_trace tmp db 0
      (sys_fopen tmp true true :: tr ++ [sys_fclose true; sys_rename tmp db false])
| wt_renamed tr :
    Forall (ok_write tmp) tr ->
    write_trace tmp db 1
      (sys_fopen tmp true true :: tr ++ [sys_fclose true; sys_rename tmp db true]).

(** ** The reader *)

(** No record has the name of a channel that is there when it is read. *)
Fixpoint fresh_names (l cs : list (Channel Mode)) : Prop :=
  match l with
  | [] => True
  | c :: rest =>
      find_channel (chname c) cs = None /\ fresh_names rest (restored c :: cs)
  end.

Definition ser_records (l : list (Channel Mode)) : list byte :=
  concat (map ser_channel l).

(** What read_channeldb does with what its loop gives. *)
Definition after_loop (r : bool * Z) : M (World Mode) Z :=
  (match r with
   | (false, _) => ret 0
   | (true, added) =>
       _ <- fclose ;;
       (if negb (added =? 0) then log (info_added added) else ret tt) ;;;
       ret 1
   end)%M.

Definition db_header (version count : Z) : list byte :=
  le_bytes 4 (to_uint32 version) ++ le_bytes 8 (to_uint64 count).

(** The server stops and starts again with what is on disk: the channel
    list of the new process is empty. *)
Definition written_then_read : M (World Mode) Z :=
  (_ <- write_channeldb ;; modify (with_channels []) ;;; read_channeldb)%M.

(** *** Damaged files *)

(** The ways a file is damaged in the record after the good ones. *)
Inductive Damage : Type :=
| cut_record (c : Channel Mode) (j : nat)       (* the file ends [j] bytes into [c] *)
| bad_start (m : Z) (rest : list byte)          (* [m] stands where the start magic should *)
| bad_end (c : Channel Mode) (e : Z) (rest : list byte).  (* [e] stands for the end magic *)

Definition damage_bytes (d : Damage) : list byte :=
  match d with
  | cut_record c j => take j (ser_channel c)
  | bad_start m rest => le_bytes 4 m ++ rest
  | bad_end c e rest => ser_channel_with e c ++ rest
  end.


End WithModes.

(** A stand-in for the channel-mode machinery of the core: the modes are
    the mode string and its parameters. *)
Fixpoint join_words (l : list string) : string :=
  match l with
  | [] => ""
  | [w] => w
  | w :: rest => w +:+ " " +:+ join_words rest
  end.

#[export] Instance example_modes : ChannelModes (string * string) := {
  mode_new := ("+", "");
  channel_modes m := m;
  has_channel_mode m c := existsb (Ascii.eqb c) (list_ascii_of_string (fst m));
  do_mode m parv := match parv with [] => m | mb :: ps => (mb, join_words ps) end
}.

Definition ban1 : Ban := mkBan (Some "*!*@bad.example") (Some "oper") 1575000000.

Definition ban2 : Ban := mkBan (Some "*!*@worse.example") (Some "admin") 1575000100.

(** A +P channel with two bans, a channel that is not +P, a +P channel
    with empty lists. *)
Definition chanA : Channel (string * string) :=
  mkChannel "#rocq" 1574000000 (Some "proofs") (Some "bob") 1574000500
    ("+ntPk", "secret") None [ban1; ban2] [] [ban1].

Definition chanB : Channel (string * string) :=
  mkChannel "#tmp" 1574000001 None None 0 ("+nt", "") None [] [] [].

Definition chanC : Channel (string * string) :=
  mkChannel "#empty" 1574000002 None None 0 ("+P", "") (Some "P") [] [] [].

Definition db_path : string := "data/channel.db".

(** A server with three channels and no database on disk. *)
Definition w0 : World (string * string) :=
  mkWorld ∅ [] [] [] [chanA; chanB; chanC] [] db_path 0 ∅ [].

(** The same with the disk full at the second write. *)
Definition w_full : World (string * string) :=
  with_faults [io_ok; io_ok; io_err 28] w0.

Definition old_db : list byte := le_bytes 4 100 ++ le_bytes 8 0.

(** The same again with a database of an earlier run on disk. *)
Definition w_full_old : World (string * string) :=
  with_files (<[db_path := old_db]> ∅) w_full.

(** A database path of 511 characters, an absolute path of two components
    of 254 and 255 characters; an old database on disk, and a disk that is
    full at the first write. *)
Definition long_path : string :=
  "/" +:+ string_of_list_ascii (repeat "d"%char 254) +:+
  "/" +:+ string_of_list_ascii (repeat "c"%char 255).

Definition w_long : World (string * string) :=
  mkWorld (<[long_path := old_db]> ∅) [io_ok; io_err 28] [] []
    [chanA; chanB; chanC] [] long_path 1 ∅ [].

(** A database that announces two records and ends ten bytes into the
    second. *)
Definition cut_db : list byte :=
  db_header CHANNELDB_VERSION 2 ++ ser_records [chanA] ++ damage_bytes (cut_record chanC 10).

Definition w_cut : World (string * string) :=
  mkWorld (<[db_path := cut_db]> ∅) [] [] [] [] [] db_path 0 ∅ [].

(** No database, and an open that fails for another reason (EACCES). *)
Definition w_new : World (string * string) :=
  mkWorld ∅ [] [] [] [chanB] [] db_path 0 ∅ [].

Definition w_denied : World (string * string) :=
  mkWorld (<[db_path := old_db]> ∅) [io_err 13] [] [] [chanB] [] db_path 0 ∅ [].

(** C7 as the claim has it: what is read back holds every +P channel with
    all its fields as they were. *)
Definition reproduces_exactly {Mode : Type} `{ChannelModes Mode} (w : World Mode) : Prop :=
  exists w',
    written_then_read w = Ret 1 w' /\
    forall c, c ∈ persistent_channels (channels w) -> c ∈ channels w'.


(** The bounds of [channel_ok] as a test. *)
Definition cstr_okb (x : cstr) : bool :=
  match x with Some s => strlen s <=? 10000 | None => true end.

Definition time_okb (t : Z) : bool := (- 2 ^ 63 <=? t) && (t <? 2 ^ 63).

Definition ban_okb (e : Ban) : bool :=
  cstr_okb (banstr e) && cstr_okb (who e) && time_okb (when e).

Definition listmode_okb (l : list Ban) : bool :=
  forallb ban_okb l && (Z.of_nat (length l) <? 2 ^ 32).

Definition channel_okb {Mode : Type} `{ChannelModes Mode} (c : Channel Mode) : bool :=
  cstr_okb (Some (chname c)) && time_okb (creationtime c) &&
  cstr_okb (topic c) && cstr_okb (topic_nick c) && time_okb (topic_time c) &&
  cstr_okb (Some (fst (channel_modes (mode c)))) &&
  cstr_okb (Some (snd (channel_modes (mode c)))) &&
  (length (mode_parv (mode c)) <=? 63)%nat &&
  cstr_okb (mode_lock c) &&
  listmode_okb (banlist c) && listmode_okb (exlist c) && listmode_okb (invexlist c).

End ChannelDbSpec.

Module MtagTerms.
Import Mtag MtagSpec.

(** The object MessageTagHandlerAdd makes for a request: a zeroed
    allocation with the name, then the four fields it sets. *)
Definition new_handler (module : ptr) (mreq : MessageTagHandlerInfo) : MessageTagHandler :=
  mkMessageTagHandler None None (req_name mreq) (req_flags mreq) (req_is_ok mreq) None
    module (req_clicap_handler mreq) false.

(** The payload of a handler: all but the links. *)
Definition same_payload (x y : MessageTagHandler) : Prop :=
  name y = name x /\ flags y = flags x /\ is_ok y = is_ok x /\
  can_send y = can_send x /\ owner y = owner x /\
  clicap_handler y = clicap_handler x /\ unloaded y = unloaded x.

(** ** The sweep *)

(** The capabilities after the commits of the unloaded entries of [l], in
    list order. *)
Fixpoint swept_caps (h : gmap addr MessageTagHandler) (l : list addr)
    (caps : gmap addr ClientCapability) : gmap addr ClientCapability :=
  match l with
  | [] => caps
  | a :: l' =>
      match h !! a with
      | Some x =>
          swept_caps h l' (if unloaded x then clear_cap (clicap_handler x) caps else caps)
      | None => caps
      end
  end.

(** The lines logged for the unloaded entries of [l], in list order. *)
Fixpoint swept_lines (h : gmap addr MessageTagHandler) (l : list addr) : list LogLine :=
  match l with
  | [] => []
  | a :: l' =>
      match h !! a with
      | Some x => (if unloaded x then unload_lines x else []) ++ swept_lines h l'
      | None => []
      end
  end.

End MtagTerms.

Module ChannelDbTerms.
Import ChannelDb ChannelDbSpec.

Section WithModes.
Context {Mode : Type} `{ChannelModes Mode}.
Implicit Types (w : World Mode) (c : Channel Mode).

(** ** What reading leaves alone *)

(** [w'] is [w] but for the stream, the channel list and the fault
    script, with lines logged and calls made. *)
Definition untouched w w' : Prop :=
  files w' = files w /\ database w' = database w /\
  channeldb_loaded w' = channeldb_loaded w /\ persistent w' = persistent w /\
  timers w' = timers w /\
  (exists ls, logs w' = logs w ++ ls) /\ (exists tr, syscalls w' = syscalls w ++ tr).

(** A computation that, when it returns, has touched nothing else. *)
Definition reads_only {A : Type} (f : M (World Mode) A) : Prop :=
  forall w r w', f w = Ret r w' -> untouched w w'.

(** A computation whose result, when it returns, satisfies [P]. *)
Definition yields {A : Type} (P : A -> Prop) (f : M (World Mode) A) : Prop :=
  forall w r w', f w = Ret r w' -> P r.

(** ** Two restarts *)

(** The names of two channels differ, case ignored. *)
Definition differ (a b : Channel Mode) : Prop := stricmp (chname a) (chname b) = false.

(** No two channels of the list have the same name. *)
Fixpoint distinct_names (l : list (Channel Mode)) : Prop :=
  match l with
  | [] => True
  | a :: rest => (forall b, b ∈ rest -> differ b a) /\ distinct_names rest
  end.

(** ** The configuration *)

(** The path the directives leave in [cfg.database]: the value of the
    last database directive, [d] when there is none. *)
Fixpoint configured_database (conf : list (string * string)) (d : string) : string :=
  match conf with
  | [] => d
  | (varname, vardata) :: rest =>
      configured_database rest (if String.eqb varname "database" then vardata else d)
  end.

End WithModes.

(** A directive the test accepts: a database directive with a value. *)
Definition directive_ok (cep : ConfigEntry) : bool :=
  match ce_vardata cep with
  | Some _ => String.eqb (ce_varname cep) "database"
  | None => false
  end.

(** The entry as the test leaves it. *)
Definition tested_entry (conv : string -> string -> string) (dir : string)
    (cep : ConfigEntry) : ConfigEntry :=
  match ce_vardata cep with
  | Some v =>
      if String.eqb (ce_varname cep) "database"
      then mkConfigEntry (ce_varname cep) (Some (conv v dir)) (ce_filename cep)
             (ce_varlinenum cep)
      else cep
  | None => cep
  end.

(** The line the test prints for an entry. *)
Definition complaint (cep : ConfigEntry) : list ConfigError :=
  match ce_vardata cep with
  | None => [blank_without_value (ce_filename cep) (ce_varlinenum cep) (ce_varname cep)]
  | Some _ =>
      if String.eqb (ce_varname cep) "database" then []
      else [unknown_directive (ce_filename cep) (ce_varlinenum cep) (ce_varname cep)]
  end.

(** ** The statements on examples *)

(** A database of a newer version, an empty database file. *)
Definition w_newer : World (string * string) :=
  mkWorld (<[db_path := le_bytes 4 101 ++ le_bytes 8 0]> ∅) [] [] [] [chanB] [] db_path 0 ∅ [].

Definition w_emptyfile : World (string * string) :=
  mkWorld (<[db_path := []]> ∅) [] [] [] [chanB] [] db_path 0 ∅ [].

(** A [set::channeldb] block with two database directives, and one with a
    blank and an unknown directive. *)
Definition block_good : ConfigBlock :=
  mkConfigBlock "channeldb"
    [mkConfigEntry "database" (Some "old.db") "unrealircd.conf" 10;
     mkConfigEntry "database" (Some "new.db") "unrealircd.conf" 11].

Definition block_bad : ConfigBlock :=
  mkConfigBlock "channeldb"
    [mkConfigEntry "database" None "unrealircd.conf" 10;
     mkConfigEntry "databse" (Some "x.db") "unrealircd.conf" 11;
     mkConfigEntry "database" (Some "new.db") "unrealircd.conf" 12].

Definition under_dir (path dir : string) : string := dir +:+ "/" +:+ path.

(** A server that has an old database and a file of another name. *)
Definition w_saved : World (string * string) :=
  mkWorld (<[db_path := old_db]> (<["motd.txt" := le_bytes 2 7]> ∅)) [] [] []
    [chanA; chanB; chanC] [] db_path 1 ∅ [].

(** A database of version 7 with two records and four more bytes, read by
    a server that has the channel #tmp. *)
Definition w_trailing : World (string * string) :=
  mkWorld (<[db_path := db_header 7 2 ++ ser_records [chanA; chanC] ++ le_bytes 4 5]> ∅)
    [] [] [] [chanB] [] db_path 0 ∅ [].

End ChannelDbTerms.

(** * Facts *)

Lemma bind_eq {S A B : Type} (c : M S A) (k : A -> M S B) s a s' :
  c s = Ret a s' -> bind c k s = k a s'.
Proof. unfold bind. by intros ->. Qed.

Lemma bind_inv {S A B : Type} (c : M S A) (k : A -> M S B) s b s2 :
  bind c k s = Ret b s2 -> exists a s1, c s = Ret a s1 /\ k a s1 = Ret b s2.
Proof. unfold bind. destruct (c s); try done. eauto. Qed.

Ltac mbind tac := erewrite bind_eq; [| tac ].

Ltac mstep tac := erewrite bind_eq; [| tac ]; cbv beta iota.

Section ListItemFacts.
Context {A : Type} `{LS : ListStruct A}.
Implicit Types (h : gmap addr A) (l : list addr) (a item : addr) (q : ptr).

Lemma relinked_trans x y z : relinked x y -> relinked y z -> relinked x z.
Proof. intros Hxy Hyz. induction Hyz; eauto using relinked. Qed.

Lemma heap_relinked_refl h : heap_relinked h h.
Proof. intros a. destruct (h !! a); [constructor|done]. Qed.

Lemma heap_relinked_trans h1 h2 h3 :
  heap_relinked h1 h2 -> heap_relinked h2 h3 -> heap_relinked h1 h3.
Proof.
  intros H12 H23 a. specialize (H12 a). specialize (H23 a).
  destruct (h1 !! a), (h2 !! a), (h3 !! a); try done.
  by eapply relinked_trans.
Qed.

Lemma palter_lookup_ne f q h a : q ≠ Some a -> palter f q h !! a = h !! a.
Proof.
  destruct q as [b|]; simpl; [|done]. intros Hne.
  apply lookup_alter_ne. congruence.
Qed.

Lemma heap_relinked_palter_prev q1 q h : heap_relinked h (palter (ls_set_prev q1) q h).
Proof.
  intros a. destruct (decide (q = Some a)) as [->|Hne].
  - simpl. rewrite lookup_alter_eq. destruct (h !! a); simpl; [|done].
    constructor. constructor.
  - rewrite palter_lookup_ne by done. destruct (h !! a); [constructor|done].
Qed.

Lemma heap_relinked_palter_next q1 q h : heap_relinked h (palter (ls_set_next q1) q h).
Proof.
  intros a. destruct (decide (q = Some a)) as [->|Hne].
  - simpl. rewrite lookup_alter_eq. destruct (h !! a); simpl; [|done].
    constructor. constructor.
  - rewrite palter_lookup_ne by done. destruct (h !! a); [constructor|done].
Qed.

Lemma dll_same_links h h' l : forall pv hd,
  (forall a, a ∈ l -> same_links h h' a) ->
  dll h pv hd l -> dll h' pv hd l.
Proof.
  induction l as [|a l IH]; intros pv hd Hs; simpl; [done|].
  intros [-> (x & Hx & Hp & Hd)]. split; [done|].
  destruct (Hs a ltac:(left) x Hx) as (x' & Hx' & Hp' & Hn').
  exists x'. rewrite Hp', Hn'. repeat split; try done.
  apply IH; [|done]. intros b Hb. apply Hs. by right.
Qed.

Lemma dll_frame h h' l pv hd :
  (forall a, a ∈ l -> h' !! a = h !! a) ->
  dll h pv hd l -> dll h' pv hd l.
Proof.
  intros Hf. apply dll_same_links. intros a Ha x Hx.
  exists x. by rewrite Hf.
Qed.

Lemma dll_lookup h l : forall pv hd a,
  dll h pv hd l -> a ∈ l -> is_Some (h !! a).
Proof.
  induction l as [|b l IH]; intros pv hd a; simpl; [by intros _ ?%elem_of_nil|].
  intros [-> (x & Hx & Hp & Hd)] [->|Hin]%elem_of_cons; [by eexists|].
  by eapply IH.
Qed.

Lemma dll_head h l pv hd : dll h pv hd l -> hd = head l.
Proof. destruct l; simpl; [done|]. by intros [-> _]. Qed.

Lemma is_list_length h hd l : is_list h hd l -> (length l <= size h)%nat.
Proof.
  intros [Hnd Hd].
  rewrite <- (size_dom (D := gset addr)).
  rewrite <- (size_list_to_set (C := gset addr) l Hnd).
  apply subseteq_size. intros a Ha%elem_of_list_to_set.
  apply elem_of_dom. by eapply dll_lookup.
Qed.

(** A write that keeps the links keeps the list. *)
Lemma is_list_alter h hd l f a :
  (forall y, ls_prev (f y) = ls_prev y /\ ls_next (f y) = ls_next y) ->
  is_list h hd l -> is_list (alter f a h) hd l.
Proof.
  intros Hf [Hnd Hd]. split; [done|].
  eapply dll_same_links; [|done]. intros b _ y Hy.
  destruct (decide (a = b)) as [->|Hne].
  - exists (f y). rewrite lookup_alter_eq, Hy. split; [done|]. apply Hf.
  - exists y. by rewrite lookup_alter_ne.
Qed.

(** The first node of a segment may be given any [prev]. *)
Lemma dll_relink_first h l pv q hd :
  NoDup l -> dll h pv hd l -> dll (palter (ls_set_prev q) hd h) q hd l.
Proof.
  destruct l as [|n l]; simpl.
  - by intros _ ->.
  - intros [Hn Hnd]%NoDup_cons [-> (x & Hx & Hp & Hd)].
    split; [done|]. exists (ls_set_prev q x). simpl.
    rewrite lookup_alter_eq, Hx, ls_prev_set_prev, ls_next_set_prev.
    repeat split; try done.
    eapply dll_frame; [|done]. intros b Hb.
    rewrite lookup_alter_ne; [done|]. by intros ->.
Qed.

Lemma heap_relinked_unlinked h x : heap_relinked h (unlinked h x).
Proof.
  eapply heap_relinked_trans;
    [apply heap_relinked_palter_next | apply heap_relinked_palter_prev].
Qed.

Lemma dll_tail_after_unlink h l2 a x :
  NoDup (a :: l2) -> (forall p, ls_prev x = Some p -> p ∉ l2) ->
  dll h (Some a) (ls_next x) l2 ->
  dll (unlinked h x) (ls_prev x) (ls_next x) l2.
Proof.
  intros [Ha Hnd]%NoDup_cons Hp Hd. unfold unlinked.
  apply dll_relink_first with (pv := Some a); [done|].
  eapply dll_frame; [|done]. intros b Hb.
  apply palter_lookup_ne. intros Hq. by apply (Hp b).
Qed.

Lemma dll_mid h a l2 : forall l1 pv hd,
  dll h pv hd (l1 ++ a :: l2) ->
  exists x, h !! a = Some x /\
            ls_prev x = match last l1 with Some p => Some p | None => pv end /\
            dll h (Some a) (ls_next x) l2.
Proof.
  induction l1 as [|b l1 IH]; intros pv hd; simpl.
  - intros [-> (x & Hx & Hp & Hd)]. by exists x.
  - intros [-> (xb & Hxb & Hpb & Hd)].
    destruct (IH _ _ Hd) as (x & Hx & Hp & Hd2). exists x.
    repeat split; try done. rewrite Hp.
    destruct l1 as [|c l1]; [done|]. rewrite last_cons_cons.
    assert (is_Some (last (c :: l1))) as [p ->] by (by apply last_is_Some).
    done.
Qed.

Lemma last_elem_of (l : list addr) p : last l = Some p -> p ∈ l.
Proof.
  intros Hl. apply last_Some in Hl as [l' ->]. set_solver.
Qed.

Lemma unlinked_lookup_ne h x b :
  ls_prev x ≠ Some b -> ls_next x ≠ Some b -> unlinked h x !! b = h !! b.
Proof. intros Hp Hn. unfold unlinked. by rewrite !palter_lookup_ne. Qed.

(** Taking [a] out of the segment [l1 ++ a :: l2] leaves the segment
    [l1 ++ l2]. *)
Lemma dll_unlink h a x l2 : forall l1 pv hd,
  NoDup (l1 ++ a :: l2) -> h !! a = Some x ->
  (forall p, pv = Some p -> p ∉ l1 ++ a :: l2) ->
  dll h pv hd (l1 ++ a :: l2) ->
  dll (unlinked h x) pv (match l1 with [] => ls_next x | _ => hd end) (l1 ++ l2).
Proof.
  induction l1 as [|b l1 IH]; intros pv hd Hnd Hx Hpv Hd.
  - simpl in *. destruct Hd as [-> (x0 & Hx0 & Hp & Hd)].
    assert (x0 = x) as -> by congruence. rewrite <- Hp.
    apply dll_tail_after_unlink with (a := a); [done| |done].
    intros p Hpp. rewrite Hp in Hpp. specialize (Hpv p Hpp). set_solver.
  - pose proof (dll_mid _ _ _ _ _ _ Hd) as (x0 & Hx0 & Hpx & Hd2).
    assert (x0 = x) as -> by congruence.
    pose proof (dll_head _ _ _ _ Hd2) as Hnx.
    simpl in Hd. destruct Hd as [-> (xb & Hxb & Hpb & Hd)].
    simpl in Hnd. apply NoDup_cons in Hnd as [Hb Hnd].
    assert (ls_next x ≠ Some b) as Hnb.
    { rewrite Hnx. intros Hh. apply Hb. apply head_Some_elem_of in Hh. set_solver. }
    destruct l1 as [|c l1].
    + (* b is the neighbour before a *)
      simpl in *. destruct Hd as [Hna (x1 & Hx1 & Hp1 & Hd)].
      assert (x1 = x) as -> by congruence.
      split; [done|]. exists (ls_set_next (ls_next x) xb).
      rewrite ls_prev_set_next, ls_next_set_next. repeat split; try done.
      * unfold unlinked. rewrite Hp1. rewrite palter_lookup_ne by done.
        simpl. by rewrite lookup_alter_eq, Hxb.
      * rewrite <- Hp1.
        apply dll_tail_after_unlink with (a := a); [done| |done].
        intros p Hpp. rewrite Hp1 in Hpp. injection Hpp as <-. set_solver.
    + (* b is further away: its object is untouched *)
      assert (ls_prev x ≠ Some b) as Hpb'.
      { rewrite Hpx.
        assert (is_Some (last (b :: c :: l1))) as [p Hl] by (by apply last_is_Some).
        rewrite Hl.
        rewrite last_cons_cons in Hl. apply last_elem_of in Hl.
        intros [= ->]. set_solver. }
      change ((b :: c :: l1) ++ l2) with (b :: (c :: l1) ++ l2).
      split; [done|]. exists xb. split; [|split; [done|]].
      * by rewrite unlinked_lookup_ne.
      * apply (IH (Some b) (ls_next xb)); try done.
        intros p [= <-]. done.
Qed.

(** ** The list macros on a well-formed list *)

Lemma st_eq h headp a f :
  is_Some (h !! a) -> st a f (h, headp) = Ret tt (alter f a h, headp).
Proof. intros [x Hx]. unfold st; simpl. by rewrite Hx. Qed.

Lemma del_walk_absent h headp item l : forall fuel pv cur,
  dll h pv cur l -> item ∉ l -> (length l < fuel)%nat ->
  del_ListItem_walk fuel cur item (h, headp) = Ret tt (h, headp).
Proof.
  induction l as [|b l IH]; intros fuel pv cur Hd Hni Hlen;
    (destruct fuel as [|fuel]; [simpl in Hlen; lia|]); simpl in *.
  - by subst.
  - destruct Hd as [-> (x & Hx & Hp & Hd)].
    unfold bind, ld; simpl. rewrite Hx.
    destruct (decide (b = item)) as [->|Hne]; [set_solver|].
    eapply IH; [done|set_solver|lia].
Qed.

Lemma del_walk_found h headp a x l2 : forall l1 fuel pv cur,
  dll h pv cur (l1 ++ a :: l2) -> a ∉ l1 -> (length l1 < fuel)%nat ->
  h !! a = Some x ->
  (forall p, ls_prev x = Some p -> is_Some (h !! p)) ->
  del_ListItem_walk fuel cur a (h, headp) =
    Ret tt (unlinked h x,
            match ls_prev x with Some _ => headp | None => ls_next x end).
Proof.
  induction l1 as [|b l1 IH]; intros fuel pv cur Hd Hni Hlen Hx Hpv;
    (destruct fuel as [|fuel]; [simpl in Hlen; lia|]); simpl in *.
  - destruct Hd as [-> (x0 & Hx0 & Hp & Hd)].
    assert (x0 = x) as -> by congruence.
    unfold bind, ld; simpl. rewrite Hx.
    destruct (decide (a = a)) as [_|]; [|done].
    assert (forall h', (forall b, is_Some (h !! b) -> is_Some (h' !! b)) ->
              forall hp, match ls_next x with
              | Some n => st n (ls_set_prev (ls_prev x))
              | None => ret tt
              end (h', hp) = Ret tt (palter (ls_set_prev (ls_prev x)) (ls_next x) h', hp))
      as Hnext.
    { intros h' Hsub hp. pose proof (dll_head _ _ _ _ Hd) as Hh.
      destruct (ls_next x) as [n|] eqn:Hn; [|done].
      symmetry in Hh. apply head_Some_elem_of in Hh.
      destruct (Hsub n (dll_lookup _ _ _ _ _ Hd Hh)) as [y Hy].
      unfold st; simpl. by rewrite Hy. }
    unfold unlinked. destruct (ls_prev x) as [p|] eqn:Hpx.
    + destruct (Hpv p eq_refl) as [y Hy]. unfold st at 1; simpl. rewrite Hy.
      apply Hnext. intros b0 Hb0. by apply lookup_alter_is_Some.
    + unfold set_head; simpl. by apply Hnext.
  - destruct Hd as [-> (xb & Hxb & Hpb & Hd)].
    unfold bind, ld; simpl. rewrite Hxb.
    destruct (decide (b = a)) as [->|Hne]; [set_solver|].
    eapply IH; [done|set_solver|lia|done|done].
Qed.

Lemma is_list_split_prev h headp l1 a l2 x :
  is_list h headp (l1 ++ a :: l2) -> h !! a = Some x ->
  ls_prev x = last l1 /\ headp = head (l1 ++ a :: l2).
Proof.
  intros [Hnd Hd] Hx. destruct (dll_mid _ _ _ _ _ _ Hd) as (x0 & Hx0 & Hp & _).
  assert (x0 = x) as -> by congruence. split.
  - rewrite Hp. by destruct (last l1).
  - by eapply dll_head.
Qed.

(** [DelListItem] of a member takes exactly that member out. *)
Lemma del_ListItem_member h headp l1 a l2 x :
  is_list h headp (l1 ++ a :: l2) -> h !! a = Some x ->
  exists headp',
    del_ListItem a (h, headp) = Ret tt (unlinked h x, headp') /\
    is_list (unlinked h x) headp' (l1 ++ l2).
Proof.
  intros Hl Hx. pose proof (is_list_length _ _ _ Hl) as Hlen.
  pose proof (is_list_split_prev _ _ _ _ _ _ Hl Hx) as [Hp Hh].
  destruct Hl as [Hnd Hd].
  exists (match ls_prev x with Some _ => headp | None => ls_next x end). split.
  - unfold del_ListItem; cbn [fst snd]. eapply del_walk_found; try done.
    + apply NoDup_app in Hnd as (_ & Hnd & _). intros Hin. apply (Hnd a Hin). set_solver.
    + rewrite length_app in Hlen. simpl in Hlen. lia.
    + intros p Hpp. rewrite Hp in Hpp. apply last_elem_of in Hpp.
      eapply dll_lookup; [done|]. set_solver.
  - split.
    + apply NoDup_app in Hnd as (H1 & H2 & H3). apply NoDup_cons in H3 as [H3 H4].
      apply NoDup_app. repeat split; try done. intros b Hb Hb2. apply (H2 b Hb). set_solver.
    + pose proof (dll_unlink h a x l2 l1 None headp Hnd Hx) as Hu.
      rewrite Hp. destruct l1 as [|b l1]; simpl in *.
      * apply Hu; [done|done].
      * assert (is_Some (last (b :: l1))) as [p Hl].
        { apply last_is_Some. done. }
        rewrite Hl. apply Hu; [done|done].
Qed.

Lemma del_ListItem_absent h headp l item :
  is_list h headp l -> item ∉ l ->
  del_ListItem item (h, headp) = Ret tt (h, headp).
Proof.
  intros Hl Hni. pose proof (is_list_length _ _ _ Hl) as Hlen.
  destruct Hl as [Hnd Hd]. unfold del_ListItem; cbn [fst snd].
  eapply del_walk_absent; [done|done|lia].
Qed.

(** [AddListItem] of a fresh object puts it in front. *)
Lemma add_ListItem_fresh h headp l item x :
  is_list h headp l -> item ∉ l -> h !! item = Some x ->
  exists h',
    add_ListItem item (h, headp) = Ret tt (h', Some item) /\
    is_list h' (Some item) (item :: l) /\ heap_relinked h h'.
Proof.
  intros [Hnd Hd] Hni Hx.
  exists (palter (ls_set_prev (Some item)) headp
            (alter (ls_set_prev None) item (alter (ls_set_next headp) item h))).
  assert (is_Some (alter (ls_set_prev None) item (alter (ls_set_next headp) item h) !! item))
    as [y Hy].
  { apply lookup_alter_is_Some, lookup_alter_is_Some. by eexists. }
  split; [|split].
  - unfold add_ListItem.
    mbind ltac:(reflexivity).
    mbind ltac:(apply st_eq; by eexists).
    mbind ltac:(apply st_eq; apply lookup_alter_is_Some; by eexists).
    destruct headp as [b|]; simpl; [|done].
    pose proof (dll_head _ _ _ _ Hd) as Hh. symmetry in Hh.
    apply head_Some_elem_of in Hh.
    assert (b ≠ item) by (intros ->; done).
    mbind ltac:(apply st_eq; rewrite !lookup_alter_ne by done;
                by eapply dll_lookup).
    done.
  - split; [by apply NoDup_cons|]. simpl. split; [done|].
    assert (headp ≠ Some item) as Hne.
    { rewrite (dll_head _ _ _ _ Hd). intros Hh%head_Some_elem_of. done. }
    exists (ls_set_prev None (ls_set_next headp x)).
    rewrite ls_prev_set_prev, ls_next_set_prev, ls_next_set_next.
    repeat split; try done.
    + rewrite palter_lookup_ne by done.
      by rewrite !lookup_alter_eq, Hx.
    + apply dll_relink_first with (pv := None); [done|].
      eapply dll_frame; [|done]. intros b Hb.
      rewrite !lookup_alter_ne; [done|by intros ->..].
  - eapply heap_relinked_trans; [|apply heap_relinked_palter_prev].
    eapply heap_relinked_trans;
      [apply (heap_relinked_palter_next headp (Some item)) |
       apply (heap_relinked_palter_prev None (Some item))].
Qed.

End ListItemFacts.

Module MtagFacts.
Import Mtag MtagSpec.

Lemma zoom_eq {S T A : Type} (proj : S -> T) (inj : T -> S -> S) (c : M T A) s a t :
  c (proj s) = Ret a t -> zoom proj inj c s = Ret a (inj t s).
Proof. unfold zoom. by intros ->. Qed.

Lemma load_eq s m x : mtags s !! m = Some x -> load m s = Ret x s.
Proof. unfold load. by intros ->. Qed.

Lemma store_eq s m f :
  is_Some (mtags s !! m) ->
  store m f s = Ret tt (with_registry (alter f m (mtags s), mtaghandlers s) s).
Proof. intros [x Hx]. unfold store. by rewrite Hx. Qed.

Lemma store_clicap_eq s c p :
  is_Some (clicaps s !! c) ->
  store_clicap_mtag_handler c p s =
    Ret tt (with_clicaps
              (alter (fun x => mkClientCapability (cap_name x) p) c (clicaps s)) s).
Proof. intros [x Hx]. unfold store_clicap_mtag_handler. by rewrite Hx. Qed.

Lemma load_module_eq s mo md : modules s !! mo = Some md -> load_module mo s = Ret md s.
Proof. unfold load_module. by intros ->. Qed.

Lemma store_errorcode_eq s mo e :
  is_Some (modules s !! mo) ->
  store_errorcode mo e s =
    Ret tt (with_modules (alter (fun x => mkModule (objects x) e) mo (modules s)) s).
Proof. intros [x Hx]. unfold store_errorcode. by rewrite Hx. Qed.

(** Relinking leaves the payload of a handler alone. *)
Lemma relinked_payload x y :
  relinked x y ->
  name y = name x /\ flags y = flags x /\ is_ok y = is_ok x /\
  can_send y = can_send x /\ owner y = owner x /\
  clicap_handler y = clicap_handler x /\ unloaded y = unloaded x.
Proof. induction 1; simpl; tauto. Qed.

Lemma Find_walk_spec s token l : forall fuel pv cur,
  dll (mtags s) pv cur l -> (length l < fuel)%nat ->
  Find_walk fuel token cur s = Ret (first_match (mtags s) token l) s.
Proof.
  induction l as [|a l IH]; intros fuel pv cur Hd Hlen;
    (destruct fuel as [|fuel]; [simpl in Hlen; lia|]); simpl in *.
  - by subst.
  - destruct Hd as [-> (x & Hx & Hp & Hd)].
    mbind ltac:(by apply load_eq). rewrite Hx.
    destruct (stricmp token (name x)); [done|].
    eapply IH; [done|lia].
Qed.

Lemma Find_spec s token l :
  is_list (mtags s) (mtaghandlers s) l ->
  MessageTagHandlerFind token s = Ret (first_match (mtags s) token l) s.
Proof.
  intros Hl. pose proof (is_list_length _ _ _ Hl) as Hlen. destruct Hl as [_ Hd].
  unfold MessageTagHandlerFind. eapply Find_walk_spec; [done|lia].
Qed.

Lemma first_match_unique h token l m x :
  m ∈ l -> h !! m = Some x -> stricmp token (name x) = true ->
  (forall a, a ∈ l -> is_Some (h !! a)) ->
  (forall a y, a ∈ l -> h !! a = Some y -> stricmp token (name y) = true -> a = m) ->
  first_match h token l = Some m.
Proof.
  induction l as [|a l IH]; intros Hm Hx Hs Hall Hu; [by apply elem_of_nil in Hm|].
  simpl. destruct (Hall a ltac:(left)) as [y Hy]. rewrite Hy.
  destruct (stricmp token (name y)) eqn:Hsy.
  - f_equal. eapply Hu; [left|done|done].
  - apply elem_of_cons in Hm as [->|Hm]; [congruence|].
    apply IH; try done.
    + intros b Hb. apply Hall. by right.
    + intros b z Hb. apply Hu. by right.
Qed.

Lemma first_match_none h token l :
  (forall a, a ∈ l -> exists y, h !! a = Some y /\ stricmp token (name y) = false) ->
  first_match h token l = None.
Proof.
  induction l as [|a l IH]; intros Hall; [done|]. simpl.
  destruct (Hall a ltac:(left)) as (y & -> & ->).
  apply IH. intros b Hb. apply Hall. by right.
Qed.

Lemma Add_checks_pass mreq (k : M State ptr) s :
  request_ok mreq ->
  (if no_cap_needed (req_flags mreq) && bool_decide (is_Some (req_clicap_handler mreq))
   then (log (ircd_log_ERROR msg_both) ;;; abort)%M
   else if negb (no_cap_needed (req_flags mreq))
           && negb (bool_decide (is_Some (req_clicap_handler mreq)))
   then (log (ircd_log_ERROR msg_neither) ;;; abort)%M
   else k) s = k s.
Proof.
  intros [[-> ->]|[-> [c ->]]]; reflexivity.
Qed.

(** C4. A request that sets the no-capability-needed flag and also gives a
    capability, or that does neither, makes MessageTagHandlerAdd log one
    line at error severity and call abort(); the state at the abort is the
    state of the call with that one line added: the registry, the
    capabilities and the modules are untouched. *)
Theorem Add_contradictory_request_aborts (s : State) (module : ptr)
    (mreq : MessageTagHandlerInfo) :
  request_contradictory mreq ->
  MessageTagHandlerAdd module mreq s =
    Abort (with_logs
             (logs s ++ [ircd_log_ERROR
                           (if no_cap_needed (req_flags mreq)
                            then msg_both else msg_neither)]) s).
Proof.
  intros [[Hf [c Hc]]|[Hf Hc]]; unfold MessageTagHandlerAdd; rewrite Hf, Hc;
    reflexivity.
Qed.

Lemma Add_contradictory_request_aborts_witness :
  MessageTagHandlerAdd None (mkMessageTagHandlerInfo "msgid" 0 None None None) s_empty =
    Abort (with_logs [ircd_log_ERROR msg_neither] s_empty).
Proof.
  apply (Add_contradictory_request_aborts s_empty None
           (mkMessageTagHandlerInfo "msgid" 0 None None None)).
  right. split; reflexivity.
Defined.

(** C3. In a well-formed registry that holds an active entry [m] named as
    the request (and, as the registry keeps one entry per name, no other
    entry of that name), MessageTagHandlerAdd with a request that passes
    the consistency checks returns NULL; when a module is given its
    [errorcode] becomes MODERR_EXISTS; nothing else changes: the handler
    objects, the list, the freed set, the capabilities and the module
    object lists are those of before. *)
Theorem Add_active_name_exists (s : State) (l : list addr) (module : ptr)
    (mreq : MessageTagHandlerInfo) (m : addr) (x : MessageTagHandler) :
  is_list (mtags s) (mtaghandlers s) l ->
  request_ok mreq ->
  m ∈ l -> mtags s !! m = Some x ->
  stricmp (req_name mreq) (name x) = true -> unloaded x = false ->
  (forall a y, a ∈ l -> mtags s !! a = Some y ->
               stricmp (req_name mreq) (name y) = true -> a = m) ->
  (forall mo, module = Some mo -> is_Some (modules s !! mo)) ->
  MessageTagHandlerAdd module mreq s =
    Ret None
      (match module with
       | Some mo =>
           with_modules
             (alter (fun md => mkModule (objects md) MODERR_EXISTS) mo (modules s)) s
       | None => s
       end).
Proof.
  intros Hl Hreq Hm Hx Hname Hact Huniq Hmod.
  unfold MessageTagHandlerAdd. rewrite Add_checks_pass by done.
  mbind ltac:(by apply (Find_spec _ _ l)).
  rewrite (first_match_unique _ _ _ m x); try done.
  2:{ intros a Ha. destruct Hl as [_ Hd]. by eapply dll_lookup. }
  destruct module as [mo|].
  - mbind ltac:(mbind ltac:(by apply load_eq); rewrite Hact;
                mbind ltac:(apply store_errorcode_eq; by apply Hmod);
                reflexivity).
    done.
  - mbind ltac:(mbind ltac:(by apply load_eq); rewrite Hact; reflexivity).
    done.
Qed.

Lemma commit_spec s l1 m l2 x :
  is_list (mtags s) (mtaghandlers s) (l1 ++ m :: l2) ->
  mtags s !! m = Some x ->
  (forall c, clicap_handler x = Some c -> is_Some (clicaps s !! c)) ->
  exists hd',
    unload_mtag_handler_commit m s =
      Ret tt (mkState hd' (unlinked (mtags s) x) ({[m]} ∪ freed s)
                (clear_cap (clicap_handler x) (clicaps s)) (modules s) (mobjs s)
                (ircd_rehashing s) (logs s ++ unload_lines x)) /\
    is_list (unlinked (mtags s) x) hd' (l1 ++ l2).
Proof.
  intros Hl Hx Hc.
  destruct (del_ListItem_member _ _ _ _ _ _ Hl Hx) as (hd' & Hdel & Hl').
  exists hd'. split; [|done].
  unfold unload_mtag_handler_commit.
  mbind ltac:(by apply load_eq).
  mbind ltac:(reflexivity). mbind ltac:(reflexivity).
  destruct (clicap_handler x) as [c|] eqn:Hcx.
  - mbind ltac:(apply store_clicap_eq; by apply Hc).
    mbind ltac:(apply zoom_eq; exact Hdel).
    unfold MyFree_mtag, modify, unload_lines; simpl. by rewrite <- app_assoc.
  - mbind ltac:(reflexivity).
    mbind ltac:(apply zoom_eq; exact Hdel).
    unfold MyFree_mtag, modify, unload_lines; simpl. by rewrite <- app_assoc.
Qed.

Lemma Del_mobj_walk_spec s mo md ol m :
  modules s !! mo = Some md ->
  is_list (mobjs s) (objects md) ol ->
  forall (rest pre : list addr) fuel pv cur,
    ol = pre ++ rest -> dll (mobjs s) pv cur rest -> (length rest < fuel)%nat ->
    exists s', Del_mobj_walk fuel mo cur m s = Ret tt s' /\ modules_only s s'.
Proof.
  intros Hmd Hol.
  induction rest as [|oa rest IH]; intros pre fuel pv cur -> Hd Hlen;
    (destruct fuel as [|fuel]; [simpl in Hlen; lia|]); simpl in *.
  - subst. exists s. by repeat split.
  - destruct Hd as [-> (o & Ho & Hp & Hd)]. rewrite Ho.
    destruct (is_MOBJ_MTAG (mo_type o) && bool_decide (mo_object o = Some m)).
    + destruct (del_ListItem_member _ _ _ _ _ _ Hol Ho) as (hd' & Hdel & _).
      eexists. split.
      * mbind ltac:(apply zoom_eq; unfold module_objects; rewrite Hmd; exact Hdel).
        reflexivity.
      * by repeat split.
    + apply (IH (pre ++ [oa]) fuel (Some oa)); [by rewrite <- app_assoc|done|lia].
Qed.

Lemma forget_owner_spec s m x :
  mtags s !! m = Some x -> owner_ok s x ->
  exists s', forget_owner m s = Ret tt s' /\
    mtaghandlers s' = mtaghandlers s /\
    mtags s' = alter (set_owner None) m (mtags s) /\
    freed s' = freed s /\ clicaps s' = clicaps s /\
    ircd_rehashing s' = ircd_rehashing s /\ logs s' = logs s.
Proof.
  intros Hx Hown. unfold forget_owner.
  mbind ltac:(by apply load_eq).
  destruct (owner x) as [mo|] eqn:Ho.
  - destruct (Hown mo Ho) as (md & ol & Hmd & Hol).
    mbind ltac:(by apply load_module_eq). mbind ltac:(reflexivity).
    pose proof (is_list_length _ _ _ Hol) as Hlen.
    destruct (Del_mobj_walk_spec s mo md ol m Hmd Hol ol [] (S (size (mobjs s))) None
                (objects md) eq_refl (proj2 Hol) ltac:(lia))
      as (s1 & Hw & H1 & H2 & H3 & H4 & H5 & H6).
    mbind ltac:(exact Hw).
    rewrite store_eq by (rewrite H2; by eexists).
    eexists. split; [done|]. simpl. rewrite H1, H2, H3, H4, H5, H6. done.
  - exists s. repeat split; try done.
    apply map_eq. intros a. rewrite lookup_alter.
    destruct (decide (m = a)) as [<-|]; [|done].
    rewrite Hx. simpl. f_equal. destruct x; simpl in *. by subst.
Qed.

Lemma clear_cap_is_Some p caps c :
  is_Some (clear_cap p caps !! c) <-> is_Some (caps !! c).
Proof. destruct p; simpl; [apply lookup_alter_is_Some|done]. Qed.

Lemma sweep_walk_spec (U : addr -> bool) : forall (rest kept : list addr) fuel s cur,
  is_list (mtags s) (mtaghandlers s) (kept ++ rest) ->
  cur = head rest ->
  (forall a, a ∈ rest -> is_unloaded s a = U a /\ cap_ok s a) ->
  (length rest < fuel)%nat ->
  exists s',
    unload_all_walk fuel cur s = Ret tt s' /\
    freed s' = list_to_set (filter (fun a => U a = true) rest) ∪ freed s /\
    is_list (mtags s') (mtaghandlers s') (kept ++ filter (fun a => U a = false) rest) /\
    heap_relinked (mtags s) (mtags s').
Proof.
  induction rest as [|a rest IH]; intros kept fuel s cur Hl -> Hall Hlen;
    (destruct fuel as [|fuel]; [simpl in Hlen; lia|]); simpl in *.
  - exists s. repeat split; try apply Hl.
    + set_solver.
    + apply heap_relinked_refl.
  - destruct (dll_mid _ _ _ _ _ _ (proj2 Hl)) as (x & Hx & _ & Hd2).
    pose proof (dll_head _ _ _ _ Hd2) as Hnext.
    destruct (Hall a ltac:(left)) as [HU Hcap].
    unfold is_unloaded in HU. rewrite Hx in HU.
    mbind ltac:(by apply load_eq).
    rewrite filter_cons, (filter_cons (fun a => U a = false)).
    destruct (unloaded x) eqn:Hun.
    + (* unloaded: committed *)
      destruct (commit_spec s kept a rest x Hl Hx) as (hd' & Hc & Hl').
      { intros c Hcx. by eapply Hcap. }
      mbind ltac:(exact Hc).
      pose proof (heap_relinked_unlinked (mtags s) x) as Hrel.
      match type of Hc with _ = Ret _ ?st => set (s1 := st) in * end.
      edestruct (IH kept fuel s1) as (s' & Hw & Hf & Hl2 & Hr2);
        [exact Hl' | exact Hnext | | lia | ].
      { intros b Hb. destruct (Hall b ltac:(by right)) as [HUb Hcb].
        specialize (Hrel b). simpl. unfold is_unloaded, cap_ok in *. simpl.
        destruct (mtags s !! b) as [y|] eqn:Hy,
                 (unlinked (mtags s) x !! b) as [y'|] eqn:Hy'; try done.
        apply relinked_payload in Hrel as (_ & _ & _ & _ & _ & Hcc & Huu).
        split; [congruence|].
        intros y1 c [= <-] Hc1. apply clear_cap_is_Some.
        eapply Hcb; [done|congruence]. }
      exists s'. split; [exact Hw|]. simpl in *.
      rewrite <- HU. rewrite decide_True by done. rewrite decide_False by done.
      split; [|split].
      * rewrite Hf. set_solver.
      * done.
      * by eapply heap_relinked_trans.
    + (* active: kept *)
      mbind ltac:(reflexivity).
      edestruct (IH (kept ++ [a]) fuel s) as (s' & Hw & Hf & Hl2 & Hr2);
        [by rewrite <- app_assoc | exact Hnext | | lia | ].
      { intros b Hb. apply Hall. by right. }
      exists s'. split; [exact Hw|].
      rewrite <- HU. rewrite decide_False by done. rewrite decide_True by done.
      split; [done|]. split; [|done].
      by rewrite <- app_assoc in Hl2.
Qed.

Lemma sweep_spec s l :
  is_list (mtags s) (mtaghandlers s) l ->
  (forall a, a ∈ l -> cap_ok s a) ->
  exists s',
    unload_all_unused_mtag_handlers s = Ret tt s' /\
    (forall a, a ∈ freed s' <-> a ∈ freed s \/ (a ∈ l /\ is_unloaded s a = true)) /\
    is_list (mtags s') (mtaghandlers s') (filter (fun a => is_unloaded s a = false) l).
Proof.
  intros Hl Hcap. pose proof (is_list_length _ _ _ Hl) as Hlen.
  destruct (sweep_walk_spec (is_unloaded s) l [] (S (size (mtags s))) s (mtaghandlers s))
    as (s' & Hw & Hf & Hl' & _); try done.
  - destruct Hl as [_ Hd]. exact (dll_head _ _ _ _ Hd).
  - intros a Ha. split; [done|]. by apply Hcap.
  - lia.
  - exists s'. split; [exact Hw|]. split; [|done].
    intros a. rewrite Hf. rewrite elem_of_union, elem_of_list_to_set, list_elem_of_filter.
    tauto.
Qed.

Lemma alter_twice {V : Type} (f g : V -> V) (a : addr) (h : gmap addr V) :
  alter f a (alter g a h) = alter (fun y => f (g y)) a h.
Proof.
  apply map_eq. intros b. destruct (decide (a = b)) as [->|Hne].
  - rewrite !lookup_alter_eq. by destruct (h !! b).
  - by rewrite !lookup_alter_ne.
Qed.

Lemma Del_unfold m :
  MessageTagHandlerDel m =
  (s <- get ;;
   (if ircd_rehashing s
    then store m (set_unloaded true)
    else unload_mtag_handler_commit m) ;;;
   forget_owner m)%M.
Proof. reflexivity. Qed.

Lemma Del_rehashing s l e x :
  is_list (mtags s) (mtaghandlers s) l ->
  mtags s !! e = Some x -> owner_ok s x -> ircd_rehashing s = true ->
  exists s',
    MessageTagHandlerDel e s = Ret tt s' /\
    mtags s' = alter (fun y => set_owner None (set_unloaded true y)) e (mtags s) /\
    mtaghandlers s' = mtaghandlers s /\ freed s' = freed s /\
    clicaps s' = clicaps s /\ ircd_rehashing s' = true /\
    is_list (mtags s') (mtaghandlers s') l.
Proof.
  intros Hl Hx Hown Hre. rewrite Del_unfold.
  mbind ltac:(reflexivity). rewrite Hre.
  mbind ltac:(apply store_eq; by eexists).
  match goal with |- context [forget_owner _ ?st] => set (s1 := st) end.
  destruct (forget_owner_spec s1 e (set_unloaded true x))
    as (s' & Hf & H1 & H2 & H3 & H4 & H5 & H6).
  { subst s1; simpl. by rewrite lookup_alter_eq, Hx. }
  { intros mo Hmo. apply (Hown mo Hmo). }
  exists s'. split; [done|]. subst s1; simpl in *.
  rewrite H1, H2, H3, H4, H5, alter_twice.
  repeat split; try done; try apply Hl.
  apply is_list_alter; [by intros y|done].
Qed.

Lemma Del_not_rehashing s l1 e l2 x :
  is_list (mtags s) (mtaghandlers s) (l1 ++ e :: l2) ->
  mtags s !! e = Some x -> owner_ok s x -> cap_ok s e -> ircd_rehashing s = false ->
  exists s',
    MessageTagHandlerDel e s = Ret tt s' /\
    freed s' = {[e]} ∪ freed s /\
    clicaps s' = clear_cap (clicap_handler x) (clicaps s) /\
    is_list (mtags s') (mtaghandlers s') (l1 ++ l2).
Proof.
  intros Hl Hx Hown Hcap Hre. rewrite Del_unfold.
  mbind ltac:(reflexivity). rewrite Hre.
  destruct (commit_spec s l1 e l2 x Hl Hx) as (hd' & Hc & Hl').
  { intros c Hc. by eapply Hcap. }
  mbind ltac:(exact Hc).
  match goal with |- context [forget_owner _ ?st] => set (s1 := st) end.
  pose proof (heap_relinked_unlinked (mtags s) x e) as Hrel. rewrite Hx in Hrel.
  destruct (unlinked (mtags s) x !! e) as [x'|] eqn:Hx'; [|done].
  apply relinked_payload in Hrel as (_ & _ & _ & _ & Ho & _ & _).
  destruct (forget_owner_spec s1 e x')
    as (s' & Hf & H1 & H2 & H3 & H4 & H5 & H6); [done| |].
  { intros mo Hmo. apply (Hown mo). congruence. }
  exists s'. split; [done|]. subst s1; simpl in *.
  rewrite H1, H2, H3, H4. repeat split; try done; try apply Hl'.
  destruct Hl' as [Hnd Hd].
  eapply dll_same_links; [|done]. intros b _ y Hy.
  destruct (decide (e = b)) as [->|Hne].
  - exists (set_owner None y). by rewrite lookup_alter_eq, Hy.
  - exists y. by rewrite lookup_alter_ne.
Qed.

(** X20. The two phases of a delete on a well-formed registry. Let [e]
    be an entry of a registry whose handler list holds every entry once,
    whose list entries are live, with valid capability pointers and a
    well-formed owner.
    (1) While a rehash is in progress MessageTagHandlerDel(e) returns
    with [e] marked unloaded (and disowned), every other object as it was,
    nothing freed, nothing unlinked: the list is the one of before.
    (2) Outside a rehash it returns with [e] out of the list, [e] freed,
    and the back-reference of [e]'s capability NULL.
    (3) The sweep unload_all_unused_mtag_handlers returns, and an entry of
    the list is freed by it exactly when it was marked unloaded at the
    sweep; what is not in the list is freed after it exactly when it was
    before. *)
Theorem Del_two_phase (s : State) (l1 l2 : list addr) (e : addr)
    (x : MessageTagHandler) :
  is_list (mtags s) (mtaghandlers s) (l1 ++ e :: l2) ->
  mtags s !! e = Some x ->
  (forall a, a ∈ l1 ++ e :: l2 -> (a ∉ freed s) /\ cap_ok s a) ->
  owner_ok s x ->
  (ircd_rehashing s = true ->
     exists s',
       MessageTagHandlerDel e s = Ret tt s' /\
       is_unloaded s' e = true /\
       mtags s' = alter (fun y => set_owner None (set_unloaded true y)) e (mtags s) /\
       freed s' = freed s /\ (e ∉ freed s') /\
       is_list (mtags s') (mtaghandlers s') (l1 ++ e :: l2)) /\
  (ircd_rehashing s = false ->
     exists s',
       MessageTagHandlerDel e s = Ret tt s' /\
       is_list (mtags s') (mtaghandlers s') (l1 ++ l2) /\ (e ∉ l1 ++ l2) /\
       e ∈ freed s' /\
       (forall c, clicap_handler x = Some c ->
                  cap_mtag_handler <$> clicaps s' !! c = Some None)) /\
  (exists s',
     unload_all_unused_mtag_handlers s = Ret tt s' /\
     (forall a, a ∈ l1 ++ e :: l2 -> (a ∈ freed s' <-> is_unloaded s a = true)) /\
     (forall a, a ∉ l1 ++ e :: l2 -> (a ∈ freed s' <-> a ∈ freed s))).
Proof.
  intros Hl Hx Hall Hown. split; [|split].
  - intros Hre.
    destruct (Del_rehashing s _ e x Hl Hx Hown Hre)
      as (s' & HD & Hm & Hh & Hf & Hc & Hr & Hl').
    exists s'. split; [done|]. split_and!; try done.
    + unfold is_unloaded. by rewrite Hm, lookup_alter_eq, Hx.
    + rewrite Hf. apply Hall. set_solver.
  - intros Hre.
    destruct (Del_not_rehashing s l1 e l2 x Hl Hx Hown) as (s' & HD & Hf & Hc & Hl');
      [apply Hall; set_solver | done |].
    exists s'. split; [done|]. split_and!; try done.
    + destruct Hl as [Hnd _]. apply NoDup_app in Hnd as (_ & H2 & H3).
      apply NoDup_cons in H3 as [H3 _]. intros [Hin|Hin]%elem_of_app; [|done].
      apply (H2 e Hin). by left.
    + rewrite Hf. set_solver.
    + intros c Hcx. rewrite Hc, Hcx. simpl. rewrite lookup_alter_eq.
      destruct (proj2 (Hall e ltac:(set_solver)) x c Hx Hcx) as [cc ->]. done.
  - destruct (sweep_spec s (l1 ++ e :: l2) Hl) as (s' & Hs & Hf & _).
    { intros a Ha. by apply Hall. }
    exists s'. split; [done|]. split.
    + intros a Ha. rewrite Hf. destruct (Hall a Ha) as [Hnf _]. tauto.
    + intros a Ha. rewrite Hf. tauto.
Qed.

Lemma s_two_run : two_handlers s_caps = Ret tt s_two.
Proof. vm_compute. reflexivity. Qed.

Lemma s_two_list : is_list (mtags s_two) (mtaghandlers s_two) [2; 1]%positive.
Proof.
  split.
  - apply NoDup_cons. split; [set_solver|apply NoDup_singleton].
  - split; [reflexivity|]. eexists. split; [vm_compute; reflexivity|].
    split; [reflexivity|]. split; [reflexivity|].
    exists x_typing. split; [vm_compute; reflexivity|]. by split.
Defined.

Lemma s_two_caps a : a ∈ [2; 1]%positive -> (a ∉ freed s_two) /\ cap_ok s_two a.
Proof.
  intros Ha.
  apply elem_of_cons in Ha as [->| Ha]; [|apply list_elem_of_singleton in Ha as ->].
  - split; [apply (bool_decide_unpack _); vm_compute; reflexivity|].
    intros y c Hy Hc. vm_compute in Hy. injection Hy as <-. discriminate Hc.
  - split; [apply (bool_decide_unpack _); vm_compute; reflexivity|].
    intros y c Hy Hc. vm_compute in Hy. injection Hy as <-. injection Hc as <-.
    by eexists.
Defined.

Lemma s_two_owner : owner_ok s_two x_typing.
Proof.
  intros mo [= <-]. eexists _, [2; 1]%positive. split; [vm_compute; reflexivity|].
  split.
  - apply NoDup_cons. split; [set_solver|apply NoDup_singleton].
  - split; [reflexivity|]. eexists. split; [vm_compute; reflexivity|].
    split; [reflexivity|]. split; [reflexivity|].
    eexists. split; [vm_compute; reflexivity|]. by split.
Defined.

Lemma Del_two_phase_witness :
  exists s',
    MessageTagHandlerDel 1%positive s_two = Ret tt s' /\
    1%positive ∈ freed s' /\
    is_list (mtags s') (mtaghandlers s') [2%positive] /\
    cap_mtag_handler <$> clicaps s' !! 1%positive = Some None.
Proof.
  destruct (Del_two_phase s_two [2%positive] [] 1%positive x_typing) as (_ & Hout & _).
  - exact s_two_list.
  - vm_compute. reflexivity.
  - exact s_two_caps.
  - exact s_two_owner.
  - destruct (Hout eq_refl) as (s' & HD & Hl & _ & Hf & Hc).
    exists s'. split; [exact HD|]. split; [exact Hf|]. split; [exact Hl|].
    apply Hc. reflexivity.
Defined.

Lemma Add_active_name_exists_witness :
  MessageTagHandlerAdd (Some 7%positive) (req_with "TYPING" 2%positive) s_two =
    Ret None
      (with_modules
         (alter (fun md => mkModule (objects md) MODERR_EXISTS) 7%positive (modules s_two))
         s_two).
Proof.
  apply (Add_active_name_exists s_two [2; 1]%positive (Some 7%positive)
           (req_with "TYPING" 2%positive) 1%positive x_typing).
  - exact s_two_list.
  - right. split; [reflexivity|]. by eexists.
  - set_solver.
  - vm_compute. reflexivity.
  - vm_compute. reflexivity.
  - reflexivity.
  - intros a y Ha Hy Hn.
    apply elem_of_cons in Ha as [->| Ha]; [|by apply list_elem_of_singleton in Ha].
    vm_compute in Hy. injection Hy as <-. vm_compute in Hn. discriminate Hn.
  - intros mo [= <-]. vm_compute. by eexists.
Defined.

(** C1. A registry holds "msgid", marked unloaded by a delete during a
    rehash, and "time". MessageTagHandlerAdd for "MsgId" returns the entry
    of before with the flag cleared, but links it into the list a second
    time: following [next] from the head gives 1, 2, 1, 2, 1, ... without
    end, so the entry is not in the list exactly once, and a search for a
    name that is not registered and the sweep never return. *)
Theorem Add_revive_links_entry_twice :
  exists s',
    MessageTagHandlerAdd None (req_nocap "MsgId") s_before_revive
      = Ret (Some 1%positive) s' /\
    is_unloaded s_before_revive 1%positive = true /\
    is_unloaded s' 1%positive = false /\
    handler_list 2 s_before_revive = [2; 1]%positive /\
    handler_list 3 s_before_revive = [2; 1]%positive /\
    handler_list 5 s' = [1; 2; 1; 2; 1]%positive /\
    MessageTagHandlerFind "account" s' = Hang /\
    unload_all_unused_mtag_handlers s' = Hang.
Proof.
  eexists. split; [vm_compute; reflexivity|]. vm_compute. repeat split.
Qed.

(** C2. The registry after an ordinary rehash in which module 7
    registered "typing" again: the entry was marked unloaded by the delete
    during the rehash and revived by the registration, so it is not marked
    unloaded any more, and its [next] points to itself. The sweep that
    ends the rehash has nothing to free, but does not return.
    MessageTagHandlerDel of the entry outside a rehash returns with the
    entry freed and the back-reference of its capability cleared, but the
    entry is not unlinked: the head of the handler list still points to
    it. *)
Theorem Del_revived_entry_stays_linked :
  rehash_revive s_caps = Ret tt s_revived /\
  is_unloaded s_revived 1%positive = false /\
  ircd_rehashing s_revived = false /\
  handler_list 3 s_revived = [1; 1; 1]%positive /\
  unload_all_unused_mtag_handlers s_revived = Hang /\
  exists s',
    MessageTagHandlerDel 1%positive s_revived = Ret tt s' /\
    1%positive ∈ freed s' /\
    cap_mtag_handler <$> clicaps s' !! 1%positive = Some None /\
    mtaghandlers s' = Some 1%positive.
Proof.
  split; [vm_compute; reflexivity|].
  do 4 (split; [vm_compute; reflexivity|]).
  eexists. split; [vm_compute; reflexivity|].
  split; [apply (bool_decide_unpack _); vm_compute; reflexivity|].
  repeat split; vm_compute; reflexivity.
Qed.

(** C5. A handler registered with capability 1 is deleted during a
    rehash, registered again under the same name with capability 2 and
    deleted after the rehash. The revival rebinds the handler to
    capability 2 and leaves the back-reference of capability 1 as it was;
    the commit clears the back-reference of capability 2 only: capability 1
    keeps a back-reference to the handler that is now freed. *)
Theorem rebound_capability_keeps_freed_handler :
  exists s',
    rebind s_caps = Ret tt s' /\
    1%positive ∈ freed s' /\
    cap_mtag_handler <$> clicaps s' !! 1%positive = Some (Some 1%positive) /\
    cap_mtag_handler <$> clicaps s' !! 2%positive = Some None.
Proof.
  eexists. split; [vm_compute; reflexivity|].
  split; [|split; vm_compute; reflexivity].
  apply (bool_decide_unpack _). vm_compute. reflexivity.
Qed.

End MtagFacts.

Module ChannelDbFacts.
Import ChannelDb ChannelDbSpec.

(** ** Integers and strings as bytes *)

Lemma Z_of_byte_of_Z z : Z_of_byte (byte_of_Z z) = z mod 256.
Proof.
  unfold Z_of_byte, byte_of_Z.
  assert (0 <= z mod 256 < 256) as Hr by (apply Z.mod_pos_bound; lia).
  destruct (Byte.of_N (Z.to_N (z mod 256))) as [b|] eqn:Hb.
  - apply Byte.to_of_N in Hb. rewrite Hb. lia.
  - apply Byte.of_N_None_iff in Hb. lia.
Qed.

Lemma Z_of_byte_range b : 0 <= Z_of_byte b < 256.
Proof. unfold Z_of_byte. pose proof (Byte.to_N_bounded b). lia. Qed.

Lemma length_le_bytes n v : length (le_bytes n v) = n.
Proof. revert v. induction n as [|n IH]; intros v; simpl; [done|]. by rewrite IH. Qed.

Lemma le_value_le_bytes n v : le_value (le_bytes n v) = v mod 256 ^ Z.of_nat n.
Proof.
  revert v. induction n as [|n IH]; intros v.
  - simpl. by rewrite Z.mod_1_r.
  - cbn [le_bytes le_value]. rewrite Z_of_byte_of_Z, IH.
    rewrite Nat2Z.inj_succ, Z.pow_succ_r by lia.
    rewrite Z.rem_mul_r by lia. lia.
Qed.

Lemma le_value_range bs : 0 <= le_value bs < 256 ^ Z.of_nat (length bs).
Proof.
  induction bs as [|b bs IH]; simpl length; cbn [le_value].
  - simpl. lia.
  - rewrite Nat2Z.inj_succ, Z.pow_succ_r by lia.
    pose proof (Z_of_byte_range b). lia.
Qed.

Lemma le_value_le16 v : 0 <= v < 2 ^ 16 -> le_value (le_bytes 2 v) = v.
Proof. intros. rewrite le_value_le_bytes. apply Z.mod_small. simpl. lia. Qed.

Lemma le_value_le32 v : 0 <= v < 2 ^ 32 -> le_value (le_bytes 4 v) = v.
Proof. intros. rewrite le_value_le_bytes. apply Z.mod_small. simpl. lia. Qed.

Lemma le_value_le64 v : 0 <= v < 2 ^ 64 -> le_value (le_bytes 8 v) = v.
Proof. intros. rewrite le_value_le_bytes. apply Z.mod_small. simpl. lia. Qed.

Lemma to_time_t_to_uint64 t :
  - 2 ^ 63 <= t < 2 ^ 63 -> to_time_t (to_uint64 t) = t.
Proof.
  intros Ht. unfold to_time_t, to_uint64.
  destruct (Z.ltb_spec (t mod 2 ^ 64) (2 ^ 63)) as [Hlt|Hge].
  - destruct (Z.lt_ge_cases t 0) as [Hneg|Hpos].
    + rewrite <- (Z.mod_add t 1) in Hlt by lia.
      rewrite Z.mod_small in Hlt by lia. lia.
    + apply Z.mod_small. lia.
  - destruct (Z.lt_ge_cases t 0) as [Hneg|Hpos].
    + rewrite <- (Z.mod_add t 1) by lia. rewrite Z.mod_small by lia. lia.
    + rewrite Z.mod_small in Hge by lia. lia.
Qed.

Lemma to_uint64_range t : 0 <= to_uint64 t < 2 ^ 64.
Proof. unfold to_uint64. apply Z.mod_pos_bound. lia. Qed.

Lemma length_list_byte_of_string s :
  length (list_byte_of_string s) = String.length s.
Proof.
  induction s as [|c s IH]; [done|].
  change (list_byte_of_string (String c s))
    with (byte_of_ascii c :: list_byte_of_string s).
  simpl. by rewrite IH.
Qed.

Section WithModes.
Context {Mode : Type} `{ChannelModes Mode}.
Implicit Types (w : World Mode) (c : Channel Mode).
(* The writer's specification, at the modes of this section. *)
Local Notation wspec := (wspec (Mode:=Mode)) (only parsing).

(** A read leaves all but the stream. *)
Lemma read_data_cut (d D : list byte) (k : nat) w :
  rstream w = take k (d ++ D) ->
  ((k < length d)%nat /\ read_data (length d) w = Ret None (with_rstream [] w)) \/
  ((length d <= k)%nat /\
   read_data (length d) w = Ret (Some d) (with_rstream (take (k - length d) D) w)).
Proof.
  intros Hs. unfold read_data. rewrite Hs.
  destruct (Nat.ltb_spec (length (take k (d ++ D))) (length d)) as [Hlt|Hge].
  - left. split; [|done]. rewrite length_take, length_app in Hlt. lia.
  - assert (length d <= k)%nat as Hk.
    { rewrite length_take in Hge. lia. }
    right. split; [done|]. rewrite take_app_ge by done.
    change firstn with (@take byte). change skipn with (@drop byte).
    by rewrite take_app_length, drop_app_length.
Qed.

Lemma length_ser_str_Some s :
  strlen s <= 10000 ->
  ser_str (Some s) = le_bytes 2 (strlen s) ++ list_byte_of_string s.
Proof.
  intros Hs. unfold ser_str, to_uint16, strlen in *.
  rewrite Z.mod_small by lia.
  destruct (String.length s) as [|n] eqn:Hn.
  - simpl. destruct s; [done|discriminate].
  - replace ((0 <? Z.of_nat (S n)) && (Z.of_nat (S n) <? 65535)) with true.
    2:{ symmetry. apply andb_true_iff. split; apply Z.ltb_lt; lia. }
    rewrite Nat2Z.id, take_ge; [done|]. rewrite length_list_byte_of_string. lia.
Qed.

Lemma read_str_cut (x : cstr) (D : list byte) (k : nat) w :
  cstr_ok x ->
  rstream w = take k (ser_str x ++ D) ->
  ((k < length (ser_str x))%nat /\ read_str w = Ret None (with_rstream [] w)) \/
  ((length (ser_str x) <= k)%nat /\
   read_str w = Ret (Some x) (with_rstream (take (k - length (ser_str x)) D) w)).
Proof.
  intros Hx Hs. unfold read_str.
  destruct x as [s|].
  - simpl in Hx. rewrite length_ser_str_Some in * by done.
    assert (0 <= strlen s < 2 ^ 16) as Hrange by (unfold strlen in *; lia).
    rewrite <- app_assoc in Hs. rewrite length_app, length_le_bytes.
    destruct (read_data_cut (le_bytes 2 (strlen s)) _ k w Hs) as [[Hk Hr]|[Hk Hr]];
      rewrite length_le_bytes in Hk, Hr.
    + left. split; [lia|]. by mstep ltac:(exact Hr).
    + assert (forall (k1 : M (World Mode) (option cstr)) r,
                (if le_value (le_bytes 2 (strlen s)) =? 65535 then ret (Some None)
                 else if le_value (le_bytes 2 (strlen s)) =? 0
                      then ret (Some (Some EmptyString))
                      else if 10000 <? le_value (le_bytes 2 (strlen s))
                           then ret None else k1) r
                = (if strlen s =? 0 then ret (Some (Some EmptyString)) else k1) r) as Hif.
      { intros k1 r. rewrite le_value_le16 by done.
        destruct (Z.eqb_spec (strlen s) 65535) as [He|_]; [lia|].
        destruct (Z.eqb_spec (strlen s) 0) as [He|Hne]; [done|].
        destruct (Z.ltb_spec 10000 (strlen s)) as [?|_]; [lia|]. done. }
      destruct (Z.eqb_spec (strlen s) 0) as [He|Hne].
      * right. assert (s = EmptyString) as ->.
        { destruct s; [done|]. unfold strlen in He. simpl in He. lia. }
        split; [simpl; lia|]. mstep ltac:(exact Hr). rewrite Hif. simpl.
        unfold ret. do 2 f_equal.
      * assert (Z.to_nat (le_value (le_bytes 2 (strlen s)))
                = length (list_byte_of_string s)) as Hlen.
        { rewrite le_value_le16 by done.
          rewrite length_list_byte_of_string. unfold strlen. lia. }
        set (w' := with_rstream (take (k - 2) (list_byte_of_string s ++ D)) w) in *.
        destruct (read_data_cut (list_byte_of_string s) D (k - 2) w') as [[Hk2 Hr2]|[Hk2 Hr2]];
          [done| |].
        -- left. split; [lia|]. mstep ltac:(exact Hr). rewrite Hif.
           destruct (Z.eqb_spec (strlen s) 0) as [?|_]; [lia|].
           rewrite Hlen. by mstep ltac:(exact Hr2).
        -- right. split; [lia|]. mstep ltac:(exact Hr). rewrite Hif.
           destruct (Z.eqb_spec (strlen s) 0) as [?|_]; [lia|].
           rewrite Hlen. mstep ltac:(exact Hr2).
           rewrite string_of_list_byte_of_string. subst w'.
           replace (k - (2 + length (list_byte_of_string s)))%nat
             with (k - 2 - length (list_byte_of_string s))%nat by lia.
           reflexivity.
  - change (ser_str None) with (le_bytes 2 65535) in *.
    destruct (read_data_cut (le_bytes 2 65535) _ k w Hs) as [[Hk Hr]|[Hk Hr]].
    + left. split; [done|]. by mstep ltac:(exact Hr).
    + right. split; [done|]. mstep ltac:(exact Hr). done.
Qed.

Lemma same_env_refl w : same_env w w.
Proof. by repeat split. Qed.

Lemma World_eq w w' :
  files w = files w' -> faults w = faults w' -> syscalls w = syscalls w' ->
  rstream w = rstream w' -> channels w = channels w' -> logs w = logs w' ->
  database w = database w' -> channeldb_loaded w = channeldb_loaded w' ->
  persistent w = persistent w' -> timers w = timers w' -> w = w'.
Proof. destruct w, w'; simpl. by intros -> -> -> -> -> -> -> -> -> ->. Qed.

Lemma with_rstream_same w : with_rstream (rstream w) w = w.
Proof. by destruct w. Qed.

Lemma list_alter_twice {A : Type} (f g : A -> A) (i : nat) (l : list A) :
  alter f i (alter g i l) = alter (fun x => f (g x)) i l.
Proof.
  revert i. induction l as [|x l IH]; intros [|i]; try done.
  change (alter f (S i) (alter g (S i) (x :: l)))
    with (x :: alter f i (alter g i l)).
  by rewrite IH.
Qed.

Lemma R_SAFE_listmode_fail {A : Type} (x : M (World Mode) (option A)) k w w1 :
  x w = Ret None w1 ->
  R_SAFE_listmode x k w = Ret false (with_logs (logs w1 ++ [warn_read_error]) w1).
Proof. intros Hx. unfold R_SAFE_listmode. by mstep ltac:(exact Hx). Qed.

Lemma R_SAFE_listmode_ok {A : Type} (x : M (World Mode) (option A)) k w a w1 :
  x w = Ret (Some a) w1 -> R_SAFE_listmode x k w = k a w1.
Proof. intros Hx. unfold R_SAFE_listmode. by mstep ltac:(exact Hx). Qed.

Lemma read_listmode_entries_cut (F : BanField) (ch : nat) : forall (l : list Ban) w k D,
  Forall ban_ok l ->
  rstream w = take k (ser_bans l ++ D) ->
  ((k < length (ser_bans l))%nat /\
   exists w', read_listmode_entries (length l) ch (bf_get F) (bf_set F) w = Ret false w' /\
              listmode_stopped ch w w') \/
  ((length (ser_bans l) <= k)%nat /\
   read_listmode_entries (length l) ch (bf_get F) (bf_set F) w =
     Ret true (with_channels (alter (push_bans F l) ch (channels w))
                 (with_rstream (take (k - length (ser_bans l)) D) w))).
Proof.
  induction l as [|e l IH]; intros w k D Hok Hs.
  - right. simpl. split; [lia|]. unfold ret. f_equal.
    rewrite Nat.sub_0_r. simpl in Hs. rewrite <- Hs, with_rstream_same.
    rewrite list_alter_id; [by destruct w|].
    intros c. unfold push_bans. simpl. apply bf_set_get.
  - apply Forall_cons in Hok as [(Hb & Hw & Ht) Hok].
    change (ser_bans (e :: l)) with (ser_ban e ++ ser_bans l) in *.
    unfold ser_ban in *. rewrite <- !app_assoc in Hs.
    rewrite !length_app, length_le_bytes.
    cbn [length read_listmode_entries].
    destruct (read_str_cut _ _ _ _ Hb Hs) as [[Hk1 Hr1]|[Hk1 Hr1]].
    { left. split; [lia|]. eexists. split; [by apply R_SAFE_listmode_fail|].
      split; [by repeat split|]. repeat split.
      exists (fun c => c). simpl. symmetry. by apply list_alter_id. }
    rewrite (R_SAFE_listmode_ok _ _ _ _ _ Hr1).
    match type of Hr1 with _ = Ret _ ?st => set (w1 := st) in * end.
    destruct (read_str_cut (who e) _ (k - length (ser_str (banstr e))) w1 Hw eq_refl)
      as [[Hk2 Hr2]|[Hk2 Hr2]].
    { left. split; [lia|]. eexists. split; [by apply R_SAFE_listmode_fail|].
      split; [by repeat split|]. repeat split.
      exists (fun c => c). simpl. symmetry. by apply list_alter_id. }
    rewrite (R_SAFE_listmode_ok _ _ _ _ _ Hr2).
    match type of Hr2 with _ = Ret _ ?st => set (w2 := st) in * end.
    pose proof (read_data_cut (le_bytes 8 (to_uint64 (when e))) (ser_bans l ++ D)
                  (k - length (ser_str (banstr e)) - length (ser_str (who e))) w2 eq_refl)
      as Hr3.
    rewrite length_le_bytes in Hr3. destruct Hr3 as [[Hk3 Hr3]|[Hk3 Hr3]].
    { left. split; [lia|]. eexists. split; [by apply R_SAFE_listmode_fail|].
      split; [by repeat split|]. repeat split.
      exists (fun c => c). simpl. symmetry. by apply list_alter_id. }
    rewrite (R_SAFE_listmode_ok _ _ _ _ _ Hr3).
    rewrite le_value_le64 by apply to_uint64_range.
    rewrite to_time_t_to_uint64 by done.
    replace (mkBan (banstr e) (who e) (when e)) with e by (by destruct e).
    mstep ltac:(reflexivity).
    match goal with |- context [read_listmode_entries _ _ _ _ ?st] => set (w3 := st) end.
    destruct (IH w3 (k - length (ser_str (banstr e)) - length (ser_str (who e)) - 8)%nat
                D Hok eq_refl) as [[Hk4 (w' & Hr4 & Hst)]|[Hk4 Hr4]].
    + left. split; [lia|]. exists w'. split; [done|].
      destruct Hst as (Henv & Hrs & Hlg & f & Hch).
      split; [exact Henv|]. split; [done|]. split; [done|].
      eexists. rewrite Hch. subst w3. simpl. apply list_alter_twice.
    + right. split; [lia|]. rewrite Hr4. f_equal. subst w3 w2 w1. simpl.
      unfold with_channels, with_rstream; simpl. f_equal.
      * f_equal. lia.
      * rewrite list_alter_twice. apply list_alter_ext; [|done].
        intros c _. unfold push_bans. rewrite bf_get_set, bf_set_set.
        simpl. by rewrite <- app_assoc.
Qed.

Lemma read_listmode_cut (F : BanField) (ch : nat) (l : list Ban) w k D :
  listmode_ok l ->
  rstream w = take k (ser_listmode l ++ D) ->
  ((k < length (ser_listmode l))%nat /\
   exists w', read_listmode ch (bf_get F) (bf_set F) w = Ret false w' /\
              listmode_stopped ch w w') \/
  ((length (ser_listmode l) <= k)%nat /\
   read_listmode ch (bf_get F) (bf_set F) w =
     Ret true (with_channels (alter (push_bans F l) ch (channels w))
                 (with_rstream (take (k - length (ser_listmode l)) D) w))).
Proof.
  intros [Hok Hlen] Hs. unfold ser_listmode in *. rewrite <- app_assoc in Hs.
  rewrite length_app, length_le_bytes. unfold read_listmode.
  pose proof (read_data_cut _ _ _ _ Hs) as Hr. rewrite length_le_bytes in Hr.
  destruct Hr as [[Hk Hr]|[Hk Hr]].
  { left. split; [lia|]. eexists. split; [by apply R_SAFE_listmode_fail|].
    split; [by repeat split|]. repeat split.
    exists (fun c => c). simpl. symmetry. by apply list_alter_id. }
  rewrite (R_SAFE_listmode_ok _ _ _ _ _ Hr).
  assert (Z.to_nat (le_value (le_bytes 4 (to_uint32 (Z.of_nat (length l))))) = length l)
    as ->.
  { unfold to_uint32. rewrite Z.mod_small by lia. rewrite le_value_le32 by lia. lia. }
  match goal with |- context [read_listmode_entries _ _ _ _ ?st] => set (w1 := st) end.
  destruct (read_listmode_entries_cut F ch l w1 (k - 4) D Hok eq_refl)
    as [[Hk2 (w' & Hr2 & Hst)]|[Hk2 Hr2]].
  - left. split; [lia|]. exists w'. split; [done|].
    destruct Hst as (Henv & Hrs & Hlg & f & Hch). split; [exact Henv|].
    split; [done|]. split; [done|]. by exists f.
  - right. split; [lia|]. rewrite Hr2. subst w1.
    unfold with_channels, with_rstream; simpl. do 3 f_equal. lia.
Qed.

Lemma fclose_eq w : fclose w = Ret (head_ok w) (closed w).
Proof.
  destruct w as [fi fa sy rs ch lg db ld pe ti].
  unfold fclose, closed, head_ok, bind, next_result; simpl. by destruct fa.
Qed.

Lemma R_SAFE_fail {A : Type} added (x : M (World Mode) (option A)) k w w1 :
  x w = Ret None w1 ->
  R_SAFE added x k w =
    Ret (turn_return0, added) (closed (with_logs (logs w1 ++ [warn_read_error]) w1)).
Proof.
  intros Hx. unfold R_SAFE. mstep ltac:(exact Hx). mstep ltac:(reflexivity).
  by mstep ltac:(apply fclose_eq).
Qed.

Lemma R_SAFE_ok {A : Type} added (x : M (World Mode) (option A)) k w a w1 :
  x w = Ret (Some a) w1 -> R_SAFE added x k w = k a w1.
Proof. intros Hx. unfold R_SAFE. by mstep ltac:(exact Hx). Qed.

Lemma nonzero_false (x : M (World Mode) bool) w w1 :
  x w = Ret false w1 -> nonzero x w = Ret None w1.
Proof. intros Hx. unfold nonzero. by mstep ltac:(exact Hx). Qed.

Lemma nonzero_true (x : M (World Mode) bool) w w1 :
  x w = Ret true w1 -> nonzero x w = Ret (Some tt) w1.
Proof. intros Hx. unfold nonzero. by mstep ltac:(exact Hx). Qed.

Lemma set_banlist_get c : set_banlist (banlist c) c = c.
Proof. by destruct c. Qed.

Lemma set_exlist_get c : set_exlist (exlist c) c = c.
Proof. by destruct c. Qed.

Lemma set_invexlist_get c : set_invexlist (invexlist c) c = c.
Proof. by destruct c. Qed.

Lemma magic_start_value :
  le_value (le_bytes 4 (to_uint32 MAGIC_CHANNEL_START)) = MAGIC_CHANNEL_START.
Proof. reflexivity. Qed.

Lemma get_channel_CREATE_new nm w :
  find_channel nm (channels w) = None ->
  get_channel_CREATE (Some nm) w = Ret O (with_channels (new_channel nm :: channels w) w).
Proof.
  intros Hf. unfold get_channel_CREATE. mstep ltac:(reflexivity). by rewrite Hf.
Qed.

Lemma set_channel_mode_eq ch m p w :
  (length (strtoken (snprintf 512 p) "") <= 62)%nat ->
  set_channel_mode ch (Some m) (Some p) w =
    Ret tt (with_channels
              (alter (fun c => set_mode (do_mode (mode c)
                                           (m :: strtoken (snprintf 512 p) "")) c)
                 ch (channels w)) w).
Proof.
  intros Hl. unfold set_channel_mode.
  destruct (Nat.ltb_spec 62 (length (strtoken (snprintf 512 p) ""))); [lia|done].
Qed.

Lemma stopped_in_listmode w w1 w' (c0 : Channel Mode) :
  listmode_stopped 0 w1 w' ->
  files w1 = files w -> database w1 = database w ->
  channeldb_loaded w1 = channeldb_loaded w -> persistent w1 = persistent w ->
  timers w1 = timers w -> logs w1 = logs w -> syscalls w1 = syscalls w ->
  channels w1 = c0 :: channels w ->
  entry_stopped w (closed (with_logs (logs w' ++ [warn_read_error]) w')).
Proof.
  intros ((E1 & E2 & E3 & E4 & E5 & E6 & E7) & Hrs & Hlg & f & Hch) F1 F2 F3 F4 F5 F6 F7 F8.
  unfold entry_stopped; simpl. split_and!; try congruence.
  - right. rewrite Hlg, F6, <- app_assoc. done.
  - eexists. rewrite E3, F7. reflexivity.
  - exists [f c0]. rewrite Hch, F8. split; [done|simpl; lia].
Qed.

Ltac stop_new :=
  left; split; [lia|]; eexists; split; [by apply R_SAFE_fail|];
  unfold entry_stopped; simpl; split_and!; try done;
  [ left; reflexivity
  | eexists; reflexivity
  | first [ exists []; split; [reflexivity|simpl; lia]
          | eexists [_]; split; [reflexivity|simpl; lia] ] ].

Ltac rd_str wi Hok Hk Hr :=
  destruct (read_str_cut _ _ _ wi Hok eq_refl) as [[Hk Hr]|[Hk Hr]]; [stop_new|];
  rewrite (R_SAFE_ok _ _ _ _ _ _ Hr).

Ltac rd_data wi d Hk Hr :=
  pose proof (read_data_cut d _ _ wi eq_refl) as Hr;
  rewrite length_le_bytes in Hr;
  destruct Hr as [[Hk Hr]|[Hk Hr]]; [stop_new|];
  rewrite (R_SAFE_ok _ _ _ _ _ _ Hr).

Ltac name_world wi Hr :=
  match type of Hr with _ = Ret _ ?st => set (wi := st) in * end.

Ltac rd_list wi F l Hok Hk Hr :=
  destruct (read_listmode_cut F 0%nat l wi _ _ Hok eq_refl)
    as [[Hk (?w' & Hr & ?Hst)]|[Hk Hr]];
  [ left; split; [lia|]; eexists; split;
    [ apply R_SAFE_fail; apply nonzero_false; exact Hr
    | by eapply stopped_in_listmode ]
  | rewrite (R_SAFE_ok _ _ _ _ _ _ (nonzero_true _ _ _ Hr)) ].

Lemma read_channel_entry_cut (e : Z) (c : Channel Mode) w (k : nat) (D : list byte)
    (added : Z) :
  channel_ok c -> 0 <= e < 2 ^ 32 ->
  find_channel (chname c) (channels w) = None ->
  rstream w = take k (ser_channel_with e c ++ D) ->
  ((k < length (ser_channel_with e c))%nat /\
   exists w', read_channel_entry added w = Ret (turn_return0, added) w' /\
              entry_stopped w w') \/
  ((length (ser_channel_with e c) <= k)%nat /\
   read_channel_entry added w =
     Ret (if e =? MAGIC_CHANNEL_END then turn_next else turn_break, added + 1)
       (with_logs (if e =? MAGIC_CHANNEL_END then logs w
                   else logs w ++ [error_magic_end e])
          (with_channels (restored c :: channels w)
             (with_rstream (take (k - length (ser_channel_with e c)) D) w)))).
Proof.
  intros (Hnm & Hct & Htp & Htn & Htt & (Hmb & Hpb & Hparv & Hmode) & Hml & Hbl & Hel & Hil)
         He Hfresh Hs.
  unfold ser_channel_with in *. rewrite <- !app_assoc in Hs.
  rewrite !length_app, !length_le_bytes. unfold read_channel_entry.
  (* start magic *)
  pose proof (read_data_cut _ _ _ _ Hs) as Hr. rewrite length_le_bytes in Hr.
  destruct Hr as [[Hk Hr]|[Hk Hr]]; [stop_new|].
  rewrite (R_SAFE_ok _ _ _ _ _ _ Hr). rewrite magic_start_value, Z.eqb_refl.
  cbv beta iota delta [negb]. name_world w1 Hr.
  rd_str w1 Hnm Hk1 Hr1. name_world w2 Hr1.
  rd_data w2 (le_bytes 8 (to_uint64 (creationtime c))) Hk2 Hr2. name_world w3 Hr2.
  rd_str w3 Htp Hk3 Hr3. name_world w4 Hr3.
  rd_str w4 Htn Hk4 Hr4. name_world w5 Hr4.
  rd_data w5 (le_bytes 8 (to_uint64 (topic_time c))) Hk5 Hr5. name_world w6 Hr5.
  rd_str w6 Hmb Hk6 Hr6. name_world w7 Hr6.
  rd_str w7 Hpb Hk7 Hr7. name_world w8 Hr7.
  rd_str w8 Hml Hk8 Hr8. name_world w9 Hr8.
  (* the channel is made *)
  mstep ltac:(by apply get_channel_CREATE_new).
  do 5 mstep ltac:(reflexivity).
  mstep ltac:(apply set_channel_mode_eq; unfold mode_parv in Hparv; simpl in Hparv; lia).
  rewrite !le_value_le64 by apply to_uint64_range.
  rewrite !to_time_t_to_uint64 by done.
  match goal with |- context [R_SAFE _ _ _ ?st] => set (w10 := st) end.
  assert (channels w10 =
          mkChannel (chname c) (creationtime c) (topic c) (topic_nick c) (topic_time c)
            (mode c) (mode_lock c) [] [] [] :: channels w) as Hch10.
  { subst w10. simpl. unfold new_channel, set_mode; simpl.
    fold (mode_parv (mode c)). by rewrite Hmode. }
  rd_list w10 (@banlist_field Mode) (banlist c) Hbl Hk10 Hr10. name_world w11 Hr10.
  assert (channels w11 =
          mkChannel (chname c) (creationtime c) (topic c) (topic_nick c) (topic_time c)
            (mode c) (mode_lock c) (rev (banlist c)) [] [] :: channels w) as Hch11.
  { change (channels w11)
      with (alter (push_bans banlist_field (banlist c)) 0%nat (channels w10)).
    rewrite Hch10. simpl. unfold push_bans; simpl. by rewrite app_nil_r. }
  rd_list w11 (@exlist_field Mode) (exlist c) Hel Hk11 Hr11. name_world w12 Hr11.
  assert (channels w12 =
          mkChannel (chname c) (creationtime c) (topic c) (topic_nick c) (topic_time c)
            (mode c) (mode_lock c) (rev (banlist c)) (rev (exlist c)) [] :: channels w)
    as Hch12.
  { change (channels w12)
      with (alter (push_bans exlist_field (exlist c)) 0%nat (channels w11)).
    rewrite Hch11. simpl. unfold push_bans; simpl. by rewrite app_nil_r. }
  rd_list w12 (@invexlist_field Mode) (invexlist c) Hil Hk12 Hr12. name_world w13 Hr12.
  assert (channels w13 = restored c :: channels w) as Hch13.
  { change (channels w13)
      with (alter (push_bans invexlist_field (invexlist c)) 0%nat (channels w12)).
    rewrite Hch12. simpl. unfold push_bans; simpl. by rewrite app_nil_r. }
  (* end magic *)
  pose proof (read_data_cut (le_bytes 4 (to_uint32 e)) _ _ w13 eq_refl) as Hr13.
  rewrite length_le_bytes in Hr13.
  destruct Hr13 as [[Hk13 Hr13]|[Hk13 Hr13]].
  { left. split; [lia|]. eexists. split; [by apply R_SAFE_fail|].
    unfold entry_stopped; simpl. split_and!; try done.
    - left. reflexivity.
    - eexists; reflexivity.
    - exists [restored c]. split; [|simpl; lia]. apply Hch13. }
  right. split; [lia|].
  rewrite (R_SAFE_ok _ _ _ _ _ _ Hr13).
  assert (le_value (le_bytes 4 (to_uint32 e)) = e) as ->.
  { unfold to_uint32. rewrite Z.mod_small by lia. by apply le_value_le32. }
  destruct (e =? MAGIC_CHANNEL_END); cbv beta iota delta [negb].
  - unfold ret. f_equal. apply World_eq; try reflexivity.
    + cbn [rstream with_rstream with_channels with_logs]. f_equal. lia.
    + exact Hch13.
  - mstep ltac:(reflexivity). unfold ret. f_equal. apply World_eq; try reflexivity.
    + cbn [rstream with_rstream with_channels with_logs]. f_equal. lia.
    + exact Hch13.
Qed.

Lemma frame_refl tmp w : frame tmp w w.
Proof. by repeat split. Qed.

Lemma frame_trans tmp w1 w2 w3 : frame tmp w1 w2 -> frame tmp w2 w3 -> frame tmp w1 w3.
Proof.
  intros (A1 & A2 & A3 & A4 & A5 & A6 & A7) (B1 & B2 & B3 & B4 & B5 & B6 & B7).
  split_and!; try congruence. intros p Hp. rewrite B7, A7; done.
Qed.

Lemma alter_app_twice (tmp : string) (d1 d2 : list byte) (m : gmap string (list byte)) :
  alter (fun old => old ++ d2) tmp (alter (fun old => old ++ d1) tmp m)
  = alter (fun old => old ++ (d1 ++ d2)) tmp m.
Proof.
  apply map_eq. intros p. destruct (decide (tmp = p)) as [->|Hne].
  - rewrite !lookup_alter_eq. destruct (m !! p); simpl; [|done].
    by rewrite app_assoc.
  - by rewrite !lookup_alter_ne.
Qed.

Lemma alter_app_nil (tmp : string) (m : gmap string (list byte)) :
  alter (fun old => old ++ []) tmp m = m.
Proof. apply alter_id. intros x _. apply app_nil_r. Qed.

Lemma wspec_write_data tmp data : wspec tmp data false (write_data tmp data).
Proof.
  intros w. unfold write_data, bind, next_result, called, modify, ret.
  assert (forall w0 : World Mode,
            frame tmp w0 (with_files (alter (fun old => old ++ data) tmp (files w0)) w0))
    as Hframe.
  { intros w0. split_and!; try done. intros p Hp. simpl. by rewrite lookup_alter_ne. }
  destruct (faults w) as [|[|e] rest] eqn:Hf; simpl.
  - eexists true, _, [sys_fwrite tmp data true]. split; [reflexivity|].
    split; [done|]. split; [apply (Hframe w)|]. split; [|split].
    + intros _. split_and!; try done. apply Forall_singleton. by eexists.
    + done.
    + intros _. split; [done|]. exact Hf.
  - eexists true, _, [sys_fwrite tmp data true]. split; [reflexivity|].
    split; [done|]. split; [apply (Hframe w)|]. split; [|split].
    + intros _. split_and!; try done. apply Forall_singleton. by eexists.
    + done.
    + done.
  - eexists false, _, [sys_fwrite tmp data false]. split; [reflexivity|].
    split; [done|]. split; [by repeat split|]. split; [|split].
    + done.
    + intros _. exists [], data, true. split_and!; try done. simpl.
      by rewrite app_nil_r.
    + done.
Qed.

(** Sequencing: [x] then, if it gave 1, [k]. *)
Lemma wspec_then tmp d1 d2 closing (x k : M (World Mode) bool) :
  wspec tmp d1 closing x -> wspec tmp d2 closing k ->
  wspec tmp (d1 ++ d2) closing (ok <- x ;; if negb ok then ret false else k)%M.
Proof.
  intros Hx Hk w.
  destruct (Hx w) as (b1 & w1 & tr1 & Hr1 & Hs1 & Hf1 & Ht1 & Hn1 & Hz1).
  unfold bind. rewrite Hr1. destruct b1; simpl.
  - destruct (Hk w1) as (b2 & w2 & tr2 & Hr2 & Hs2 & Hf2 & Ht2 & Hn2 & Hz2).
    destruct (Ht1 eq_refl) as (Hok1 & Hlg1 & Hfi1).
    exists b2, w2, (tr1 ++ tr2). split; [done|].
    split; [by rewrite Hs2, Hs1, app_assoc|].
    split; [by eapply frame_trans|]. split; [|split].
    + intros ->. destruct (Ht2 eq_refl) as (Hok2 & Hlg2 & Hfi2).
      split_and!; [by apply Forall_app|congruence|].
      by rewrite Hfi2, Hfi1, alter_app_twice.
    + intros ->. destruct (Hn2 eq_refl) as (tr0 & d & r & Hok0 & -> & Hlg0).
      exists (tr1 ++ tr0), d, r. split_and!.
      * by apply Forall_app.
      * by rewrite app_assoc.
      * by rewrite Hlg0, Hlg1.
    + intros Hfa. destruct (Hz1 Hfa) as [_ Hfa1]. by apply Hz2.
  - exists false, w1, tr1. split; [done|]. split; [done|]. split; [done|].
    split; [done|]. split; [|].
    + intros _. by apply Hn1.
    + intros Hfa. by destruct (Hz1 Hfa).
Qed.

Lemma wspec_ret_true tmp closing : wspec tmp [] closing (ret true).
Proof.
  intros w. exists true, w, []. split; [done|]. split; [by rewrite app_nil_r|].
  split; [apply frame_refl|]. split; [|split]; try done.
  intros _. split_and!; try done. by rewrite alter_app_nil.
Qed.

Lemma wspec_ext tmp d d' closing (f f' : M (World Mode) bool) :
  d = d' -> (forall w, f w = f' w) -> wspec tmp d closing f -> wspec tmp d' closing f'.
Proof. intros -> Hf Hs w. rewrite <- Hf. apply Hs. Qed.

Lemma wspec_write_str tmp x : wspec tmp (ser_str x) false (write_str tmp x).
Proof.
  unfold write_str, ser_str. destruct x as [s|].
  - apply wspec_then; [apply wspec_write_data|].
    destruct ((0 <? to_uint16 (strlen s)) && (to_uint16 (strlen s) <? 65535));
      [apply wspec_write_data|apply wspec_ret_true].
  - apply (wspec_ext tmp (le_bytes 2 65535 ++ []) _ false
             (ok <- write_data tmp (le_bytes 2 65535) ;;
              if negb ok then ret false else ret true)%M);
      [apply app_nil_r|done|].
    apply wspec_then; [apply wspec_write_data|apply wspec_ret_true].
Qed.

(** The macro: [x] without closing, then [k] with. *)
Lemma wspec_W_SAFE tmp d1 d2 (x k : M (World Mode) bool) :
  wspec tmp d1 false x -> wspec tmp d2 true k ->
  wspec tmp (d1 ++ d2) true (W_SAFE tmp x k).
Proof.
  intros Hx Hk w.
  destruct (Hx w) as (b1 & w1 & tr1 & Hr1 & Hs1 & Hf1 & Ht1 & Hn1 & Hz1).
  unfold W_SAFE, bind. rewrite Hr1. destruct b1; simpl.
  - destruct (Hk w1) as (b2 & w2 & tr2 & Hr2 & Hs2 & Hf2 & Ht2 & Hn2 & Hz2).
    destruct (Ht1 eq_refl) as (Hok1 & Hlg1 & Hfi1).
    exists b2, w2, (tr1 ++ tr2). split; [done|].
    split; [by rewrite Hs2, Hs1, app_assoc|].
    split; [by eapply frame_trans|]. split; [|split].
    + intros ->. destruct (Ht2 eq_refl) as (Hok2 & Hlg2 & Hfi2).
      split_and!; [by apply Forall_app|congruence|].
      by rewrite Hfi2, Hfi1, alter_app_twice.
    + intros ->. destruct (Hn2 eq_refl) as (tr0 & d & r & Hok0 & -> & Hlg0).
      exists (tr1 ++ tr0), d, r. split_and!.
      * by apply Forall_app.
      * by rewrite app_assoc.
      * by rewrite Hlg0, Hlg1.
    + intros Hfa. destruct (Hz1 Hfa) as [_ Hfa1]. by apply Hz2.
  - destruct (Hn1 eq_refl) as (tr0 & d & r & Hok0 & -> & Hlg0).
    rewrite app_nil_r in Hlg0.
    rewrite (fclose_eq (with_logs (logs w1 ++ [warn_write_error tmp]) w1)).
    eexists false, _, (tr0 ++ [sys_fwrite tmp d false; sys_fclose _]).
    split; [reflexivity|]. split.
    { simpl. rewrite Hs1. rewrite <- !app_assoc. reflexivity. }
    split.
    { destruct Hf1 as (A1 & A2 & A3 & A4 & A5 & A6 & A7). by split_and!. }
    split; [done|]. split.
    + intros _. eexists tr0, d, _. split_and!; [done|reflexivity|].
      simpl. by rewrite Hlg0.
    + intros Hfa. by destruct (Hz1 Hfa).
Qed.

Lemma wspec_write_listmode_entries tmp l :
  wspec tmp (ser_bans l) true (write_listmode_entries tmp tmp l).
Proof.
  induction l as [|e l IH]; [apply wspec_ret_true|].
  cbn [write_listmode_entries].
  change (ser_bans (e :: l)) with (ser_ban e ++ ser_bans l).
  unfold ser_ban. rewrite <- !app_assoc.
  apply wspec_W_SAFE; [apply wspec_write_str|].
  apply wspec_W_SAFE; [apply wspec_write_str|].
  apply wspec_W_SAFE; [apply wspec_write_data|]. done.
Qed.

Lemma wspec_write_listmode tmp l :
  wspec tmp (ser_listmode l) true (write_listmode tmp tmp l).
Proof.
  unfold write_listmode, ser_listmode.
  apply wspec_W_SAFE; [apply wspec_write_data|apply wspec_write_listmode_entries].
Qed.

Lemma wspec_write_channel_entry tmp c :
  wspec tmp (ser_channel c) true (write_channel_entry tmp tmp c).
Proof.
  unfold write_channel_entry, ser_channel, ser_channel_with.
  destruct (channel_modes (mode c)) as [mb pb]. simpl fst. simpl snd.
  repeat (apply wspec_W_SAFE; [first [apply wspec_write_str|apply wspec_write_data]|]).
  apply wspec_then; [apply wspec_write_listmode|].
  apply wspec_then; [apply wspec_write_listmode|].
  apply wspec_then; [apply wspec_write_listmode|].
  apply (wspec_ext tmp (le_bytes 4 (to_uint32 MAGIC_CHANNEL_END) ++ []) _ true
           (W_SAFE tmp (write_int32 tmp MAGIC_CHANNEL_END) (ret true)));
    [apply app_nil_r|done|].
  apply wspec_W_SAFE; [apply wspec_write_data|apply wspec_ret_true].
Qed.

Lemma wspec_write_channel_entries tmp l :
  wspec tmp (ser_channels l) true (write_channel_entries tmp tmp l).
Proof.
  induction l as [|c l IH]; [apply wspec_ret_true|].
  cbn [write_channel_entries].
  unfold ser_channels, persistent_channels in *. rewrite filter_cons.
  destruct (persistent_channel c) eqn:HP.
  - rewrite decide_True by done. cbn [map concat].
    apply wspec_then; [apply wspec_write_channel_entry|apply IH].
  - rewrite decide_False by done. apply IH.
Qed.

Lemma wspec_write_db tmp l :
  wspec tmp (ser_db l) true
    (W_SAFE tmp (write_data tmp (le_bytes 4 (to_uint32 CHANNELDB_VERSION)))
       (W_SAFE tmp
          (write_int64 tmp
             (Z.of_nat (length (filter (fun c => persistent_channel c = true) l))))
          (write_channel_entries tmp tmp l))).
Proof.
  unfold ser_db.
  apply wspec_W_SAFE; [apply wspec_write_data|].
  apply wspec_W_SAFE; [apply wspec_write_data|apply wspec_write_channel_entries].
Qed.

Lemma string_length_append (a b : string) :
  String.length (a +:+ b) = (String.length a + String.length b)%nat.
Proof. induction a as [|c a IH]; simpl; [done|]. by rewrite IH. Qed.

Lemma substring_all (s : string) : forall n,
  (String.length s <= n)%nat -> String.substring 0 n s = s.
Proof.
  induction s as [|c s IH]; intros [|n] Hn; simpl in *; try done; try lia.
  rewrite IH; [done|lia].
Qed.

Lemma snprintf_fits (size : nat) (s : string) :
  (String.length s < size)%nat -> snprintf size s = s.
Proof. intros Hs. unfold snprintf. apply substring_all. lia. Qed.

Lemma append_ne (a b : string) : b ≠ EmptyString -> a +:+ b ≠ a.
Proof.
  intros Hb Heq. apply (f_equal String.length) in Heq.
  rewrite string_length_append in Heq. destruct b; [done|]. simpl in Heq. lia.
Qed.

Lemma next_result_cases w (P : Outcome (World Mode) IoResult -> Prop) :
  (head_ok w = true -> P (Ret io_ok (with_faults (tail (faults w)) w))) ->
  (forall e, head_ok w = false -> P (Ret (io_err e) (with_faults (tail (faults w)) w))) ->
  P (next_result w).
Proof.
  intros H1 H2. unfold next_result, head_ok in *.
  destruct w as [fi fa sy rs ch lg db ld pe ti]; simpl in *.
  destruct fa as [|[|e] rest]; simpl in *; auto.
Qed.

Lemma fopen_wb_eq path w :
  fopen_wb path w =
    Ret (head_ok w)
      (if head_ok w
       then with_files (<[path := []]> (files w)) (after_call (sys_fopen path true true) w)
       else after_call (sys_fopen path true false) w).
Proof.
  unfold fopen_wb, bind. apply next_result_cases.
  - intros ->. reflexivity.
  - intros e ->. reflexivity.
Qed.

Lemma rename_eq src dst w :
  rename src dst w =
    Ret (head_ok w)
      (if head_ok w
       then match files w !! src with
            | Some content =>
                with_files (<[dst := content]> (delete src (files w)))
                  (after_call (sys_rename src dst true) w)
            | None => after_call (sys_rename src dst true) w
            end
       else after_call (sys_rename src dst false) w).
Proof.
  unfold rename, bind. apply next_result_cases.
  - intros ->. simpl. unfold modify, ret. simpl. by destruct (files w !! src).
  - intros e ->. reflexivity.
Qed.

Lemma write_channeldb_spec w :
  let tmp := snprintf 512 (database w +:+ ".tmp") in
  exists r w' tr,
    write_channeldb w = Ret r w' /\
    syscalls w' = syscalls w ++ tr /\
    write_trace tmp (database w) r tr /\
    channels w' = channels w /\ database w' = database w /\
    channeldb_loaded w' = channeldb_loaded w /\ persistent w' = persistent w /\
    timers w' = timers w /\
    (r = 0 -> forall p, p ≠ tmp -> files w' !! p = files w !! p) /\
    (r = 1 -> files w' !! database w = Some (ser_db (channels w))) /\
    (faults w = [] -> r = 1 /\ faults w' = [] /\ logs w' = logs w).
Proof.
  intros tmp. unfold write_channeldb.
  mstep ltac:(reflexivity). fold tmp.
  mstep ltac:(apply fopen_wb_eq).
  destruct (head_ok w) eqn:Hopen; cbv beta iota delta [negb].
  2:{ mstep ltac:(reflexivity). eexists 0, _, [sys_fopen tmp true false].
      split; [reflexivity|]. split; [done|]. split; [constructor|].
      split_and!; try done.
      intros Hf. unfold head_ok in Hopen. by rewrite Hf in Hopen. }
  set (w1 := with_files (<[tmp:=[]]> (files w)) (after_call (sys_fopen tmp true true) w)).
  destruct (wspec_write_db tmp (channels w) w1)
    as (b & w2 & tr & Hr & Hs & (F1 & F2 & F3 & F4 & F5 & F6 & F7) & Ht & Hn & Hz).
  mstep ltac:(exact Hr).
  destruct b; cbv beta iota delta [negb].
  2:{ destruct (Hn eq_refl) as (tr0 & d & r & Hok & -> & Hlg).
      eexists 0, w2, (sys_fopen tmp true true :: tr0 ++ [sys_fwrite tmp d false; sys_fclose r]).
      split; [reflexivity|]. split.
      { rewrite Hs. subst w1. simpl. by rewrite <- app_assoc. }
      split; [by constructor|]. split_and!; try done.
      - intros _ p Hp. rewrite F7 by done. subst w1; simpl. by rewrite lookup_insert_ne.
      - intros Hf. assert (faults w1 = []) as Hf1 by (subst w1; simpl; by rewrite Hf).
        by destruct (Hz Hf1). }
  destruct (Ht eq_refl) as (Hok & Hlg & Hfi).
  mstep ltac:(apply fclose_eq).
  destruct (head_ok w2) eqn:Hclose; cbv beta iota delta [negb].
  2:{ mstep ltac:(reflexivity).
      eexists 0, _, (sys_fopen tmp true true :: tr ++ [sys_fclose false]).
      split; [reflexivity|]. split.
      { simpl. rewrite ?Hclose, Hs. subst w1. simpl. by rewrite <- !app_assoc. }
      split; [by constructor|]. split_and!; try done.
      - intros _ p Hp. simpl. rewrite F7 by done. subst w1; simpl.
        by rewrite lookup_insert_ne.
      - intros Hf. assert (faults w1 = []) as Hf1 by (subst w1; simpl; by rewrite Hf).
        destruct (Hz Hf1) as [_ Hf2]. unfold head_ok in Hclose. by rewrite Hf2 in Hclose. }
  mstep ltac:(apply rename_eq).
  assert (files (closed w2) !! tmp = Some (ser_db (channels w))) as Htmp.
  { simpl. rewrite Hfi. rewrite lookup_alter_eq. subst w1; simpl.
    by rewrite lookup_insert_eq. }
  destruct (head_ok (closed w2)) eqn:Hren; cbv beta iota delta [negb].
  2:{ mstep ltac:(reflexivity).
      eexists 0, _, (sys_fopen tmp true true :: tr ++
                       [sys_fclose true; sys_rename tmp (database w) false]).
      split; [reflexivity|]. split.
      { simpl. rewrite ?Hclose, Hs. subst w1. simpl. by rewrite <- !app_assoc. }
      split; [by constructor|]. split_and!; try done.
      - intros _ p Hp. simpl. rewrite F7 by done. subst w1; simpl.
        by rewrite lookup_insert_ne.
      - intros Hf. assert (faults w1 = []) as Hf1 by (subst w1; simpl; by rewrite Hf).
        destruct (Hz Hf1) as [_ Hf2]. unfold head_ok in Hren. simpl in Hren.
        by rewrite Hf2 in Hren. }
  rewrite Htmp.
  eexists 1, _, (sys_fopen tmp true true :: tr ++
                   [sys_fclose true; sys_rename tmp (database w) true]).
  split; [reflexivity|]. split.
  { simpl. rewrite ?Hclose, Hs. subst w1. simpl. by rewrite <- !app_assoc. }
  split; [by constructor|]. split_and!; try done.
  - intros _. simpl. by rewrite lookup_insert_eq.
  - intros Hf. assert (faults w1 = []) as Hf1 by (subst w1; simpl; by rewrite Hf).
    destruct (Hz Hf1) as [_ Hf2]. split; [done|]. simpl. rewrite Hf2. split; [done|].
    rewrite Hlg. done.
Qed.

Lemma magic_end_range : 0 <= MAGIC_CHANNEL_END < 2 ^ 32.
Proof. unfold MAGIC_CHANNEL_END. lia. Qed.

Lemma read_entries_good : forall (good : list (Channel Mode)) w k D n added,
  Forall channel_ok good -> fresh_names good (channels w) ->
  rstream w = take k (ser_records good ++ D) ->
  (length (ser_records good) <= k)%nat ->
  read_channel_entries (length good + n) added w =
    read_channel_entries n (added + Z.of_nat (length good))
      (with_channels (rev (map restored good) ++ channels w)
         (with_rstream (take (k - length (ser_records good)) D) w)).
Proof.
  induction good as [|c good IH]; intros w k D n added Hok Hfresh Hs Hk.
  - simpl in *. rewrite Nat.sub_0_r, Z.add_0_r. f_equal.
    apply World_eq; try reflexivity. simpl. by rewrite Hs.
  - apply Forall_cons in Hok as [Hc Hok]. destruct Hfresh as [Hf Hfresh].
    change (ser_records (c :: good)) with (ser_channel c ++ ser_records good) in *.
    rewrite <- app_assoc in Hs. rewrite length_app in Hk.
    cbn [length Nat.add read_channel_entries].
    destruct (read_channel_entry_cut MAGIC_CHANNEL_END c w k _ added Hc magic_end_range
                Hf Hs) as [[Hlt _]|[_ Hr]].
    { unfold ser_channel in Hk. lia. }
    mstep ltac:(exact Hr). rewrite Z.eqb_refl.
    match goal with |- read_channel_entries _ _ ?st = _ => set (w1 := st) end.
    rewrite (IH w1 (k - length (ser_channel c))%nat D n (added + 1)); try done.
    + f_equal; [lia|]. apply World_eq; try reflexivity.
      * cbn [rstream with_channels with_rstream]. rewrite length_app.
        f_equal. lia.
      * cbn [channels with_channels with_rstream with_logs w1 map rev].
        subst w1. cbn [channels with_channels with_logs].
        by rewrite <- app_assoc.
    + unfold ser_channel in *. lia.
Qed.

Lemma fopen_rb_ok path content w :
  head_ok w = true -> files w !! path = Some content ->
  fopen_rb path w =
    Ret None (with_rstream content (after_call (sys_fopen path false true) w)).
Proof.
  intros Hh Hf. unfold fopen_rb, bind. apply next_result_cases.
  - intros _. simpl. rewrite Hf. reflexivity.
  - intros e He. congruence.
Qed.

(** A file that starts with a good header and the records [good]: the
    reader gets through them and goes on with what follows. *)
Lemma read_channeldb_good_prefix w version count (good : list (Channel Mode)) D :
  files w !! database w = Some (db_header version count ++ ser_records good ++ D) ->
  head_ok w = true ->
  0 <= version <= CHANNELDB_VERSION ->
  Z.of_nat (length good) <= count < 2 ^ 64 ->
  Forall channel_ok good -> fresh_names good (channels w) ->
  read_channeldb w =
    bind (read_channel_entries (Z.to_nat count - length good) (Z.of_nat (length good)))
      after_loop
      (with_channels (rev (map restored good) ++ channels w)
         (with_rstream D (after_call (sys_fopen (database w) false true) w))).
Proof.
  intros Hfile Hopen Hv Hcount Hok Hfresh.
  unfold read_channeldb. mstep ltac:(reflexivity).
  mstep ltac:(by apply (fopen_rb_ok _ _ _ Hopen Hfile)).
  match goal with |- R_SAFE0 _ _ ?st = _ => set (w1 := st) end.
  unfold db_header in *.
  set (content := (le_bytes 4 (to_uint32 version) ++ le_bytes 8 (to_uint64 count)) ++
                  ser_records good ++ D) in *.
  assert (rstream w1 = take (length content)
            (le_bytes 4 (to_uint32 version) ++ le_bytes 8 (to_uint64 count) ++
             ser_records good ++ D)) as Hs1.
  { subst w1. cbn [rstream with_rstream]. rewrite take_ge by done.
    subst content. by rewrite <- app_assoc. }
  assert (length content = (4 + (8 + (length (ser_records good) + length D)))%nat) as Hlen.
  { subst content. by rewrite !length_app, !length_le_bytes. }
  pose proof (read_data_cut _ _ _ _ Hs1) as Hr. rewrite length_le_bytes in Hr.
  destruct Hr as [[Hk _]|[_ Hr]]; [lia|].
  unfold R_SAFE0 at 1. mstep ltac:(exact Hr).
  assert (le_value (le_bytes 4 (to_uint32 version)) = version) as ->.
  { unfold to_uint32, CHANNELDB_VERSION in *. rewrite Z.mod_small by lia.
    apply le_value_le32. lia. }
  destruct (Z.ltb_spec CHANNELDB_VERSION version) as [?|_]; [lia|].
  match goal with |- R_SAFE0 _ _ ?st = _ => set (w2 := st) end.
  pose proof (read_data_cut (le_bytes 8 (to_uint64 count)) _ _ w2 eq_refl) as Hr2.
  rewrite length_le_bytes in Hr2.
  destruct Hr2 as [[Hk _]|[_ Hr2]]; [lia|].
  unfold R_SAFE0. mstep ltac:(exact Hr2).
  assert (le_value (le_bytes 8 (to_uint64 count)) = count) as ->.
  { unfold to_uint64. rewrite Z.mod_small by lia. apply le_value_le64. lia. }
  match goal with |- bind _ _ ?st = _ => set (w3 := st) end.
  replace (Z.to_nat count) with (length good + (Z.to_nat count - length good))%nat by lia.
  unfold bind at 1.
  rewrite (read_entries_good good w3 (length content - 4 - 8) D
             (Z.to_nat count - length good) 0 Hok Hfresh eq_refl) by lia.
  unfold bind, after_loop.
  replace (length good + (Z.to_nat count - length good) - length good)%nat
    with (Z.to_nat count - length good)%nat by lia.
  rewrite Z.add_0_l.
  replace (with_channels (rev (map restored good) ++ channels w3)
             (with_rstream
                (take (length content - 4 - 8 - length (ser_records good)) D) w3))
    with (with_channels (rev (map restored good) ++ channels w)
            (with_rstream D (after_call (sys_fopen (database w) false true) w))).
  { reflexivity. }
  apply World_eq; try reflexivity. cbn [rstream with_rstream with_channels].
  symmetry. apply take_ge. lia.
Qed.

End WithModes.

End ChannelDbFacts.

Module ChannelDbTheorems.
Import ChannelDb ChannelDbSpec ChannelDbFacts.

Section WithModes.
Context {Mode : Type} `{ChannelModes Mode}.
Implicit Types (w : World Mode) (c : Channel Mode).
(* The writer's specification, at the modes of this section. *)
Local Notation wspec := (wspec (Mode:=Mode)) (only parsing).

(** C10. When the open of the database fails, read_channeldb returns 1
    if [errno] is ENOENT and 0 otherwise, having logged one warning; the
    channel list and the files are untouched. A database that is not
    there makes the open fail with ENOENT. *)
Theorem read_channeldb_open_failure (w : World Mode) :
  (forall e w1,
     fopen_rb (database w) w = Ret (Some e) w1 ->
     read_channeldb w =
       Ret (if e =? ENOENT then 1 else 0)
         (with_logs (logs w1 ++ [if e =? ENOENT then warn_no_database
                                 else warn_cannot_open]) w1) /\
     channels w1 = channels w /\ files w1 = files w) /\
  (files w !! database w = None -> head_ok w = true ->
   exists w1, fopen_rb (database w) w = Ret (Some ENOENT) w1).
Proof.
  split.
  - intros e w1 Ho. split.
    + unfold read_channeldb. mstep ltac:(reflexivity). mstep ltac:(exact Ho).
      destruct (e =? ENOENT); by mstep ltac:(reflexivity).
    + revert Ho. unfold fopen_rb, bind. apply next_result_cases.
      * intros _. simpl. destruct (files w !! database w); simpl; [done|].
        by intros [= <- <-].
      * intros e' _. simpl. by intros [= <- <-].
  - intros Hf Hh. unfold fopen_rb, bind. apply next_result_cases.
    + intros _. simpl. rewrite Hf. simpl. by eexists.
    + intros e He. congruence.
Qed.

(** X21. When the path of the database with ".tmp" added fits the
    512-byte buffer, write_channeldb returns 0 or 1 and its calls
    are an open of the temporary file, writes to it, a close and a rename
    over the database, in that order, cut short at the first call that
    fails: the rename is made only after the open, every write and the
    close succeeded. With the result 0 every file but the temporary one,
    the database among them, is as before; with the result 1 the database
    is the serialised channel list. The channel list is not changed. *)
Theorem write_channeldb_atomic (w : World Mode) :
  (String.length (database w) + 4 < 512)%nat ->
  exists r w' tr,
    write_channeldb w = Ret r w' /\
    syscalls w' = syscalls w ++ tr /\
    write_trace (database w +:+ ".tmp") (database w) r tr /\
    channels w' = channels w /\
    (r = 0 -> files w' !! database w = files w !! database w) /\
    (r = 0 -> forall p, p ≠ database w +:+ ".tmp" -> files w' !! p = files w !! p) /\
    (r = 1 -> files w' !! database w = Some (ser_db (channels w))).
Proof.
  intros Hlen.
  destruct (write_channeldb_spec w)
    as (r & w' & tr & Hr & Hs & Ht & Hc & _ & _ & _ & _ & H0 & H1 & _).
  assert (snprintf 512 (database w +:+ ".tmp") = database w +:+ ".tmp") as Htmp.
  { apply snprintf_fits. rewrite string_length_append. simpl. lia. }
  rewrite Htmp in *.
  exists r, w', tr. split_and!; try done.
  intros Hr0. apply H0; [done|]. intros Heq. by apply (append_ne (database w) ".tmp").
Qed.

Lemma channeldb_configrun_spec (conf : list (string * string)) : forall w,
  exists d, channeldb_configrun conf w = Ret 1 (with_database d w).
Proof.
  induction conf as [|[varname vardata] conf IH]; intros w.
  - exists (database w). simpl. unfold ret. f_equal. by destruct w.
  - cbn [channeldb_configrun]. destruct (String.eqb varname "database").
    + mstep ltac:(reflexivity). destruct (IH (with_database vardata w)) as [d Hd].
      exists d. rewrite Hd. reflexivity.
    + mstep ltac:(reflexivity). apply IH.
Qed.

Lemma EventAdd_spec nm w :
  exists b w', EventAdd nm w = Ret b w' /\
    files w' = files w /\ syscalls w' = syscalls w /\ rstream w' = rstream w /\
    channels w' = channels w /\ logs w' = logs w /\ database w' = database w /\
    channeldb_loaded w' = channeldb_loaded w /\ persistent w' = persistent w.
Proof.
  unfold EventAdd, bind. apply next_result_cases.
  - intros _. simpl. eexists _, _. split; [reflexivity|]. by split_and!.
  - intros e _. simpl. eexists _, _. split; [reflexivity|]. by split_and!.
Qed.

(** MOD_LOAD with the flag set makes no system call. *)
Lemma MOD_LOAD_skips w :
  channeldb_loaded w ≠ 0 ->
  exists r w', MOD_LOAD w = Ret r w' /\
    files w' = files w /\ syscalls w' = syscalls w /\ rstream w' = rstream w /\
    channels w' = channels w /\ channeldb_loaded w' = channeldb_loaded w /\
    persistent w' = persistent w.
Proof.
  intros Hl. unfold MOD_LOAD. mstep ltac:(reflexivity).
  destruct (Z.eqb_spec (channeldb_loaded w) 0) as [?|_]; [done|].
  mstep ltac:(reflexivity).
  destruct (EventAdd_spec "channeldb_write_channeldb" w)
    as (b & w' & He & E1 & E2 & E3 & E4 & E5 & E6 & E7 & E8).
  mstep ltac:(exact He). destruct b; cbv beta iota delta [negb].
  - eexists _, _. split; [reflexivity|]. by split_and!.
  - mstep ltac:(reflexivity). eexists _, _. split; [reflexivity|]. by split_and!.
Qed.

(** MOD_LOAD with the flag clear runs read_channeldb first, and the flag
    is 1 when it returns. *)
Lemma MOD_LOAD_reads w r w' :
  channeldb_loaded w = 0 -> MOD_LOAD w = Ret r w' ->
  channeldb_loaded w' = 1 /\
  exists rr wr tr, read_channeldb w = Ret rr wr /\ syscalls w' = syscalls wr ++ tr.
Proof.
  intros Hl. unfold MOD_LOAD. unfold bind at 1. unfold get.
  rewrite Hl. cbn [Z.eqb]. intros Hm.
  apply bind_inv in Hm as ([] & wa & Ha & Hm).
  apply bind_inv in Ha as (rr & wr & Hread & Ha).
  apply bind_inv in Ha as ([] & wb & Hb & Ha).
  unfold modify in Ha. injection Ha as <-.
  assert (exists tr, syscalls wb = syscalls wr ++ tr /\ True) as (tr & Htr & _).
  { destruct (rr =? 0).
    - revert Hb. unfold bind. rewrite rename_eq.
      destruct (head_ok wr); simpl.
      + destruct (files wr !! database w); intros [= <-]; simpl; by eexists.
      + intros [= <-]; simpl; by eexists.
    - unfold ret in Hb. injection Hb as <-. exists []. by rewrite app_nil_r. }
  destruct (EventAdd_spec "channeldb_write_channeldb" (with_channeldb_loaded 1 wb))
    as (b & w2 & He & E1 & E2 & E3 & E4 & E5 & E6 & E7 & E8).
  revert Hm. unfold bind at 1. rewrite He.
  destruct b; cbv beta iota delta [negb].
  - intros [= <- <-]. split; [by rewrite E7|]. exists rr, wr, tr. split; [done|].
    by rewrite E2.
  - unfold bind, log, modify, ret. intros [= <- <-]. simpl.
    split; [by rewrite E7|]. exists rr, wr, tr. split; [done|]. by rewrite E2.
Qed.

Lemma write_channeldb_returns w :
  exists r w', write_channeldb w = Ret r w' /\
    channeldb_loaded w' = channeldb_loaded w /\ persistent w' = persistent w.
Proof.
  destruct (write_channeldb_spec w)
    as (r & w' & tr & Hr & _ & _ & _ & _ & Hl & Hp & _).
  by exists r, w'.
Qed.

(** What the entry points before MOD_LOAD leave: the flag is the saved
    one, or 0 when none is saved. *)
Lemma load_module_unfold (PERMDATADIR : string) conf w :
  exists d,
    load_module PERMDATADIR conf w =
      MOD_LOAD (with_database d
                  (with_channeldb_loaded
                     (default 0 (persistent w !! "channeldb_loaded")) w)).
Proof.
  cbv beta iota delta [load_module module_image_loaded MOD_TEST MOD_INIT
    LoadPersistentInt_channeldb_loaded setcfg bind modify ret].
  match goal with |- context [channeldb_configrun conf ?st] => set (w1 := st) end.
  destruct (channeldb_configrun_spec conf w1) as [d Hd]. exists d.
  rewrite Hd. f_equal. subst w1.
  apply World_eq; try (simpl; by destruct (persistent w !! "channeldb_loaded")).
Qed.

(** C9. Whatever the first load of the module did, if it returned then
    the flag is set, MOD_UNLOAD returns with the flag saved, and a later
    load of the module in the same process (a new image, MOD_TEST,
    MOD_INIT, the configuration, MOD_LOAD), in any world that still holds
    the saved flag, returns without a system call: the files, the channel
    list and the flag are those of before. A MOD_LOAD with the flag clear
    does run read_channeldb first. *)
Theorem reload_skips_read (w : World Mode) (PERMDATADIR : string)
    (conf1 conf2 : list (string * string)) (r1 : Z) (w1 : World Mode) :
  load_module PERMDATADIR conf1 w = Ret r1 w1 ->
  channeldb_loaded w1 ≠ 0 /\
  (exists r2 w2,
    MOD_UNLOAD w1 = Ret r2 w2 /\
    persistent w2 !! "channeldb_loaded" = Some (channeldb_loaded w1) /\
    forall w2' : World Mode,
      persistent w2' !! "channeldb_loaded" = persistent w2 !! "channeldb_loaded" ->
      exists r3 w3,
        load_module PERMDATADIR conf2 w2' = Ret r3 w3 /\
        syscalls w3 = syscalls w2' /\ files w3 = files w2' /\
        channels w3 = channels w2' /\ rstream w3 = rstream w2' /\
        channeldb_loaded w3 = channeldb_loaded w1) /\
  (forall w0 r w', channeldb_loaded w0 = 0 -> MOD_LOAD w0 = Ret r w' ->
     exists rr wr tr, read_channeldb w0 = Ret rr wr /\ syscalls w' = syscalls wr ++ tr).
Proof.
  intros Hload.
  assert (channeldb_loaded w1 ≠ 0) as Hset.
  { destruct (load_module_unfold PERMDATADIR conf1 w) as [d Hd]. rewrite Hd in Hload.
    match type of Hload with MOD_LOAD ?st = _ => set (wi := st) in * end.
    destruct (Z.eq_dec (channeldb_loaded wi) 0) as [Hz|Hnz].
    - destruct (MOD_LOAD_reads wi r1 w1 Hz Hload) as [-> _]. done.
    - destruct (MOD_LOAD_skips wi Hnz) as (r & w' & Hm & _ & _ & _ & _ & Hl & _).
      rewrite Hm in Hload. injection Hload as <- <-. by rewrite Hl. }
  split; [done|]. split.
  - destruct (write_channeldb_returns w1) as (rw & ww & Hw & Hl & Hp).
    unfold MOD_UNLOAD. mstep ltac:(exact Hw).
    eexists _, _. split; [reflexivity|]. split.
    { simpl. by rewrite lookup_insert_eq, Hl. }
    intros w2' Hsaved. simpl in Hsaved. rewrite lookup_insert_eq, Hl in Hsaved.
    destruct (load_module_unfold PERMDATADIR conf2 w2') as [d Hd]. rewrite Hd, Hsaved.
    simpl default.
    match goal with |- context [MOD_LOAD ?st] => set (wi := st) end.
    destruct (MOD_LOAD_skips wi) as (r & w' & Hm & E1 & E2 & E3 & E4 & E5 & E6); [done|].
    exists r, w'. split; [done|]. by split_and!.
  - intros w0 r w' Hz Hm. by destruct (MOD_LOAD_reads w0 r w' Hz Hm) as [_ ?].
Qed.

Lemma after_loop_break (added : Z) w :
  after_loop (true, added) w =
    Ret 1 (with_logs (logs w ++ (if added =? 0 then [] else [info_added added]))
             (closed w)).
Proof.
  unfold after_loop. mstep ltac:(apply fclose_eq).
  destruct (added =? 0); cbv beta iota delta [negb].
  - mstep ltac:(reflexivity). unfold ret. f_equal.
    apply World_eq; try reflexivity. simpl. by rewrite app_nil_r.
  - by mstep ltac:(reflexivity).
Qed.

(** C7 (as amended). With no failing call, +P channels that the format
    can hold and whose names differ, and modes that [do_mode] gives back
    from what [channel_modes] printed: writing
    the database and reading it in a process with an empty channel list
    gives 1 and the +P channels, each with its name, creation time, topic
    fields, modes and mode lock as they were and with each list-mode's
    entries (ban string, setter, set time) as they were but in reverse
    order; the channels too come in reverse order. With no +P channel
    (a record count of zero) the list read is empty and nothing is
    reported. *)
Theorem written_then_read_restores (w : World Mode) :
  faults w = [] ->
  Forall channel_ok (persistent_channels (channels w)) ->
  fresh_names (persistent_channels (channels w)) [] ->
  Z.of_nat (length (persistent_channels (channels w))) < 2 ^ 64 ->
  exists w',
    written_then_read w = Ret 1 w' /\
    files w' !! database w = Some (ser_db (channels w)) /\
    channels w' = rev (map restored (persistent_channels (channels w))) /\
    logs w' = logs w ++
              match persistent_channels (channels w) with
              | [] => []
              | _ :: _ =>
                  [info_added (Z.of_nat (length (persistent_channels (channels w))))]
              end.
Proof.
  intros Hfaults Hok Hfresh Hcount.
  destruct (write_channeldb_spec w)
    as (r & w1 & tr & Hr & Hs & Ht & Hc & Hdb & _ & _ & _ & _ & H1 & Hz).
  destruct (Hz Hfaults) as (-> & Hf1 & Hlg1). specialize (H1 eq_refl).
  unfold written_then_read. mstep ltac:(exact Hr). mstep ltac:(reflexivity).
  set (w2 := with_channels [] w1).
  set (P := persistent_channels (channels w)) in *.
  assert (files w2 !! database w2 =
          Some (db_header CHANNELDB_VERSION (Z.of_nat (length P)) ++
                ser_records P ++ [])) as Hfile.
  { subst w2. cbn [files database with_channels]. rewrite Hdb, H1.
    unfold ser_db, db_header, ser_channels, ser_records.
    fold P. by rewrite app_nil_r, <- app_assoc. }
  assert (head_ok w2 = true) as Hhead.
  { subst w2. unfold head_ok. simpl. by rewrite Hf1. }
  rewrite (read_channeldb_good_prefix w2 CHANNELDB_VERSION (Z.of_nat (length P)) P []
             Hfile) by (done || (unfold CHANNELDB_VERSION; lia)).
  rewrite Nat2Z.id, Nat.sub_diag. cbn [read_channel_entries].
  mstep ltac:(reflexivity). rewrite after_loop_break.
  eexists. split; [reflexivity|]. split_and!.
  - exact H1.
  - simpl. by rewrite app_nil_r.
  - simpl. rewrite Hlg1. destruct P as [|c P]; [done|].
    destruct (Z.eqb_spec (Z.of_nat (length (c :: P))) 0) as [He|_]; [|done].
    simpl in He. lia.
Qed.


End WithModes.

Lemma cstr_okb_sound x : cstr_okb x = true -> cstr_ok x.
Proof. destruct x as [s|]; simpl; [|done]. intros Hb. by apply Z.leb_le. Qed.

Lemma time_okb_sound t : time_okb t = true -> time_ok t.
Proof.
  unfold time_okb, time_ok. intros [H1 H2]%andb_prop.
  apply Z.leb_le in H1. apply Z.ltb_lt in H2. by split.
Qed.

Lemma listmode_okb_sound l : listmode_okb l = true -> listmode_ok l.
Proof.
  unfold listmode_okb, listmode_ok. intros [H1 H2]%andb_prop. split.
  - rewrite forallb_forall in H1. apply Forall_forall. intros e He.
    specialize (H1 e (proj1 (list_elem_of_In _ _) He)).
    unfold ban_okb in H1. apply andb_prop in H1 as [[Ha Hb]%andb_prop Hc].
    split_and!; auto using cstr_okb_sound, time_okb_sound.
  - by apply Z.ltb_lt.
Qed.

(** A channel that passes the test and whose modes [do_mode] gives back
    is one the format holds. *)
Lemma channel_okb_sound {Mode : Type} `{ChannelModes Mode} (c : Channel Mode) :
  channel_okb c = true ->
  do_mode mode_new (mode_parv (mode c)) = mode c ->
  channel_ok c.
Proof.
  unfold channel_okb. intros Hb Hm.
  repeat (apply andb_prop in Hb as [Hb ?]).
  unfold channel_ok, modes_ok.
  split_and!; auto using cstr_okb_sound, time_okb_sound, listmode_okb_sound.
  by apply Nat.leb_le.
Qed.

Lemma chanA_ok : channel_ok chanA.
Proof. apply channel_okb_sound; vm_compute; reflexivity. Defined.

Lemma chanC_ok : channel_ok chanC.
Proof. apply channel_okb_sound; vm_compute; reflexivity. Defined.

Lemma w0_persistent : persistent_channels (channels w0) = [chanA; chanC].
Proof. vm_compute. reflexivity. Defined.

Lemma written_then_read_restores_witness :
  exists w',
    written_then_read w0 = Ret 1 w' /\
    files w' !! db_path = Some (ser_db (channels w0)) /\
    channels w' = [restored chanC; restored chanA] /\
    logs w' = [info_added 2].
Proof.
  destruct (written_then_read_restores w0) as (w' & Hr & Hf & Hc & Hl).
  - reflexivity.
  - rewrite w0_persistent.
    apply Forall_cons. split; [exact chanA_ok|].
    apply Forall_cons. split; [exact chanC_ok|]. apply Forall_nil_2.
  - rewrite w0_persistent. vm_compute. done.
  - rewrite w0_persistent. simpl. lia.
  - exists w'. rewrite w0_persistent in Hc, Hl. by split_and!.
Defined.

(** C7, the claim as stated fails: the two bans of #rocq come back in
    the other order. *)
Lemma banlist_read_back_reversed : ~ reproduces_exactly w0.
Proof.
  intros (w' & Hr & Hall).
  assert (channels w' = [restored chanC; restored chanA]) as Hc.
  { pose proof (f_equal (fun o => match o with Ret _ s => channels s | _ => [] end) Hr) as E.
    vm_compute in E. symmetry. exact E. }
  specialize (Hall chanA). rewrite Hc in Hall.
  assert (chanA ∈ persistent_channels (channels w0)) as Hin.
  { rewrite w0_persistent. left. }
  apply Hall in Hin.
  apply elem_of_cons in Hin as [Hin|Hin]; [discriminate Hin|].
  apply list_elem_of_singleton in Hin. discriminate Hin.
Qed.

Lemma write_channeldb_atomic_witness :
  exists w' tr,
    write_channeldb w_full_old = Ret 0 w' /\
    syscalls w' = tr /\
    write_trace (db_path +:+ ".tmp") db_path 0 tr /\
    files w' !! db_path = Some old_db.
Proof.
  destruct (write_channeldb_atomic w_full_old)
    as (r & w' & tr & Hr & Hs & Ht & _ & H0 & _).
  - vm_compute. lia.
  - assert (r = 0) as ->.
    { pose proof (f_equal (fun o => match o with Ret r _ => r | _ => 1 end) Hr) as E.
      vm_compute in E. symmetry. exact E. }
    exists w', tr. split; [exact Hr|]. split; [exact Hs|]. split; [exact Ht|].
    etrans; [exact (H0 eq_refl)|]. apply lookup_insert_eq.
Defined.

(** C6. A database path of 511 characters, with a database on disk and a
    disk that is full at the first write. The name of the temporary file,
    the path with ".tmp" added and cut to the 512-byte buffer, is the path
    of the database: the file write_channeldb opens for writing is the
    database itself, which the open empties, and after the failed write
    write_channeldb returns 0 with the previous database gone; no
    temporary file was written and nothing was renamed. *)
Theorem long_path_destroys_database :
  String.length long_path = 511%nat /\
  snprintf 512 (long_path +:+ ".tmp") = long_path /\
  files w_long !! long_path = Some old_db /\
  exists w',
    write_channeldb w_long = Ret 0 w' /\
    syscalls w' = [sys_fopen long_path true true;
                   sys_fwrite long_path (le_bytes 4 (to_uint32 CHANNELDB_VERSION)) false;
                   sys_fclose true] /\
    files w' !! long_path = Some [] /\
    logs w' = [warn_write_error long_path].
Proof.
  split; [vm_compute; reflexivity|].
  split; [vm_compute; reflexivity|].
  split; [apply lookup_insert_eq|].
  assert (match write_channeldb w_long with
          | Ret r s =>
              r = 0 /\
              syscalls s = [sys_fopen long_path true true;
                            sys_fwrite long_path
                              (le_bytes 4 (to_uint32 CHANNELDB_VERSION)) false;
                            sys_fclose true] /\
              files s !! long_path = Some [] /\
              logs s = [warn_write_error long_path]
          | _ => False
          end) as Hrun by (vm_compute; repeat split; reflexivity).
  destruct (write_channeldb w_long) as [r w'| | |]; try done.
  destruct Hrun as (-> & Hs & Hf & Hl). by exists w'.
Qed.




Lemma read_channeldb_open_failure_witness :
  (exists w', read_channeldb w_new = Ret 1 w' /\ channels w' = channels w_new /\
              logs w' = [warn_no_database]) /\
  (exists w', read_channeldb w_denied = Ret 0 w' /\ channels w' = channels w_denied /\
              logs w' = [warn_cannot_open]).
Proof.
  split.
  - destruct (read_channeldb_open_failure w_new) as [Hfail Hnone].
    destruct (Hnone eq_refl eq_refl) as [w1 Ho].
    destruct (Hfail ENOENT w1 Ho) as (Hr & Hc & _).
    eexists. split; [exact Hr|]. split; [exact Hc|].
    vm_compute in Ho. injection Ho as <-. reflexivity.
  - destruct (read_channeldb_open_failure w_denied) as [Hfail _].
    destruct (Hfail 13 (with_syscalls [sys_fopen db_path false false]
                          (with_faults [] w_denied))) as (Hr & Hc & _).
    + vm_compute. reflexivity.
    + eexists. split; [exact Hr|]. split; [exact Hc|]. reflexivity.
Defined.

Lemma reload_skips_read_witness :
  exists r1 w1,
    load_module "data" [("database", db_path)] w0 = Ret r1 w1 /\
    channeldb_loaded w1 = 1 /\
    exists r2 w2,
      MOD_UNLOAD w1 = Ret r2 w2 /\
      persistent w2 !! "channeldb_loaded" = Some 1 /\
      exists r3 w3,
        load_module "data" [("database", db_path)] w2 = Ret r3 w3 /\
        syscalls w3 = syscalls w2 /\ channels w3 = channels w2 /\
        channeldb_loaded w3 = 1.
Proof.
  eexists _, _. split; [vm_compute; reflexivity|]. split; [reflexivity|].
  match goal with |- exists r2 w2, MOD_UNLOAD ?st = _ /\ _ => set (w1 := st) end.
  destruct (reload_skips_read w0 "data" [("database", db_path)] [("database", db_path)]
              MOD_SUCCESS w1) as (_ & (r2 & w2 & Hu & Hp & Hre) & _).
  - vm_compute. reflexivity.
  - exists r2, w2. split; [exact Hu|]. split; [exact Hp|].
    destruct (Hre w2 eq_refl) as (r3 & w3 & Hl & Hs & _ & Hc & _ & Hf).
    exists r3, w3. by split_and!.
Defined.

End ChannelDbTheorems.

Module MtagOperations.
Import Mtag MtagSpec MtagTerms MtagFacts.

(** ** More about the registry operations *)

Lemma first_match_cases (h : gmap addr MessageTagHandler) (token : string) (l : list addr) :
  (forall a, a ∈ l -> is_Some (h !! a)) ->
  match first_match h token l with
  | Some m =>
      exists l1 l2 x,
        l = l1 ++ m :: l2 /\ h !! m = Some x /\ stricmp token (name x) = true /\
        forall a y, a ∈ l1 -> h !! a = Some y -> stricmp token (name y) = false
  | None => forall a y, a ∈ l -> h !! a = Some y -> stricmp token (name y) = false
  end.
Proof.
  induction l as [|b l IH]; intros Hall; simpl.
  - intros a y Ha. by apply elem_of_nil in Ha.
  - destruct (Hall b ltac:(left)) as [x Hx]. rewrite Hx.
    destruct (stricmp token (name x)) eqn:Hs.
    + exists [], l, x. split_and!; try done. intros a y Ha. by apply elem_of_nil in Ha.
    + specialize (IH (fun a Ha => Hall a (list_elem_of_further _ _ _ Ha))).
      destruct (first_match h token l) as [m|].
      * destruct IH as (l1 & l2 & z & -> & Hz & Hsz & Hbefore).
        exists (b :: l1), l2, z. split_and!; try done.
        intros a y [->|Ha]%elem_of_cons Hy; [congruence|by eapply Hbefore].
      * intros a y [->|Ha]%elem_of_cons Hy; [congruence|by eapply IH].
Qed.

(** X1. MessageTagHandlerFind on a well-formed registry returns, and leaves
    the state as it is. The result is the first entry, in list order,
    whose name is the token up to the case of ASCII letters (no entry
    before it has such a name), whether it is marked unloaded or not; it is
    NULL exactly when no entry has such a name. *)
Theorem Find_first_match (s : State) (l : list addr) (token : string) :
  is_list (mtags s) (mtaghandlers s) l ->
  exists r,
    MessageTagHandlerFind token s = Ret r s /\
    match r with
    | Some m =>
        exists l1 l2 x,
          l = l1 ++ m :: l2 /\ mtags s !! m = Some x /\
          stricmp token (name x) = true /\
          forall a y, a ∈ l1 -> mtags s !! a = Some y -> stricmp token (name y) = false
    | None =>
        forall a y, a ∈ l -> mtags s !! a = Some y -> stricmp token (name y) = false
    end.
Proof.
  intros Hl. exists (first_match (mtags s) token l). split; [by apply Find_spec|].
  apply first_match_cases. intros a Ha. destruct Hl as [_ Hd]. by eapply dll_lookup.
Qed.

Lemma Find_first_match_witness :
  MessageTagHandlerFind "MSGID" s_two = Ret (Some 2%positive) s_two /\
  MessageTagHandlerFind "account" s_two = Ret None s_two.
Proof.
  split.
  - destruct (Find_first_match s_two [2; 1]%positive "MSGID" s_two_list) as (r & Hr & Hm).
    destruct r as [m|].
    + destruct Hm as (l1 & l2 & x & Hl & Hx & Hs & Hb).
      assert (m = 2%positive) as ->; [|exact Hr].
      destruct l1 as [|a l1]; [by injection Hl as <-|].
      injection Hl as <- Hl.
      destruct l1 as [|b l1]; [injection Hl as <- <-|].
      * vm_compute in Hx. injection Hx as <-. vm_compute in Hs. discriminate Hs.
      * injection Hl as _ Hl. by destruct l1.
    + specialize (Hm 2%positive _ ltac:(left) eq_refl). vm_compute in Hm. discriminate Hm.
  - destruct (Find_first_match s_two [2; 1]%positive "account" s_two_list) as (r & Hr & Hm).
    destruct r as [m|]; [|exact Hr].
    destruct Hm as (l1 & l2 & x & Hl & Hx & Hs & Hb).
    destruct l1 as [|a l1]; [injection Hl as <- <-|].
    + vm_compute in Hx. injection Hx as <-. vm_compute in Hs. discriminate Hs.
    + injection Hl as <- Hl. destruct l1 as [|b l1]; [injection Hl as <- <-|].
      * vm_compute in Hx. injection Hx as <-. vm_compute in Hs. discriminate Hs.
      * injection Hl as _ Hl. by destruct l1.
Defined.

(** X2. Names are looked up without regard to the case of ASCII letters: two
    tokens that stricmp takes for equal give the same search result in
    every state, well-formed or not. *)
Theorem Find_case_insensitive (s : State) (t1 t2 : string) :
  stricmp t1 t2 = true ->
  MessageTagHandlerFind t1 s = MessageTagHandlerFind t2 s.
Proof.
  intros Heq. unfold stricmp in Heq. apply String.eqb_eq in Heq.
  unfold MessageTagHandlerFind. generalize (S (size (mtags s))) (mtaghandlers s).
  intros fuel. induction fuel as [|fuel IH]; intros m; [done|]. simpl.
  destruct m as [a|]; [|done]. unfold bind, load.
  destruct (mtags s !! a) as [x|]; [|done].
  unfold stricmp. rewrite Heq. destruct (String.eqb _ _); [done|]. apply IH.
Qed.

Lemma Find_case_insensitive_witness :
  MessageTagHandlerFind "TyPiNg" s_two = MessageTagHandlerFind "typing" s_two.
Proof. apply Find_case_insensitive. reflexivity. Defined.

Lemma stricmp_refl (a : string) : stricmp a a = true.
Proof. unfold stricmp. apply String.eqb_refl. Qed.

Lemma is_list_insert_fresh {A : Type} `{ListStruct A} (h : gmap addr A) (hd : ptr)
    (l : list addr) (m : addr) (x : A) :
  h !! m = None -> is_list h hd l -> is_list (<[m := x]> h) hd l /\ m ∉ l.
Proof.
  intros Hm [Hnd Hd].
  assert (m ∉ l) as Hni.
  { intros Hin. destruct (dll_lookup _ _ _ _ _ Hd Hin) as [y Hy]. congruence. }
  split; [|done]. split; [done|].
  eapply dll_frame; [|exact Hd]. intros a Ha. apply lookup_insert_ne. congruence.
Qed.

Lemma store_inserted s h hd m x f :
  store m f (with_registry (<[m := x]> h, hd) s) =
    Ret tt (with_registry (<[m := f x]> h, hd) s).
Proof.
  unfold store. simpl. rewrite lookup_insert_eq. unfold with_registry. simpl.
  by rewrite alter_insert_eq.
Qed.

Lemma load_inserted s h hd m x :
  load m (with_registry (<[m := x]> h, hd) s) = Ret x (with_registry (<[m := x]> h, hd) s).
Proof. unfold load. simpl. by rewrite lookup_insert_eq. Qed.

Lemma heap_relinked_payload (h h' : gmap addr MessageTagHandler) a y :
  heap_relinked h h' -> h !! a = Some y ->
  exists y', h' !! a = Some y' /\ same_payload y y'.
Proof.
  intros Hr Hy. specialize (Hr a). rewrite Hy in Hr.
  destruct (h' !! a) as [y'|]; [|done]. exists y'. split; [done|].
  by apply relinked_payload.
Qed.

Lemma relinked_mobj_payload (x y : ModuleObject) :
  relinked x y -> mo_type y = mo_type x /\ mo_object y = mo_object x.
Proof. induction 1; simpl; tauto. Qed.

Lemma heap_relinked_payload_inv (h h' : gmap addr MessageTagHandler) a y' :
  heap_relinked h h' -> h' !! a = Some y' ->
  exists y, h !! a = Some y /\ same_payload y y'.
Proof.
  intros Hr Hy. specialize (Hr a). rewrite Hy in Hr.
  destruct (h !! a) as [y|]; [|done]. exists y. split; [done|].
  by apply relinked_payload.
Qed.

(** What the registration of a new name leaves, in full. *)
Lemma Add_new_entry_full (s : State) (l : list addr) (module : ptr)
    (mreq : MessageTagHandlerInfo) :
  is_list (mtags s) (mtaghandlers s) l ->
  request_ok mreq ->
  (forall a y, a ∈ l -> mtags s !! a = Some y -> stricmp (req_name mreq) (name y) = false) ->
  (forall c, req_clicap_handler mreq = Some c -> is_Some (clicaps s !! c)) ->
  (forall mo, module = Some mo ->
     exists md ol, modules s !! mo = Some md /\ is_list (mobjs s) (objects md) ol) ->
  exists m s' x,
    MessageTagHandlerAdd module mreq s = Ret (Some m) s' /\
    mtags s !! m = None /\
    is_list (mtags s') (mtaghandlers s') (m :: l) /\
    mtags s' !! m = Some x /\ same_payload (new_handler module mreq) x /\
    (forall a y, a ≠ m -> mtags s !! a = Some y ->
       exists y', mtags s' !! a = Some y' /\ same_payload y y') /\
    clicaps s' =
      match req_clicap_handler mreq with
      | Some c => alter (fun cc => mkClientCapability (cap_name cc) (Some m)) c (clicaps s)
      | None => clicaps s
      end /\
    (forall mo, module = Some mo ->
       exists md ol md' o ob,
         modules s !! mo = Some md /\ is_list (mobjs s) (objects md) ol /\
         modules s' !! mo = Some md' /\ errorcode md' = MODERR_NOERROR /\
         is_list (mobjs s') (objects md') (o :: ol) /\
         mobjs s' !! o = Some ob /\ is_MOBJ_MTAG (mo_type ob) = true /\
         mo_object ob = Some m) /\
    freed s' = freed s /\ logs s' = logs s /\
    ircd_rehashing s' = ircd_rehashing s /\
    MessageTagHandlerFind (req_name mreq) s' = Ret (Some m) s'.
Proof.
  intros Hl Hreq Hnone Hcap Hmod.
  set (m := fresh (dom (mtags s))).
  assert (mtags s !! m = None) as Hm by apply not_elem_of_dom, is_fresh.
  unfold MessageTagHandlerAdd. rewrite Add_checks_pass by done.
  mbind ltac:(by apply (Find_spec _ _ l)).
  rewrite first_match_none.
  2:{ intros a Ha. destruct (dll_lookup _ _ _ _ _ (proj2 Hl) Ha) as [y Hy].
      exists y. split; [done|]. by eapply Hnone. }
  mbind ltac:(mbind ltac:(reflexivity); reflexivity).
  fold m. cbv beta iota. exists m.
  (* the four fields *)
  do 4 mstep ltac:(apply store_inserted).
  mstep ltac:(apply load_inserted).
  change (set_clicap_handler _ _) with (new_handler module mreq).
  set (h := <[m := new_handler module mreq]> (mtags s)).
  destruct (is_list_insert_fresh (mtags s) (mtaghandlers s) l m (new_handler module mreq)
              Hm Hl) as [Hlh Hni]. fold h in Hlh.
  destruct (add_ListItem_fresh h (mtaghandlers s) l m (new_handler module mreq) Hlh Hni)
    as (h' & Hadd & Hl' & Hrel); [apply lookup_insert_eq|].
  destruct (heap_relinked_payload h h' m _ Hrel (lookup_insert_eq _ _ _)) as (x & Hx & Hpx).
  assert (forall a y, a ≠ m -> mtags s !! a = Some y ->
            exists y', h' !! a = Some y' /\ same_payload y y') as Hothers.
  { intros a y Hne Hy. apply (heap_relinked_payload h); [done|].
    subst h. rewrite lookup_insert_ne; [done|congruence]. }
  assert (first_match h' (req_name mreq) (m :: l) = Some m) as Hfind.
  { simpl. rewrite Hx. destruct Hpx as (-> & _). simpl. by rewrite stricmp_refl. }
  (* the reverse dependency *)
  set (caps' := match req_clicap_handler mreq with
                | Some c => alter (fun cc => mkClientCapability (cap_name cc) (Some m)) c
                              (clicaps s)
                | None => clicaps s
                end).
  set (s5 := with_clicaps caps' (with_registry (h', Some m) s)).
  assert (forall k : M State ptr,
            ((match clicap_handler (new_handler module mreq) with
              | Some c => store_clicap_mtag_handler c (Some m)
              | None => ret tt
              end ;;;
              zoom registry with_registry (add_ListItem m) ;;; k)%M
               (with_registry (h, mtaghandlers s) s)) = k s5) as Hstep.
  { intros k. subst s5 caps'. simpl clicap_handler.
    destruct (req_clicap_handler mreq) as [c|] eqn:Hc.
    - mstep ltac:(apply store_clicap_eq; simpl; by apply Hcap).
      mstep ltac:(apply zoom_eq; simpl; exact Hadd). reflexivity.
    - mstep ltac:(reflexivity).
      mstep ltac:(apply zoom_eq; simpl; exact Hadd).
      reflexivity. }
  rewrite Hstep. clear Hstep.
  destruct module as [mo|].
  - (* the module object *)
    destruct (Hmod mo eq_refl) as (md & ol & Hmd & Hol).
    set (o := fresh (dom (mobjs s))).
    assert (mobjs s !! o = None) as Ho by apply not_elem_of_dom, is_fresh.
    set (obj := mkModuleObject None None MOBJ_MTAG (Some m)).
    destruct (is_list_insert_fresh (mobjs s) (objects md) ol o obj Ho Hol) as [Hol1 Hnio].
    destruct (add_ListItem_fresh (<[o := obj]> (mobjs s)) (objects md) ol o obj Hol1 Hnio)
      as (ho' & Haddo & Hol' & Hrelo); [apply lookup_insert_eq|].
    assert (exists ob, ho' !! o = Some ob /\ is_MOBJ_MTAG (mo_type ob) = true /\
                       mo_object ob = Some m) as (ob & Hob & Hty & Hobm).
    { specialize (Hrelo o). rewrite lookup_insert_eq in Hrelo.
      destruct (ho' !! o) as [ob|]; [|done]. exists ob. split; [done|].
      destruct (relinked_mobj_payload obj ob Hrelo) as [-> ->]. done. }
    mstep ltac:(
      mstep ltac:(apply load_module_eq; exact Hmd);
      mstep ltac:(reflexivity);
      mstep ltac:(apply zoom_eq; unfold module_objects; simpl; rewrite Hmd; exact Haddo);
      apply store_errorcode_eq; simpl; apply lookup_alter_is_Some; by eexists).
    eexists _, x. split; [reflexivity|]. simpl. split_and!; try done.
    + intros mo' [= <-]. exists md, ol. eexists _, o, ob.
      rewrite !lookup_alter_eq, Hmd. simpl. by split_and!.
    + erewrite Find_spec; [|split; [exact (proj1 Hl')|exact (proj2 Hl')]].
      simpl mtags. by rewrite Hfind.
  - mstep ltac:(reflexivity).
    eexists _, x. split; [reflexivity|]. simpl. split_and!; try done.
    erewrite Find_spec; [|split; [exact (proj1 Hl')|exact (proj2 Hl')]].
    simpl mtags. by rewrite Hfind.
Qed.

(** X3. The registration of a name that is not in the registry. On a
    well-formed registry where no entry has the requested name (case
    ignored), with a request that passes the consistency checks, a valid
    capability pointer and a well-formed owner, MessageTagHandlerAdd returns
    a handler [m] that was no object before. [m] is the new head of the
    list, followed by the old entries in their order; it has the name,
    flags, is_ok and clicap_handler of the request and the module as owner,
    is not marked unloaded, and its can_send is NULL whatever the request
    holds; the old entries keep their contents. The capability of the
    request points back to [m] and the other capabilities are as before.
    A module given has its error code cleared and a new object of type
    MOBJ_MTAG for [m] in front of its object list. Nothing is freed or
    logged. A search for the name then returns [m]. *)
Theorem Add_new_entry (s : State) (l : list addr) (module : ptr)
    (mreq : MessageTagHandlerInfo) :
  is_list (mtags s) (mtaghandlers s) l ->
  request_ok mreq ->
  (forall a y, a ∈ l -> mtags s !! a = Some y -> stricmp (req_name mreq) (name y) = false) ->
  (forall c, req_clicap_handler mreq = Some c -> is_Some (clicaps s !! c)) ->
  (forall mo, module = Some mo ->
     exists md ol, modules s !! mo = Some md /\ is_list (mobjs s) (objects md) ol) ->
  exists m s' x,
    MessageTagHandlerAdd module mreq s = Ret (Some m) s' /\
    mtags s !! m = None /\
    is_list (mtags s') (mtaghandlers s') (m :: l) /\
    mtags s' !! m = Some x /\ same_payload (new_handler module mreq) x /\
    (forall a y, a ≠ m -> mtags s !! a = Some y ->
       exists y', mtags s' !! a = Some y' /\ same_payload y y') /\
    clicaps s' =
      match req_clicap_handler mreq with
      | Some c => alter (fun cc => mkClientCapability (cap_name cc) (Some m)) c (clicaps s)
      | None => clicaps s
      end /\
    (forall mo, module = Some mo ->
       exists md ol md' o ob,
         modules s !! mo = Some md /\ is_list (mobjs s) (objects md) ol /\
         modules s' !! mo = Some md' /\ errorcode md' = MODERR_NOERROR /\
         is_list (mobjs s') (objects md') (o :: ol) /\
         mobjs s' !! o = Some ob /\ is_MOBJ_MTAG (mo_type ob) = true /\
         mo_object ob = Some m) /\
    freed s' = freed s /\ logs s' = logs s /\
    MessageTagHandlerFind (req_name mreq) s' = Ret (Some m) s'.
Proof.
  intros Hl Hreq Hnone Hcap Hmod.
  destruct (Add_new_entry_full s l module mreq Hl Hreq Hnone Hcap Hmod)
    as (m & s' & x & H1 & H2 & H3 & H4 & H5 & H6 & H7 & H8 & H9 & H10 & _ & H11).
  exists m, s', x. by split_and!.
Qed.

Lemma s_two_names (token : string) :
  stricmp token "msgid" = false -> stricmp token "typing" = false ->
  forall a y, a ∈ [2; 1]%positive -> mtags s_two !! a = Some y ->
              stricmp token (name y) = false.
Proof.
  intros H2 H1 a y Ha Hy.
  apply elem_of_cons in Ha as [->|Ha]; [|apply list_elem_of_singleton in Ha as ->].
  - vm_compute in Hy. injection Hy as <-. exact H2.
  - vm_compute in Hy. injection Hy as <-. exact H1.
Defined.

Lemma Add_new_entry_witness :
  exists m s',
    MessageTagHandlerAdd (Some 7%positive) (req_with "account" 2%positive) s_two
      = Ret (Some m) s' /\
    mtags s_two !! m = None /\
    is_list (mtags s') (mtaghandlers s') [m; 2; 1]%positive /\
    MessageTagHandlerFind "account" s' = Ret (Some m) s'.
Proof.
  destruct (Add_new_entry s_two [2; 1]%positive (Some 7%positive)
              (req_with "account" 2%positive))
    as (m & s' & x & Hadd & Hnew & Hl & _ & _ & _ & _ & _ & _ & _ & Hfind).
  - exact s_two_list.
  - right. split; [reflexivity|]. by eexists.
  - apply s_two_names; reflexivity.
  - intros c [= <-]. vm_compute. by eexists.
  - intros mo [= <-]. exact (s_two_owner 7%positive eq_refl).
  - exists m, s'. by split_and!.
Defined.

(** ** Registering and deleting *)

(** A delete outside a rehash, with what it does to the other objects. *)
Lemma Del_not_rehashing_heap s l1 e l2 x :
  is_list (mtags s) (mtaghandlers s) (l1 ++ e :: l2) ->
  mtags s !! e = Some x -> owner_ok s x -> cap_ok s e -> ircd_rehashing s = false ->
  exists s',
    MessageTagHandlerDel e s = Ret tt s' /\
    freed s' = {[e]} ∪ freed s /\
    clicaps s' = clear_cap (clicap_handler x) (clicaps s) /\
    is_list (mtags s') (mtaghandlers s') (l1 ++ l2) /\
    logs s' = logs s ++ unload_lines x /\
    forall a y, a ≠ e -> mtags s !! a = Some y ->
      exists y', mtags s' !! a = Some y' /\ same_payload y y'.
Proof.
  intros Hl Hx Hown Hcap Hre.
  destruct (Del_not_rehashing s l1 e l2 x Hl Hx Hown Hcap Hre) as (s' & HD & Hf & Hc & Hl').
  exists s'. split; [exact HD|]. split_and!; try done.
  - revert HD. rewrite Del_unfold. unfold bind at 1, get. rewrite Hre.
    destruct (commit_spec s l1 e l2 x Hl Hx) as (hd' & Hcm & _).
    { intros c Hcx. by eapply Hcap. }
    unfold bind at 1. rewrite Hcm.
    match goal with |- forget_owner _ ?st = _ -> _ => set (s1 := st) end.
    pose proof (heap_relinked_unlinked (mtags s) x e) as Hrel. rewrite Hx in Hrel.
    destruct (unlinked (mtags s) x !! e) as [x'|] eqn:Hx'; [|done].
    apply relinked_payload in Hrel as (_ & _ & _ & _ & Ho & _ & _).
    destruct (forget_owner_spec s1 e x') as (s2 & Hfo & _ & _ & _ & _ & _ & Hlg); [done| |].
    { intros mo Hmo. apply (Hown mo). congruence. }
    rewrite Hfo. intros [= <-]. exact Hlg.
  - intros a y Hne Hy. revert HD. rewrite Del_unfold. unfold bind at 1, get. rewrite Hre.
    destruct (commit_spec s l1 e l2 x Hl Hx) as (hd' & Hcm & _).
    { intros c Hcx. by eapply Hcap. }
    unfold bind at 1. rewrite Hcm.
    match goal with |- forget_owner _ ?st = _ -> _ => set (s1 := st) end.
    pose proof (heap_relinked_unlinked (mtags s) x) as Hrel.
    pose proof (Hrel e) as Hrele. rewrite Hx in Hrele.
    destruct (unlinked (mtags s) x !! e) as [x'|] eqn:Hx'; [|done].
    apply relinked_payload in Hrele as (_ & _ & _ & _ & Ho & _ & _).
    destruct (forget_owner_spec s1 e x') as (s2 & Hfo & _ & Hm2 & _); [done| |].
    { intros mo Hmo. apply (Hown mo). congruence. }
    rewrite Hfo. intros [= <-]. rewrite Hm2, lookup_alter_ne by done.
    subst s1. simpl. by apply (heap_relinked_payload (mtags s)).
Qed.

(** X4. Registering a new name and deleting it again outside a rehash. The
    list is the one of before the registration, the handler is freed (and
    no other), the back-reference of the capability of the request is
    NULL, the entries of before keep their contents, and a search for the
    name finds nothing again. *)
Theorem Add_then_Del_restores (s : State) (l : list addr) (module : ptr)
    (mreq : MessageTagHandlerInfo) :
  is_list (mtags s) (mtaghandlers s) l ->
  request_ok mreq ->
  (forall a y, a ∈ l -> mtags s !! a = Some y -> stricmp (req_name mreq) (name y) = false) ->
  (forall c, req_clicap_handler mreq = Some c -> is_Some (clicaps s !! c)) ->
  (forall mo, module = Some mo ->
     exists md ol, modules s !! mo = Some md /\ is_list (mobjs s) (objects md) ol) ->
  ircd_rehashing s = false ->
  exists m s1 s2,
    MessageTagHandlerAdd module mreq s = Ret (Some m) s1 /\
    MessageTagHandlerDel m s1 = Ret tt s2 /\
    is_list (mtags s2) (mtaghandlers s2) l /\
    freed s2 = {[m]} ∪ freed s /\
    clicaps s2 = clear_cap (req_clicap_handler mreq) (clicaps s) /\
    (forall a y, a ∈ l -> mtags s !! a = Some y ->
       exists y', mtags s2 !! a = Some y' /\ same_payload y y') /\
    MessageTagHandlerFind (req_name mreq) s2 = Ret None s2.
Proof.
  intros Hl Hreq Hnone Hcap Hmod Hre.
  destruct (Add_new_entry_full s l module mreq Hl Hreq Hnone Hcap Hmod)
    as (m & s1 & x & Hadd & Hnew & Hl1 & Hx & Hpx & Hothers & Hcaps & Hmods & Hf & Hlg &
        Hre1 & _).
  destruct Hpx as (Hn & _ & _ & _ & Hown & Hcx & _). simpl in Hown, Hcx.
  assert (forall a, a ∈ l -> a ≠ m) as Hne.
  { intros a Ha ->. destruct (dll_lookup _ _ _ _ _ (proj2 Hl) Ha) as [y Hy]. congruence. }
  destruct (Del_not_rehashing_heap s1 [] m l x Hl1 Hx)
    as (s2 & HD & Hf2 & Hc2 & Hl2 & _ & Hothers2).
  { intros mo Hmo. rewrite Hown in Hmo.
    destruct (Hmods mo Hmo) as (_ & ol & md' & o & _ & _ & _ & Hmd' & _ & Hol' & _).
    by exists md', (o :: ol). }
  { intros y c Hy Hcy. rewrite Hx in Hy. injection Hy as <-. rewrite Hcx in Hcy.
    rewrite Hcaps, Hcy. apply lookup_alter_is_Some. by apply Hcap. }
  { by rewrite Hre1. }
  assert (forall a y, a ∈ l -> mtags s !! a = Some y ->
            exists y', mtags s2 !! a = Some y' /\ same_payload y y') as Hkeep.
  { intros a y Ha Hy. destruct (Hothers a y (Hne a Ha) Hy) as (y1 & Hy1 & Hp1).
    destruct (Hothers2 a y1 (Hne a Ha) Hy1) as (y2 & Hy2 & Hp2).
    exists y2. split; [done|]. unfold same_payload in *.
    destruct Hp1 as (A1 & A2 & A3 & A4 & A5 & A6 & A7).
    destruct Hp2 as (B1 & B2 & B3 & B4 & B5 & B6 & B7).
    split_and!; congruence. }
  exists m, s1, s2. split; [exact Hadd|]. split; [exact HD|]. simpl in Hl2.
  split_and!; try done.
  - by rewrite Hf2, Hf.
  - rewrite Hc2, Hcx, Hcaps. destruct (req_clicap_handler mreq) as [c|]; [|done].
    simpl. apply alter_twice.
  - rewrite (Find_spec s2 _ l Hl2). f_equal. apply first_match_none.
    intros a Ha. destruct (dll_lookup _ _ _ _ _ (proj2 Hl) Ha) as [y Hy].
    destruct (Hkeep a y Ha Hy) as (y' & Hy' & Hp). exists y'. split; [done|].
    destruct Hp as (-> & _). by eapply Hnone.
Qed.

Lemma Add_then_Del_restores_witness :
  exists m s1 s2,
    MessageTagHandlerAdd (Some 7%positive) (req_with "account" 2%positive) s_two
      = Ret (Some m) s1 /\
    MessageTagHandlerDel m s1 = Ret tt s2 /\
    is_list (mtags s2) (mtaghandlers s2) [2; 1]%positive /\
    MessageTagHandlerFind "account" s2 = Ret None s2.
Proof.
  destruct (Add_then_Del_restores s_two [2; 1]%positive (Some 7%positive)
              (req_with "account" 2%positive))
    as (m & s1 & s2 & Hadd & Hdel & Hl & _ & _ & _ & Hfind).
  - exact s_two_list.
  - right. split; [reflexivity|]. by eexists.
  - apply s_two_names; reflexivity.
  - intros c [= <-]. vm_compute. by eexists.
  - intros mo [= <-]. exact (s_two_owner 7%positive eq_refl).
  - reflexivity.
  - exists m, s1, s2. by split_and!.
Defined.

Lemma swept_relinked (h h' : gmap addr MessageTagHandler) (l : list addr) :
  heap_relinked h h' ->
  (forall caps, swept_caps h' l caps = swept_caps h l caps) /\
  swept_lines h' l = swept_lines h l.
Proof.
  intros Hr. induction l as [|a l [IH1 IH2]]; [done|]. simpl.
  specialize (Hr a).
  destruct (h !! a) as [x|], (h' !! a) as [y|]; try done.
  apply relinked_payload in Hr as (Hn & _ & _ & _ & _ & Hc & Hu).
  unfold unload_lines. rewrite Hn, Hc, Hu, IH2. split; [|done]. intros caps. apply IH1.
Qed.

Lemma sweep_walk_full : forall (rest kept : list addr) fuel s cur,
  is_list (mtags s) (mtaghandlers s) (kept ++ rest) ->
  cur = head rest ->
  (forall a, a ∈ rest -> cap_ok s a) ->
  (length rest < fuel)%nat ->
  exists s',
    unload_all_walk fuel cur s = Ret tt s' /\
    clicaps s' = swept_caps (mtags s) rest (clicaps s) /\
    logs s' = logs s ++ swept_lines (mtags s) rest /\
    modules s' = modules s /\ mobjs s' = mobjs s /\
    ircd_rehashing s' = ircd_rehashing s.
Proof.
  induction rest as [|a rest IH]; intros kept fuel s cur Hl -> Hall Hlen;
    (destruct fuel as [|fuel]; [simpl in Hlen; lia|]); simpl in *.
  - exists s. split_and!; try done. by rewrite app_nil_r.
  - destruct (dll_mid _ _ _ _ _ _ (proj2 Hl)) as (x & Hx & _ & Hd2).
    pose proof (dll_head _ _ _ _ Hd2) as Hnext.
    mbind ltac:(by apply load_eq). rewrite Hx.
    destruct (unloaded x) eqn:Hun.
    + destruct (commit_spec s kept a rest x Hl Hx) as (hd' & Hc & Hl').
      { intros c Hcx. by eapply (Hall a ltac:(left)). }
      mbind ltac:(exact Hc).
      pose proof (heap_relinked_unlinked (mtags s) x) as Hrel.
      match type of Hc with _ = Ret _ ?st => set (s1 := st) in * end.
      edestruct (IH kept fuel s1) as (s' & Hw & Hcaps & Hlogs & Hmods & Hobjs & Hre);
        [exact Hl' | exact Hnext | | lia | ].
      { intros b Hb y c Hy Hcy. simpl in Hy. apply clear_cap_is_Some.
        destruct (heap_relinked_payload_inv _ _ b y Hrel Hy) as (y0 & Hy0 & Hp).
        eapply (Hall b ltac:(by right)); [exact Hy0|].
        destruct Hp as (_ & _ & _ & _ & _ & Hcc & _). congruence. }
      exists s'. split; [exact Hw|]. simpl in *.
      destruct (swept_relinked _ _ rest Hrel) as [E1 E2].
      rewrite Hcaps, Hlogs, E1, E2, <- app_assoc. by split_and!.
    + mbind ltac:(reflexivity).
      edestruct (IH (kept ++ [a]) fuel s) as (s' & Hw & Hrest);
        [by rewrite <- app_assoc | exact Hnext | | lia | ].
      { intros b Hb. apply Hall. by right. }
      exists s'. split; [exact Hw|]. exact Hrest.
Qed.

(** With no entry marked unloaded the sweep changes nothing. *)
Lemma sweep_walk_idle : forall (l : list addr) fuel s pv cur,
  dll (mtags s) pv cur l ->
  (forall a, a ∈ l -> is_unloaded s a = false) ->
  (length l < fuel)%nat ->
  unload_all_walk fuel cur s = Ret tt s.
Proof.
  induction l as [|a l IH]; intros fuel s pv cur Hd Hall Hlen;
    (destruct fuel as [|fuel]; [simpl in Hlen; lia|]); simpl in *.
  - by subst.
  - destruct Hd as [-> (x & Hx & _ & Hd)].
    mbind ltac:(by apply load_eq).
    pose proof (Hall a ltac:(left)) as Hu. unfold is_unloaded in Hu. rewrite Hx in Hu.
    rewrite Hu. mbind ltac:(reflexivity).
    eapply IH; [exact Hd| |lia]. intros b Hb. apply Hall. by right.
Qed.

(** X5. The sweep unload_all_unused_mtag_handlers on a well-formed registry
    with valid capability pointers returns. The list is then the old list
    without the entries that were marked unloaded, the others in their
    order; every object keeps its contents but for the links, so no entry
    of the list is marked unloaded; the capabilities are those of before
    with the back-reference cleared for each unloaded entry that had one;
    two lines are logged for each unloaded entry, in list order; the
    modules are as before. With no entry marked unloaded the state is the
    one of before. *)
Theorem sweep_keeps_the_active (s : State) (l : list addr) :
  is_list (mtags s) (mtaghandlers s) l ->
  (forall a, a ∈ l -> cap_ok s a) ->
  exists s',
    unload_all_unused_mtag_handlers s = Ret tt s' /\
    is_list (mtags s') (mtaghandlers s')
      (filter (fun a => is_unloaded s a = false) l) /\
    (forall a y, mtags s !! a = Some y ->
       exists y', mtags s' !! a = Some y' /\ same_payload y y') /\
    (forall a, a ∈ filter (fun a => is_unloaded s a = false) l ->
       is_unloaded s' a = false) /\
    clicaps s' = swept_caps (mtags s) l (clicaps s) /\
    logs s' = logs s ++ swept_lines (mtags s) l /\
    modules s' = modules s /\ mobjs s' = mobjs s /\
    ((forall a, a ∈ l -> is_unloaded s a = false) -> s' = s).
Proof.
  intros Hl Hcap. pose proof (is_list_length _ _ _ Hl) as Hlen.
  pose proof (dll_head _ _ _ _ (proj2 Hl)) as Hhead.
  destruct (sweep_walk_spec (is_unloaded s) l [] (S (size (mtags s))) s (mtaghandlers s))
    as (s' & Hw & _ & Hl' & Hrel); try done; [by intros a Ha; split; [|apply Hcap]|lia|].
  destruct (sweep_walk_full l [] (S (size (mtags s))) s (mtaghandlers s))
    as (s2 & Hw2 & Hcaps & Hlogs & Hmods & Hobjs & _); try done; [lia|].
  rewrite Hw in Hw2. injection Hw2 as <-.
  exists s'. split; [exact Hw|]. split_and!; try done.
  - intros a y Hy. by apply (heap_relinked_payload (mtags s)).
  - intros a [Ha _]%list_elem_of_filter. unfold is_unloaded in *.
    destruct (mtags s !! a) as [y|] eqn:Hy.
    + destruct (heap_relinked_payload _ _ a y Hrel Hy) as (y' & -> & Hp).
      destruct Hp as (_ & _ & _ & _ & _ & _ & ->). done.
    + specialize (Hrel a). rewrite Hy in Hrel. by destruct (mtags s' !! a).
  - intros Hidle.
    assert (unload_all_unused_mtag_handlers s = Ret tt s) as Hs.
    { unfold unload_all_unused_mtag_handlers.
      eapply sweep_walk_idle; [exact (proj2 Hl)|exact Hidle|lia]. }
    unfold unload_all_unused_mtag_handlers in Hs. rewrite Hw in Hs. by injection Hs.
Qed.

Lemma s_before_revive_list :
  is_list (mtags s_before_revive) (mtaghandlers s_before_revive) [2; 1]%positive.
Proof.
  split.
  - apply NoDup_cons. split; [set_solver|apply NoDup_singleton].
  - split; [reflexivity|]. eexists. split; [vm_compute; reflexivity|].
    split; [reflexivity|]. split; [reflexivity|].
    eexists. split; [vm_compute; reflexivity|]. by split.
Defined.

Lemma sweep_keeps_the_active_witness :
  exists s',
    unload_all_unused_mtag_handlers s_before_revive = Ret tt s' /\
    is_list (mtags s') (mtaghandlers s') [2%positive] /\
    logs s' = [ircd_log_ERROR "Unloading message-tag handler for 'msgid'";
               sendto_realops "Unloading message-tag handler for 'msgid'"].
Proof.
  destruct (sweep_keeps_the_active s_before_revive [2; 1]%positive)
    as (s' & Hs & Hl & _ & _ & _ & Hlogs & _).
  - exact s_before_revive_list.
  - intros a Ha y c Hy Hc.
    apply elem_of_cons in Ha as [->|Ha]; [|apply list_elem_of_singleton in Ha as ->];
      vm_compute in Hy; injection Hy as <-; discriminate Hc.
  - exists s'. split; [exact Hs|]. split; [exact Hl|]. exact Hlogs.
Defined.

(** ** Deleting in two phases *)

Lemma filter_all {A : Type} (P : A -> Prop) `{forall a, Decision (P a)} (l : list A) :
  (forall a, a ∈ l -> P a) -> filter P l = l.
Proof.
  induction l as [|a l IH]; intros Hall; [done|].
  rewrite filter_cons, decide_True by (apply Hall; left).
  f_equal. apply IH. intros b Hb. apply Hall. by right.
Qed.

Lemma filter_none {A : Type} (P : A -> Prop) `{forall a, Decision (P a)} (l : list A) :
  (forall a, a ∈ l -> ~ P a) -> filter P l = [].
Proof.
  induction l as [|a l IH]; intros Hall; [done|].
  rewrite filter_cons, decide_False by (apply Hall; left).
  apply IH. intros b Hb. apply Hall. by right.
Qed.

Lemma swept_idle (h : gmap addr MessageTagHandler) (l : list addr) caps :
  (forall a, a ∈ l -> exists y, h !! a = Some y /\ unloaded y = false) ->
  swept_caps h l caps = caps /\ swept_lines h l = [].
Proof.
  induction l as [|a l IH]; intros Hall; [done|]. simpl.
  destruct (Hall a ltac:(left)) as (y & -> & ->).
  apply IH. intros b Hb. apply Hall. by right.
Qed.

Lemma swept_single (h : gmap addr MessageTagHandler) (l1 l2 : list addr) e x caps :
  (forall a, a ∈ l1 ++ l2 -> exists y, h !! a = Some y /\ unloaded y = false) ->
  h !! e = Some x -> unloaded x = true ->
  swept_caps h (l1 ++ e :: l2) caps = clear_cap (clicap_handler x) caps /\
  swept_lines h (l1 ++ e :: l2) = unload_lines x.
Proof.
  intros Hall Hx Hu. induction l1 as [|a l1 IH]; simpl.
  - rewrite Hx, Hu.
    destruct (swept_idle h l2 (clear_cap (clicap_handler x) caps)) as [-> ->]; [|done].
    intros a Ha. by apply Hall.
  - destruct (Hall a ltac:(left)) as (y & -> & ->). simpl.
    apply IH. intros b Hb. apply Hall. by right.
Qed.

(** X6. A delete during a rehash followed by the sweep, when no other entry
    is marked unloaded, gives what a delete outside a rehash gives: the
    entry is out of the list, the others in their order, the entry is
    freed and nothing else is, the back-reference of its capability is
    cleared and the other capabilities are as before. The two lines of
    the commit are logged by the sweep. *)
Theorem rehash_delete_then_sweep (s : State) (l1 l2 : list addr) (e : addr)
    (x : MessageTagHandler) :
  is_list (mtags s) (mtaghandlers s) (l1 ++ e :: l2) ->
  mtags s !! e = Some x ->
  (forall a, a ∈ l1 ++ e :: l2 -> cap_ok s a) ->
  owner_ok s x ->
  ircd_rehashing s = true ->
  (forall a, a ∈ l1 ++ l2 -> is_unloaded s a = false) ->
  exists s1 s2 s3,
    MessageTagHandlerDel e s = Ret tt s1 /\
    unload_all_unused_mtag_handlers s1 = Ret tt s2 /\
    MessageTagHandlerDel e (with_rehashing false s) = Ret tt s3 /\
    is_list (mtags s2) (mtaghandlers s2) (l1 ++ l2) /\
    is_list (mtags s3) (mtaghandlers s3) (l1 ++ l2) /\
    freed s2 = {[e]} ∪ freed s /\ freed s3 = {[e]} ∪ freed s /\
    clicaps s2 = clear_cap (clicap_handler x) (clicaps s) /\
    clicaps s3 = clear_cap (clicap_handler x) (clicaps s) /\
    logs s2 = logs s1 ++ unload_lines x.
Proof.
  intros Hl Hx Hcap Hown Hre Hact.
  destruct (Del_rehashing s _ e x Hl Hx Hown Hre)
    as (s1 & HD & Hm & Hh & Hf & Hc & _ & Hl1).
  destruct (Del_not_rehashing (with_rehashing false s) l1 e l2 x Hl Hx Hown)
    as (s3 & HD3 & Hf3 & Hc3 & Hl3); [apply Hcap; set_solver|done|].
  assert (e ∉ l1 ++ l2) as Hne.
  { destruct Hl as [Hnd _]. apply NoDup_app in Hnd as (_ & H2 & H3).
    apply NoDup_cons in H3 as [H3 _]. intros [Hin|Hin]%elem_of_app; [|done].
    apply (H2 e Hin). by left. }
  assert (is_unloaded s1 e = true) as Hue.
  { unfold is_unloaded. by rewrite Hm, lookup_alter_eq, Hx. }
  assert (forall a, a ∈ l1 ++ l2 ->
            exists y, mtags s1 !! a = Some y /\ unloaded y = false) as Hothers.
  { intros a Ha. assert (a ≠ e) as Hae by (intros ->; done).
    rewrite Hm, lookup_alter_ne by done.
    destruct (dll_lookup _ _ _ _ a (proj2 Hl)) as [y Hy]; [set_solver|].
    exists y. split; [done|]. specialize (Hact a Ha). unfold is_unloaded in Hact.
    by rewrite Hy in Hact. }
  assert (forall a, a ∈ l1 ++ l2 -> is_unloaded s1 a = false) as Hact1.
  { intros a Ha. destruct (Hothers a Ha) as (y & Hy & Hu). unfold is_unloaded.
    by rewrite Hy. }
  assert (forall a, a ∈ l1 ++ e :: l2 -> cap_ok s1 a) as Hcap1.
  { intros a Ha y c Hy Hcy. rewrite Hc. rewrite Hm in Hy.
    destruct (decide (a = e)) as [->|Hae].
    - rewrite lookup_alter_eq, Hx in Hy. injection Hy as <-.
      by eapply (Hcap e Ha).
    - rewrite lookup_alter_ne in Hy by done. by eapply (Hcap a Ha). }
  pose proof (is_list_length _ _ _ Hl1) as Hlen.
  pose proof (dll_head _ _ _ _ (proj2 Hl1)) as Hhead.
  destruct (sweep_walk_spec (is_unloaded s1) (l1 ++ e :: l2) [] (S (size (mtags s1))) s1
              (mtaghandlers s1))
    as (s2 & Hw & Hf2 & Hl2 & _); try done; [by intros a Ha; split; [|apply Hcap1]|lia|].
  destruct (sweep_walk_full (l1 ++ e :: l2) [] (S (size (mtags s1))) s1 (mtaghandlers s1))
    as (s2' & Hw2 & Hcaps & Hlogs & _); try done; [lia|].
  rewrite Hw in Hw2. injection Hw2 as <-.
  assert (filter (fun a => is_unloaded s1 a = false) (l1 ++ e :: l2) = l1 ++ l2) as Hkeep.
  { rewrite filter_app, filter_cons, decide_False by (rewrite Hue; done).
    rewrite !filter_all; [done| |]; intros a Ha; apply Hact1; set_solver. }
  assert (filter (fun a => is_unloaded s1 a = true) (l1 ++ e :: l2) = [e]) as Hdrop.
  { rewrite filter_app, filter_cons, decide_True by done.
    rewrite !filter_none; [done| |]; intros a Ha; rewrite Hact1; [done| |done|];
      set_solver. }
  destruct (swept_single (mtags s1) l1 l2 e (set_owner None (set_unloaded true x))
              (clicaps s1) Hothers) as [E1 E2]; [by rewrite Hm, lookup_alter_eq, Hx|done|].
  exists s1, s2, s3. split; [exact HD|]. split; [exact Hw|]. split; [exact HD3|].
  simpl in Hl2. rewrite Hkeep in Hl2. split_and!; try done.
  - rewrite Hf2, Hdrop, Hf. set_solver.
  - by rewrite Hcaps, E1, Hc.
  - by rewrite Hlogs, E2.
Qed.

Lemma first_match_alter (h : gmap addr MessageTagHandler) (f : MessageTagHandler -> MessageTagHandler)
    (e : addr) (token : string) (l : list addr) :
  (forall y, name (f y) = name y) ->
  first_match (alter f e h) token l = first_match h token l.
Proof.
  intros Hf. induction l as [|a l IH]; [done|]. simpl.
  destruct (decide (e = a)) as [->|Hne].
  - rewrite lookup_alter_eq. destruct (h !! a) as [y|]; simpl; [|done].
    by rewrite Hf, IH.
  - rewrite lookup_alter_ne by done. by rewrite IH.
Qed.

(** X7. MessageTagHandlerFind does not look at the unloaded flag: a delete
    during a rehash changes no search result. The entry deleted is still
    returned for its name (when it was before), now marked unloaded, until
    the sweep takes it out. *)
Theorem deleted_in_rehash_still_found (s : State) (l : list addr) (e : addr)
    (x : MessageTagHandler) :
  is_list (mtags s) (mtaghandlers s) l ->
  mtags s !! e = Some x -> owner_ok s x -> ircd_rehashing s = true ->
  exists s1,
    MessageTagHandlerDel e s = Ret tt s1 /\
    is_unloaded s1 e = true /\
    forall token, exists r,
      MessageTagHandlerFind token s = Ret r s /\
      MessageTagHandlerFind token s1 = Ret r s1.
Proof.
  intros Hl Hx Hown Hre.
  destruct (Del_rehashing s l e x Hl Hx Hown Hre) as (s1 & HD & Hm & Hh & _ & _ & _ & Hl1).
  exists s1. split; [exact HD|]. split.
  - unfold is_unloaded. by rewrite Hm, lookup_alter_eq, Hx.
  - intros token. exists (first_match (mtags s) token l).
    split; [by apply Find_spec|].
    rewrite (Find_spec s1 token l Hl1), Hm. by rewrite first_match_alter.
Qed.

Lemma deleted_in_rehash_still_found_witness :
  exists s1,
    MessageTagHandlerDel 1%positive (with_rehashing true s_two) = Ret tt s1 /\
    is_unloaded s1 1%positive = true /\
    MessageTagHandlerFind "typing" s1 = Ret (Some 1%positive) s1.
Proof.
  destruct (deleted_in_rehash_still_found (with_rehashing true s_two) [2; 1]%positive
              1%positive x_typing) as (s1 & HD & Hu & Hfind).
  - exact s_two_list.
  - vm_compute. reflexivity.
  - exact s_two_owner.
  - reflexivity.
  - exists s1. split; [exact HD|]. split; [exact Hu|].
    destruct (Hfind "typing") as (r & Hr & Hr1).
    assert (r = Some 1%positive) as ->; [|exact Hr1].
    vm_compute in Hr. by injection Hr as <-.
Defined.

Lemma rehash_delete_then_sweep_witness :
  exists s1 s2,
    MessageTagHandlerDel 1%positive (with_rehashing true s_two) = Ret tt s1 /\
    unload_all_unused_mtag_handlers s1 = Ret tt s2 /\
    is_list (mtags s2) (mtaghandlers s2) [2%positive] /\
    freed s2 = {[1%positive]} ∪ freed s_two /\
    clicaps s2 = clear_cap (Some 1%positive) (clicaps s_two).
Proof.
  destruct (rehash_delete_then_sweep (with_rehashing true s_two) [2%positive] []
              1%positive x_typing)
    as (s1 & s2 & s3 & HD & Hs & _ & Hl & _ & Hf & _ & Hc & _).
  - exact s_two_list.
  - vm_compute. reflexivity.
  - intros a Ha. exact (proj2 (s_two_caps a Ha)).
  - exact s_two_owner.
  - reflexivity.
  - intros a Ha. apply list_elem_of_singleton in Ha as ->. vm_compute. reflexivity.
  - exists s1, s2. by split_and!.
Defined.

End MtagOperations.

Module ChannelDbBehaviour.
Import ChannelDb ChannelDbSpec ChannelDbTerms ChannelDbFacts ChannelDbTheorems.

Section WithModes.
Context {Mode : Type} `{ChannelModes Mode}.
Implicit Types (w : World Mode) (c : Channel Mode).
(* The writer's specification, at the modes of this section. *)
Local Notation wspec := (wspec (Mode:=Mode)) (only parsing).

Ltac untouched_now :=
  split_and!; try done;
  first [ by (exists []; simpl; rewrite app_nil_r) | by (simpl; eexists) ].

Lemma untouched_refl w : untouched w w.
Proof. untouched_now. Qed.

Lemma untouched_trans w1 w2 w3 : untouched w1 w2 -> untouched w2 w3 -> untouched w1 w3.
Proof.
  intros (A1 & A2 & A3 & A4 & A5 & (la & A6) & (ta & A7))
         (B1 & B2 & B3 & B4 & B5 & (lb & B6) & (tb & B7)).
  split_and!; try congruence.
  - exists (la ++ lb). by rewrite B6, A6, app_assoc.
  - exists (ta ++ tb). by rewrite B7, A7, app_assoc.
Qed.

Lemma reads_only_ret {A : Type} (a : A) : reads_only (ret a : M (World Mode) A).
Proof. intros w r w' [= _ <-]. apply untouched_refl. Qed.

Lemma reads_only_bind {A B : Type} (f : M (World Mode) A) (k : A -> M (World Mode) B) :
  reads_only f -> (forall a, reads_only (k a)) -> reads_only (bind f k).
Proof.
  intros Hf Hk w r w' Hb. apply bind_inv in Hb as (a & w1 & Ha & Hb).
  eapply untouched_trans; [by eapply Hf|by eapply Hk].
Qed.

Lemma reads_only_modify (f : World Mode -> World Mode) :
  (forall w, untouched w (f w)) -> reads_only (modify f).
Proof. intros Hf w r w' [= _ <-]. apply Hf. Qed.

Lemma reads_only_fault {A : Type} : reads_only (fault : M (World Mode) A).
Proof. intros w r w' Hf. discriminate Hf. Qed.

Lemma reads_only_get : reads_only (get : M (World Mode) (World Mode)).
Proof. intros w r w' [= _ <-]. apply untouched_refl. Qed.

Lemma reads_only_log (l : LogLine) : reads_only (log l : M (World Mode) unit).
Proof.
  apply reads_only_modify. intros w. untouched_now.
Qed.

Lemma reads_only_called (c : SysCall) : reads_only (called c : M (World Mode) unit).
Proof.
  apply reads_only_modify. intros w. untouched_now.
Qed.

Lemma reads_only_next_result : reads_only (next_result : M (World Mode) IoResult).
Proof.
  intros w r w'. unfold next_result. destruct (faults w); intros [= _ <-];
    untouched_now.
Qed.

Lemma reads_only_read_data (n : nat) : reads_only (read_data n : M (World Mode) _).
Proof.
  intros w r w'. unfold read_data. destruct (_ <? _)%nat; intros [= _ <-];
    untouched_now.
Qed.

Ltac reads :=
  repeat first
    [ apply reads_only_ret | apply reads_only_fault | apply reads_only_get
    | apply reads_only_log | apply reads_only_called | apply reads_only_next_result
    | apply reads_only_read_data
    | apply reads_only_bind; [|intros ?]
    | apply reads_only_modify; intros ?; untouched_now
    | match goal with
      | |- reads_only (match ?x with _ => _ end) => destruct x
      | |- reads_only (if ?b then _ else _) => destruct b
      end ].

Lemma reads_only_read_str : reads_only (read_str : M (World Mode) _).
Proof. unfold read_str. reads. Qed.

Lemma reads_only_fclose : reads_only (fclose : M (World Mode) _).
Proof. unfold fclose. reads. Qed.

Lemma reads_only_fopen_rb path : reads_only (fopen_rb path : M (World Mode) _).
Proof. unfold fopen_rb. reads. Qed.

Lemma reads_only_get_channel_CREATE nm :
  reads_only (get_channel_CREATE nm : M (World Mode) _).
Proof. unfold get_channel_CREATE. reads. Qed.

Lemma reads_only_update_channel ch f :
  reads_only (update_channel ch f : M (World Mode) _).
Proof. unfold update_channel. reads. Qed.

Lemma reads_only_set_channel_mode ch m p :
  reads_only (set_channel_mode ch m p : M (World Mode) _).
Proof. unfold set_channel_mode. reads; apply reads_only_update_channel. Qed.

Lemma reads_only_R_SAFE_listmode {A : Type} (x : M (World Mode) (option A)) k :
  reads_only x -> (forall a, reads_only (k a)) -> reads_only (R_SAFE_listmode x k).
Proof. intros Hx Hk. unfold R_SAFE_listmode. reads; [exact Hx|apply Hk]. Qed.

Lemma reads_only_read_listmode_entries n ch getl setl :
  reads_only (read_listmode_entries n ch getl setl : M (World Mode) _).
Proof.
  induction n as [|n IH]; simpl; [apply reads_only_ret|].
  apply reads_only_R_SAFE_listmode; [apply reads_only_read_str|intros ?].
  apply reads_only_R_SAFE_listmode; [apply reads_only_read_str|intros ?].
  apply reads_only_R_SAFE_listmode; [apply reads_only_read_data|intros ?].
  apply reads_only_bind; [apply reads_only_update_channel|intros _; exact IH].
Qed.

Lemma reads_only_read_listmode ch getl setl :
  reads_only (read_listmode ch getl setl : M (World Mode) _).
Proof.
  unfold read_listmode.
  apply reads_only_R_SAFE_listmode; [apply reads_only_read_data|intros ?].
  apply reads_only_read_listmode_entries.
Qed.

Lemma reads_only_R_SAFE {A : Type} added (x : M (World Mode) (option A)) k :
  reads_only x -> (forall a, reads_only (k a)) -> reads_only (R_SAFE added x k).
Proof.
  intros Hx Hk. unfold R_SAFE.
  apply reads_only_bind; [exact Hx|intros [a|]]; [apply Hk|].
  apply reads_only_bind; [apply reads_only_log|intros _].
  apply reads_only_bind; [apply reads_only_fclose|intros _]. apply reads_only_ret.
Qed.

Lemma reads_only_nonzero (x : M (World Mode) bool) :
  reads_only x -> reads_only (nonzero x).
Proof. intros Hx. unfold nonzero. apply reads_only_bind; [exact Hx|intros ?]. apply reads_only_ret. Qed.

Lemma reads_only_read_channel_entry added :
  reads_only (read_channel_entry added : M (World Mode) _).
Proof.
  unfold read_channel_entry.
  repeat first
    [ apply reads_only_R_SAFE; [|intros ?]
    | apply reads_only_read_data | apply reads_only_read_str
    | apply reads_only_nonzero; apply reads_only_read_listmode
    | apply reads_only_get_channel_CREATE | apply reads_only_update_channel
    | apply reads_only_set_channel_mode
    | apply reads_only_log | apply reads_only_ret
    | apply reads_only_bind; [|intros ?]
    | match goal with |- reads_only (if ?b then _ else _) => destruct b end ].
Qed.

Lemma reads_only_read_channel_entries n : forall added,
  reads_only (read_channel_entries n added : M (World Mode) _).
Proof.
  induction n as [|n IH]; intros added; simpl; [apply reads_only_ret|].
  apply reads_only_bind; [apply reads_only_read_channel_entry|].
  intros [[| |] added']; [apply IH|apply reads_only_ret|apply reads_only_ret].
Qed.

Lemma reads_only_R_SAFE0 {A : Type} (x : M (World Mode) (option A)) k :
  reads_only x -> (forall a, reads_only (k a)) -> reads_only (R_SAFE0 x k).
Proof.
  intros Hx Hk. unfold R_SAFE0.
  apply reads_only_bind; [exact Hx|intros [a|]]; [apply Hk|].
  apply reads_only_bind; [apply reads_only_log|intros _].
  apply reads_only_bind; [apply reads_only_fclose|intros _]. apply reads_only_ret.
Qed.

Lemma reads_only_read_channeldb : reads_only (read_channeldb : M (World Mode) Z).
Proof.
  unfold read_channeldb.
  apply reads_only_bind; [apply reads_only_get|intros w0].
  apply reads_only_bind; [apply reads_only_fopen_rb|intros [e|]].
  - destruct (e =? ENOENT); (apply reads_only_bind; [apply reads_only_log|intros _]);
      apply reads_only_ret.
  - apply reads_only_R_SAFE0; [apply reads_only_read_data|intros version].
    destruct (_ <? _).
    + apply reads_only_bind; [apply reads_only_log|intros _].
      apply reads_only_bind; [apply reads_only_fclose|intros _]. apply reads_only_ret.
    + apply reads_only_R_SAFE0; [apply reads_only_read_data|intros count].
      apply reads_only_bind; [apply reads_only_read_channel_entries|intros [[|] added]].
      * apply reads_only_bind; [apply reads_only_fclose|intros _].
        apply reads_only_bind; [|intros _; apply reads_only_ret].
        destruct (negb _); [apply reads_only_log|apply reads_only_ret].
      * apply reads_only_ret.
Qed.

Lemma yields_ret {A : Type} (P : A -> Prop) (a : A) :
  P a -> yields P (ret a : M (World Mode) A).
Proof. intros Ha w r w' [= <- _]. exact Ha. Qed.

Lemma yields_bind {A B : Type} (P : B -> Prop) (f : M (World Mode) A) k :
  (forall a, yields P (k a)) -> yields P (bind f k).
Proof. intros Hk w r w' Hb. apply bind_inv in Hb as (a & w1 & _ & Hb). by eapply Hk. Qed.

Lemma read_channeldb_result : yields (fun r => r = 0 \/ r = 1) (read_channeldb (Mode := Mode)).
Proof.
  unfold read_channeldb.
  apply yields_bind. intros w0. apply yields_bind. intros [e|].
  - destruct (e =? ENOENT); apply yields_bind; intros _; apply yields_ret; auto.
  - unfold R_SAFE0. apply yields_bind. intros [version|].
    2:{ do 2 (apply yields_bind; intros ?). apply yields_ret; auto. }
    destruct (_ <? _).
    + do 2 (apply yields_bind; intros ?). apply yields_ret; auto.
    + apply yields_bind. intros [count|].
      2:{ do 2 (apply yields_bind; intros ?). apply yields_ret; auto. }
      apply yields_bind. intros [[|] added].
      * do 2 (apply yields_bind; intros ?). apply yields_ret; auto.
      * apply yields_ret; auto.
Qed.

(** X8. Whatever the database file holds and whatever fails, read_channeldb,
    when it returns, has changed no file, not the configured path, not the
    loaded flag, no persistent variable and no timer; it has only added
    lines to the log and calls to the trace (and read the stream and
    changed the channel list). Its result is 0 or 1. *)
Theorem read_channeldb_writes_nothing (w : World Mode) (r : Z) (w' : World Mode) :
  read_channeldb w = Ret r w' ->
  files w' = files w /\ database w' = database w /\
  channeldb_loaded w' = channeldb_loaded w /\ persistent w' = persistent w /\
  timers w' = timers w /\
  (exists ls, logs w' = logs w ++ ls) /\ (exists tr, syscalls w' = syscalls w ++ tr) /\
  (r = 0 \/ r = 1).
Proof.
  intros Hr.
  pose proof (reads_only_read_channeldb w r w' Hr) as (A1 & A2 & A3 & A4 & A5 & A6 & A7).
  split_and!; try done. exact (read_channeldb_result w r w' Hr).
Qed.

(** ** Files with a bad header *)

Lemma read_data_short (n : nat) w :
  (length (rstream w) < n)%nat -> read_data n w = Ret None (with_rstream [] w).
Proof.
  intros Hlt. unfold read_data.
  destruct (Nat.ltb_spec (length (rstream w)) n) as [_|?]; [done|lia].
Qed.

Lemma read_data_enough (n : nat) w :
  (n <= length (rstream w))%nat ->
  read_data n w = Ret (Some (take n (rstream w))) (with_rstream (drop n (rstream w)) w).
Proof.
  intros Hle. unfold read_data.
  destruct (Nat.ltb_spec (length (rstream w)) n) as [?|_]; [lia|done].
Qed.

Lemma R_SAFE0_fail {A : Type} (x : M (World Mode) (option A)) k w w1 :
  x w = Ret None w1 ->
  R_SAFE0 x k w = Ret 0 (closed (with_logs (logs w1 ++ [warn_read_error]) w1)).
Proof.
  intros Hx. unfold R_SAFE0. mstep ltac:(exact Hx). mstep ltac:(reflexivity).
  by mstep ltac:(apply fclose_eq).
Qed.

Lemma R_SAFE0_ok {A : Type} (x : M (World Mode) (option A)) k w a w1 :
  x w = Ret (Some a) w1 -> R_SAFE0 x k w = k a w1.
Proof. intros Hx. unfold R_SAFE0. by mstep ltac:(exact Hx). Qed.

(** X9. A database written by a newer version: when the first word of the
    file is above CHANNELDB_VERSION, read_channeldb warns of the wrong
    version, closes the file and returns 0; nothing after the word is read
    and the channel list is as before. *)
Theorem read_channeldb_newer_version (w : World Mode) (v : Z) (rest : list byte) :
  files w !! database w = Some (le_bytes 4 v ++ rest) ->
  head_ok w = true ->
  CHANNELDB_VERSION < v < 2 ^ 32 ->
  exists w' ok,
    read_channeldb w = Ret 0 w' /\
    channels w' = channels w /\
    logs w' = logs w ++ [warn_wrong_version v] /\
    syscalls w' = syscalls w ++ [sys_fopen (database w) false true; sys_fclose ok] /\
    rstream w' = rest.
Proof.
  intros Hfile Hopen Hv.
  unfold read_channeldb. mstep ltac:(reflexivity).
  mstep ltac:(by apply (fopen_rb_ok _ _ _ Hopen Hfile)).
  match goal with |- context [R_SAFE0 _ _ ?st] => set (w1 := st) end.
  pose proof (read_data_cut (le_bytes 4 v) rest (4 + length rest) w1) as Hr.
  rewrite length_le_bytes in Hr. destruct Hr as [[Hlt _]|[_ Hr]]; [|lia|].
  { subst w1. cbn [rstream with_rstream]. rewrite take_ge; [done|].
    rewrite length_app, length_le_bytes. lia. }
  assert (0 <= v < 2 ^ 32) as Hv32 by (unfold CHANNELDB_VERSION in Hv; lia).
  rewrite (R_SAFE0_ok _ _ _ _ _ Hr). rewrite le_value_le32 by exact Hv32.
  destruct (Z.ltb_spec CHANNELDB_VERSION v) as [_|?]; [|lia].
  mstep ltac:(reflexivity). mstep ltac:(apply fclose_eq).
  eexists _, _. split; [reflexivity|]. simpl. split_and!; try done.
  - by rewrite <- app_assoc.
  - apply take_ge. lia.
Qed.

(** X10. A file shorter than its header, the empty file among them: when
    fewer than 12 bytes are there (and the version, if it is there, is
    not above CHANNELDB_VERSION), read_channeldb logs a read error, closes
    the file and returns 0, with the channel list as before. *)
Theorem read_channeldb_short_header (w : World Mode) (content : list byte) :
  files w !! database w = Some content ->
  head_ok w = true ->
  (length content < 12)%nat ->
  le_value (take 4 content) <= CHANNELDB_VERSION ->
  exists w' ok,
    read_channeldb w = Ret 0 w' /\
    channels w' = channels w /\
    logs w' = logs w ++ [warn_read_error] /\
    syscalls w' = syscalls w ++ [sys_fopen (database w) false true; sys_fclose ok] /\
    rstream w' = [].
Proof.
  intros Hfile Hopen Hlen Hv.
  unfold read_channeldb. mstep ltac:(reflexivity).
  mstep ltac:(by apply (fopen_rb_ok _ _ _ Hopen Hfile)).
  match goal with |- context [R_SAFE0 _ _ ?st] => set (w1 := st) end.
  assert (rstream w1 = content) as Hs1 by done.
  destruct (Nat.lt_ge_cases (length content) 4) as [Hshort|Hlong].
  - rewrite (R_SAFE0_fail _ _ _ _ (read_data_short 4 w1 ltac:(rewrite Hs1; lia))).
    eexists _, _. split; [reflexivity|]. simpl. split_and!; try done.
    by rewrite <- app_assoc.
  - rewrite (R_SAFE0_ok _ _ _ _ _ (read_data_enough 4 w1 ltac:(rewrite Hs1; lia))).
    rewrite Hs1.
    destruct (Z.ltb_spec CHANNELDB_VERSION (le_value (take 4 content))) as [?|_]; [lia|].
    match goal with |- context [R_SAFE0 _ _ ?st] => set (w2 := st) end.
    rewrite (R_SAFE0_fail _ _ _ _ (read_data_short 8 w2
               ltac:(subst w2; cbn [rstream with_rstream]; rewrite length_drop; lia))).
    eexists _, _. split; [reflexivity|]. simpl. split_and!; try done.
    by rewrite <- app_assoc.
Qed.

(** ** A save that fails is reported *)

(** X13. write_channeldb never fails silently. With the result 1 it has logged
    nothing. With the result 0 it has logged exactly one line: the write
    error on the temporary file (for a failed open, write or close) or the
    failed rename; the channel list is never changed. *)
Theorem write_channeldb_reports_failure (w : World Mode) :
  let tmp := snprintf 512 (database w +:+ ".tmp") in
  exists r w',
    write_channeldb w = Ret r w' /\
    channels w' = channels w /\
    ((r = 1 /\ logs w' = logs w) \/
     (r = 0 /\ (logs w' = logs w ++ [warn_write_error tmp] \/
                logs w' = logs w ++ [warn_rename_failed tmp (database w)]))).
Proof.
  intros tmp. unfold write_channeldb.
  mstep ltac:(reflexivity). fold tmp.
  mstep ltac:(apply fopen_wb_eq).
  destruct (head_ok w) eqn:Hopen; cbv beta iota delta [negb].
  2:{ mstep ltac:(reflexivity). eexists 0, _. split; [reflexivity|]. split; [done|].
      right. split; [done|]. by left. }
  set (w1 := with_files (<[tmp:=[]]> (files w)) (after_call (sys_fopen tmp true true) w)).
  destruct (wspec_write_db tmp (channels w) w1)
    as (b & w2 & tr & Hr & Hs & (F1 & _) & Ht & Hn & _).
  mstep ltac:(exact Hr).
  destruct b; cbv beta iota delta [negb].
  2:{ destruct (Hn eq_refl) as (tr0 & d & r & _ & _ & Hlg).
      eexists 0, w2. split; [reflexivity|]. split; [by rewrite F1|].
      right. split; [done|]. left. by rewrite Hlg. }
  destruct (Ht eq_refl) as (_ & Hlg & _).
  mstep ltac:(apply fclose_eq).
  destruct (head_ok w2) eqn:Hclose; cbv beta iota delta [negb].
  2:{ mstep ltac:(reflexivity). eexists 0, _. split; [reflexivity|]. simpl.
      split; [by rewrite F1|]. right. split; [done|]. left. by rewrite Hlg. }
  mstep ltac:(apply rename_eq).
  destruct (head_ok (closed w2)) eqn:Hren; cbv beta iota delta [negb].
  2:{ mstep ltac:(reflexivity). eexists 0, _. split; [reflexivity|]. simpl.
      split; [by rewrite F1|]. right. split; [done|]. right. by rewrite Hlg. }
  eexists 1, _. split; [reflexivity|].
  destruct (files (closed w2) !! tmp); simpl; (split; [by rewrite F1|]);
    left; by rewrite Hlg.
Qed.

(** ** A save that succeeds *)

(** X14. When write_channeldb returns 1 and the path fits the name buffer, the
    database holds the serialised +P channels, the temporary file is gone
    and every other file is as before. *)
Theorem write_channeldb_success_replaces (w w' : World Mode) :
  write_channeldb w = Ret 1 w' ->
  (String.length (database w) + 4 < 512)%nat ->
  files w' !! database w = Some (ser_db (channels w)) /\
  files w' !! (database w +:+ ".tmp") = None /\
  forall p, p ≠ database w +:+ ".tmp" -> p ≠ database w -> files w' !! p = files w !! p.
Proof.
  intros Hw Hlen.
  assert (snprintf 512 (database w +:+ ".tmp") = database w +:+ ".tmp") as Htmp.
  { apply snprintf_fits. rewrite string_length_append. simpl. lia. }
  assert (database w +:+ ".tmp" ≠ database w) as Hne.
  { intros Heq. by apply (append_ne (database w) ".tmp"). }
  revert Hw. unfold write_channeldb.
  mstep ltac:(reflexivity). rewrite Htmp. set (tmp := database w +:+ ".tmp") in *.
  mstep ltac:(apply fopen_wb_eq).
  destruct (head_ok w) eqn:Hopen; cbv beta iota delta [negb].
  2:{ mstep ltac:(reflexivity). intros [=]. }
  set (w1 := with_files (<[tmp:=[]]> (files w)) (after_call (sys_fopen tmp true true) w)).
  destruct (wspec_write_db tmp (channels w) w1)
    as (b & w2 & tr & Hr & Hs & (F1 & _) & Ht & Hn & _).
  mstep ltac:(exact Hr).
  destruct b; cbv beta iota delta [negb]; [|intros [=]].
  destruct (Ht eq_refl) as (_ & _ & Hfi).
  mstep ltac:(apply fclose_eq).
  destruct (head_ok w2) eqn:Hclose; cbv beta iota delta [negb].
  2:{ mstep ltac:(reflexivity). intros [=]. }
  mstep ltac:(apply rename_eq).
  assert (files (closed w2) !! tmp = Some (ser_db (channels w))) as Hcontent.
  { simpl. rewrite Hfi. rewrite lookup_alter_eq. subst w1; simpl.
    by rewrite lookup_insert_eq. }
  destruct (head_ok (closed w2)) eqn:Hren; cbv beta iota delta [negb].
  2:{ mstep ltac:(reflexivity). intros [=]. }
  rewrite Hcontent. intros [= <-]. simpl. split_and!.
  - apply lookup_insert_eq.
  - rewrite lookup_insert_ne by done. apply lookup_delete_eq.
  - intros p Hp1 Hp2. rewrite lookup_insert_ne by done.
    rewrite lookup_delete_ne by done. rewrite Hfi, lookup_alter_ne by done.
    subst w1. simpl. by rewrite lookup_insert_ne.
Qed.

(** ** The first load *)

Lemma EventAdd_eq (nm : string) (w : World Mode) :
  EventAdd nm w =
    Ret (head_ok w)
      (if head_ok w
       then with_timers (timers w ++ [nm]) (with_faults (tail (faults w)) w)
       else with_faults (tail (faults w)) w).
Proof.
  unfold EventAdd, bind. apply next_result_cases.
  - intros ->. reflexivity.
  - intros e ->. reflexivity.
Qed.

(** The end of MOD_LOAD: the timer is registered and the result is
    MOD_SUCCESS, or it is not, an error is logged and the result is
    MOD_FAILED. *)
Lemma MOD_LOAD_end (w : World Mode) :
  exists r w' ls,
    (ok <- EventAdd "channeldb_write_channeldb" ;;
     if negb ok then (log error_loading_module ;;; ret MOD_FAILED)
     else ret MOD_SUCCESS)%M w = Ret r w' /\
    files w' = files w /\ syscalls w' = syscalls w /\ channels w' = channels w /\
    channeldb_loaded w' = channeldb_loaded w /\ logs w' = logs w ++ ls /\
    ((r = MOD_SUCCESS /\ ls = [] /\
      timers w' = timers w ++ ["channeldb_write_channeldb"]) \/
     (r = MOD_FAILED /\ ls = [error_loading_module] /\ timers w' = timers w)).
Proof.
  mstep ltac:(apply EventAdd_eq). destruct (head_ok w); cbv beta iota delta [negb].
  - eexists _, _, []. split; [reflexivity|]. simpl. rewrite app_nil_r.
    split_and!; auto.
  - mstep ltac:(reflexivity). eexists _, _, [_]. split; [reflexivity|]. simpl.
    split_and!; auto.
Qed.

(** X15. MOD_LOAD with the flag clear. Whatever read_channeldb returns, the
    flag is 1 afterwards and the channel list is the one read_channeldb
    left. The result is MOD_SUCCESS when the save timer was registered,
    and MOD_FAILED, with an error logged last, when it was not. When
    read_channeldb returned 1 no file is touched, no further call is made
    and nothing else is logged. When it returned 0 the database is renamed
    to its path with ".corrupt" added (cut to 511 characters): if the
    rename succeeds the contents of the database are under the new name
    and no longer under the path of the database (unless the two names are
    the same), and the rename is logged; if it fails the files are as
    before and the failure is logged. *)
Theorem MOD_LOAD_first_load (w : World Mode) (rr : Z) (w1 : World Mode) :
  channeldb_loaded w = 0 ->
  read_channeldb w = Ret rr w1 ->
  let fname := snprintf 512 (database w +:+ ".corrupt") in
  exists r w' ls,
    MOD_LOAD w = Ret r w' /\
    channeldb_loaded w' = 1 /\ channels w' = channels w1 /\
    ((r = MOD_SUCCESS /\ ls = [] /\
      timers w' = timers w ++ ["channeldb_write_channeldb"]) \/
     (r = MOD_FAILED /\ ls = [error_loading_module] /\ timers w' = timers w)) /\
    (rr = 1 ->
       files w' = files w /\ syscalls w' = syscalls w1 /\ logs w' = logs w1 ++ ls) /\
    (rr = 0 -> head_ok w1 = true ->
       syscalls w' = syscalls w1 ++ [sys_rename (database w) fname true] /\
       logs w' = logs w1 ++ warn_renamed_corrupt fname :: ls /\
       files w' = match files w !! database w with
                  | Some d => <[fname := d]> (delete (database w) (files w))
                  | None => files w
                  end) /\
    (rr = 0 -> head_ok w1 = false ->
       files w' = files w /\
       syscalls w' = syscalls w1 ++ [sys_rename (database w) fname false] /\
       logs w' = logs w1 ++ warn_rename_corrupt_failed fname :: ls).
Proof.
  intros Hl Hread fname.
  destruct (reads_only_read_channeldb w rr w1 Hread) as (Hfiles & _ & _ & _ & Htim & _).
  destruct (read_channeldb_result w rr w1 Hread) as [-> | ->].
  - (* the database could not be read *)
    set (w2 := if head_ok w1
               then match files w1 !! database w with
                    | Some content =>
                        with_files (<[fname := content]> (delete (database w) (files w1)))
                          (after_call (sys_rename (database w) fname true) w1)
                    | None => after_call (sys_rename (database w) fname true) w1
                    end
               else after_call (sys_rename (database w) fname false) w1).
    set (w3 := with_channeldb_loaded 1
                 (with_logs (logs w2 ++ [if head_ok w1 then warn_renamed_corrupt fname
                                         else warn_rename_corrupt_failed fname]) w2)).
    assert (forall k : M (World Mode) Z,
              ((w0 <- get ;;
                (if channeldb_loaded w0 =? 0
                 then
                   (r <- read_channeldb ;;
                    (if r =? 0
                     then
                       let fn := snprintf 512 (database w0 +:+ ".corrupt") in
                       moved <- rename (database w0) fn ;;
                       if moved then log (warn_renamed_corrupt fn)
                       else log (warn_rename_corrupt_failed fn)
                     else ret tt) ;;;
                    modify (with_channeldb_loaded 1))
                 else ret tt) ;;; k)%M w) = k w3) as Hstep.
    { intros k. mstep ltac:(reflexivity). rewrite Hl. cbn [Z.eqb].
      mstep ltac:(mstep ltac:(exact Hread); cbn [Z.eqb];
                  mstep ltac:(mstep ltac:(apply rename_eq); fold fname; fold w2;
                              instantiate (1 := with_logs
                                (logs w2 ++ [if head_ok w1 then warn_renamed_corrupt fname
                                             else warn_rename_corrupt_failed fname]) w2);
                              instantiate (1 := tt);
                              by destruct (head_ok w1));
                  reflexivity).
      reflexivity. }
    unfold MOD_LOAD. rewrite Hstep. clear Hstep.
    destruct (MOD_LOAD_end w3) as (r & w' & ls & Hend & F1 & F2 & F3 & F4 & F5 & Hres).
    exists r, w', ls. split; [exact Hend|].
    assert (timers w3 = timers w) as Ht3.
    { rewrite <- Htim. subst w3 w2. simpl. destruct (head_ok w1); [|done].
      by destruct (files w1 !! database w). }
    rewrite Ht3 in Hres. rewrite F4, F3, F1, F2, F5.
    split; [done|]. split.
    { subst w3 w2. simpl. destruct (head_ok w1); [|done].
      by destruct (files w1 !! database w). }
    split; [exact Hres|]. split; [intros [=]|]. split.
    + intros _ Hok. subst w3 w2. rewrite Hok. rewrite <- Hfiles. split_and!.
      * simpl. by destruct (files w1 !! database w).
      * simpl. destruct (files w1 !! database w); simpl; by rewrite <- app_assoc.
      * simpl. by destruct (files w1 !! database w).
    + intros _ Hok. subst w3 w2. rewrite Hok. simpl. split_and!; try done.
      by rewrite <- app_assoc.
  - (* the database was read, or there is none *)
    assert (forall k : M (World Mode) Z,
              ((w0 <- get ;;
                (if channeldb_loaded w0 =? 0
                 then
                   (r <- read_channeldb ;;
                    (if r =? 0
                     then
                       let fn := snprintf 512 (database w0 +:+ ".corrupt") in
                       moved <- rename (database w0) fn ;;
                       if moved then log (warn_renamed_corrupt fn)
                       else log (warn_rename_corrupt_failed fn)
                     else ret tt) ;;;
                    modify (with_channeldb_loaded 1))
                 else ret tt) ;;; k)%M w) = k (with_channeldb_loaded 1 w1)) as Hstep.
    { intros k. mstep ltac:(reflexivity). rewrite Hl. cbn [Z.eqb].
      mstep ltac:(mstep ltac:(exact Hread); cbn [Z.eqb Pos.eqb];
                  mstep ltac:(reflexivity); reflexivity).
      reflexivity. }
    unfold MOD_LOAD. rewrite Hstep. clear Hstep.
    destruct (MOD_LOAD_end (with_channeldb_loaded 1 w1))
      as (r & w' & ls & Hend & F1 & F2 & F3 & F4 & F5 & Hres).
    exists r, w', ls. split; [exact Hend|].
    change (timers (with_channeldb_loaded 1 w1)) with (timers w1) in Hres.
    rewrite Htim in Hres. rewrite F4, F3, F1, F2, F5.
    split_and!; try done; intros [=].
Qed.

Lemma filter_all_true {A : Type} (P : A -> Prop) `{forall a, Decision (P a)} (l : list A) :
  (forall a, a ∈ l -> P a) -> filter P l = l.
Proof.
  induction l as [|a l IH]; intros Hall; [done|].
  rewrite filter_cons, decide_True by (apply Hall; left).
  f_equal. apply IH. intros b Hb. apply Hall. by right.
Qed.

Lemma elem_of_rev_list {A : Type} (x : A) (l : list A) : x ∈ rev l <-> x ∈ l.
Proof. rewrite !list_elem_of_In. symmetry. apply in_rev. Qed.

(** ** Reading what is announced *)

(** X11. read_channeldb reads as many records as the header announces and no
    more. Take a file of any version up to CHANNELDB_VERSION that holds the
    announced records, followed by anything, where the records are of
    well-formed channels and each names a channel that is not in the
    channel list when it is read (none that exists, none of an earlier
    record). read_channeldb returns 1; the channels of the records are put
    in front of the channel list, the last record first, each with its
    list modes reversed; what follows the records is left unread; the
    number added is reported when it is not zero. *)
Theorem read_channeldb_reads_announced (w : World Mode) (version : Z)
    (good : list (Channel Mode)) (D : list byte) :
  files w !! database w =
    Some (db_header version (Z.of_nat (length good)) ++ ser_records good ++ D) ->
  head_ok w = true ->
  0 <= version <= CHANNELDB_VERSION ->
  Z.of_nat (length good) < 2 ^ 64 ->
  Forall channel_ok good -> fresh_names good (channels w) ->
  exists w',
    read_channeldb w = Ret 1 w' /\
    channels w' = rev (map restored good) ++ channels w /\
    rstream w' = D /\
    logs w' = logs w ++ match good with
                        | [] => []
                        | _ :: _ => [info_added (Z.of_nat (length good))]
                        end.
Proof.
  intros Hfile Hopen Hv Hcount Hok Hfresh.
  rewrite (read_channeldb_good_prefix w version (Z.of_nat (length good)) good D Hfile)
    by (done || lia).
  rewrite Nat2Z.id, Nat.sub_diag. cbn [read_channel_entries].
  mstep ltac:(reflexivity). rewrite after_loop_break.
  eexists. split; [reflexivity|]. simpl. split_and!; try done.
  destruct good as [|c good]; [done|].
  destruct (Z.eqb_spec (Z.of_nat (length (c :: good))) 0) as [He|_]; [|done].
  simpl in He. lia.
Qed.

Lemma stricmp_sym (a b : string) : stricmp a b = stricmp b a.
Proof. unfold stricmp. apply String.eqb_sym. Qed.

Lemma find_channel_None (nm : string) (cs : list (Channel Mode)) :
  find_channel nm cs = None <-> forall b, b ∈ cs -> stricmp nm (chname b) = false.
Proof.
  induction cs as [|a cs IH]; simpl.
  - split; [intros _ b Hb; by apply elem_of_nil in Hb|done].
  - destruct (stricmp nm (chname a)) eqn:Ha.
    + split; [done|]. intros Hall. specialize (Hall a ltac:(left)). congruence.
    + destruct (find_channel nm cs).
      * split; [done|]. intros Hall.
        exfalso. assert (Some n = None) as Hbad; [|done].
        apply IH. intros b Hb. apply Hall. by right.
      * split; [|done]. intros _ b [->|Hb]%elem_of_cons; [done|].
        by apply (proj1 IH).
Qed.

Lemma fresh_names_spec (l : list (Channel Mode)) : forall cs,
  fresh_names l cs <->
  (forall a b, a ∈ l -> b ∈ cs -> differ a b) /\ distinct_names l.
Proof.
  induction l as [|a l IH]; intros cs; simpl.
  - split; [|done]. intros _. split; [|done]. intros a b Ha. by apply elem_of_nil in Ha.
  - rewrite find_channel_None, IH. split.
    + intros (Ha & Hl & Hd). split_and!; try done.
      * intros x b [->|Hx]%elem_of_cons Hb; [by apply Ha|].
        apply Hl; [done|by right].
      * intros b Hb. apply (Hl b (restored a) Hb). left.
    + intros (Hall & Hrest & Hd). split_and!; try done.
      * intros b Hb. apply Hall; [left|done].
      * intros x b Hx [->|Hb]%elem_of_cons; [by apply Hrest|].
        apply Hall; [by right|done].
Qed.

Lemma distinct_names_app (l1 l2 : list (Channel Mode)) :
  distinct_names (l1 ++ l2) <->
  distinct_names l1 /\ distinct_names l2 /\ forall a b, a ∈ l1 -> b ∈ l2 -> differ b a.
Proof.
  induction l1 as [|x l1 IH]; simpl.
  - split; [intros Hd; split_and!; try done; intros a b Ha; by apply elem_of_nil in Ha|].
    by intros (_ & Hd & _).
  - rewrite IH. split.
    + intros (Hx & H1 & H2 & H12). split_and!; try done.
      * intros b Hb. apply Hx. apply elem_of_app. by left.
      * intros a b [->|Ha]%elem_of_cons Hb; [|by apply H12].
        apply Hx. apply elem_of_app. by right.
    + intros ((Hx & H1) & H2 & H12). split_and!; try done.
      * intros b [Hb|Hb]%elem_of_app; [by apply Hx|]. apply H12; [left|done].
      * intros a b Ha Hb. apply H12; [by right|done].
Qed.

Lemma differ_sym (a b : Channel Mode) : differ a b -> differ b a.
Proof. unfold differ. by rewrite stricmp_sym. Qed.

Lemma distinct_names_rev (l : list (Channel Mode)) :
  distinct_names l -> distinct_names (rev l).
Proof.
  induction l as [|a l IH]; [done|]. intros [Ha Hd]. simpl.
  apply distinct_names_app.
  split; [by apply IH|].
  split; [simpl; split; [intros b Hb; by apply elem_of_nil in Hb|done]|].
  intros x b Hx Hb. apply list_elem_of_singleton in Hb as ->.
  apply differ_sym, Ha. by apply elem_of_rev_list.
Qed.

Lemma distinct_names_restored (l : list (Channel Mode)) :
  distinct_names l -> distinct_names (map restored l).
Proof.
  induction l as [|a l IH]; [done|]. intros [Ha Hd]. simpl. split; [|by apply IH].
  intros b (b0 & -> & Hb)%list_elem_of_fmap. exact (Ha b0 Hb).
Qed.

Lemma restored_restored c : restored (restored c) = c.
Proof. destruct c. unfold restored. simpl. by rewrite !rev_involutive. Qed.

Lemma channel_ok_restored c : channel_ok c -> channel_ok (restored c).
Proof.
  intros (A1 & A2 & A3 & A4 & A5 & A6 & A7 & A8 & A9 & A10).
  assert (forall l, listmode_ok l -> listmode_ok (rev l)) as Hrev.
  { intros l [Hf Hlen]. split; [by apply Forall_rev|by rewrite length_rev]. }
  unfold channel_ok. simpl. split_and!; auto.
Qed.

(** One write and read, with the world it leaves. *)
Lemma written_then_read_world (w : World Mode) :
  faults w = [] ->
  (String.length (database w) + 4 < 512)%nat ->
  Forall channel_ok (persistent_channels (channels w)) ->
  fresh_names (persistent_channels (channels w)) [] ->
  Z.of_nat (length (persistent_channels (channels w))) < 2 ^ 64 ->
  exists w',
    written_then_read w = Ret 1 w' /\
    channels w' = rev (map restored (persistent_channels (channels w))) /\
    faults w' = [] /\ database w' = database w.
Proof.
  intros Hfaults Hlen Hok Hfresh Hcount.
  destruct (write_channeldb_spec w)
    as (r & w1 & tr & Hr & Hs & Ht & Hc & Hdb & _ & _ & _ & _ & H1 & Hz).
  destruct (Hz Hfaults) as (-> & Hf1 & Hlg1). specialize (H1 eq_refl).
  unfold written_then_read. mstep ltac:(exact Hr). mstep ltac:(reflexivity).
  set (w2 := with_channels [] w1).
  set (P := persistent_channels (channels w)) in *.
  assert (files w2 !! database w2 =
          Some (db_header CHANNELDB_VERSION (Z.of_nat (length P)) ++
                ser_records P ++ [])) as Hfile.
  { subst w2. cbn [files database with_channels]. rewrite Hdb, H1.
    unfold ser_db, db_header, ser_channels, ser_records.
    fold P. by rewrite app_nil_r, <- app_assoc. }
  assert (head_ok w2 = true) as Hhead.
  { subst w2. unfold head_ok. simpl. by rewrite Hf1. }
  rewrite (read_channeldb_good_prefix w2 CHANNELDB_VERSION (Z.of_nat (length P)) P []
             Hfile) by (done || (unfold CHANNELDB_VERSION; lia)).
  rewrite Nat2Z.id, Nat.sub_diag. cbn [read_channel_entries].
  mstep ltac:(reflexivity). rewrite after_loop_break.
  eexists. split; [reflexivity|]. simpl. rewrite app_nil_r, Hf1, Hdb. done.
Qed.

(** X12. Two restarts give the channels back as they were. Under the
    conditions of the round trip (no failing call, a path that fits, +P
    channels that the format holds, names that differ), writing the
    database, reading it into an empty channel list, writing that and
    reading it again returns 1 both times and ends with exactly the +P
    channels of the start: the same channels in the same order, each list
    mode in its order of the start. One restart reverses both orders. *)
Theorem two_restarts_restore (w : World Mode) :
  faults w = [] ->
  (String.length (database w) + 4 < 512)%nat ->
  Forall channel_ok (persistent_channels (channels w)) ->
  fresh_names (persistent_channels (channels w)) [] ->
  Z.of_nat (length (persistent_channels (channels w))) < 2 ^ 64 ->
  exists w1 w2,
    written_then_read w = Ret 1 w1 /\
    channels w1 = rev (map restored (persistent_channels (channels w))) /\
    written_then_read w1 = Ret 1 w2 /\
    channels w2 = persistent_channels (channels w).
Proof.
  intros Hfaults Hlen Hok Hfresh Hcount.
  destruct (written_then_read_world w Hfaults Hlen Hok Hfresh Hcount)
    as (w1 & Hr1 & Hc1 & Hf1 & Hd1).
  set (P := persistent_channels (channels w)) in *.
  assert (persistent_channels (channels w1) = rev (map restored P)) as HP1.
  { rewrite Hc1. unfold persistent_channels. apply filter_all_true.
    intros c (c0 & -> & Hc0)%elem_of_rev_list%list_elem_of_fmap.
    subst P. unfold persistent_channels in Hc0.
    apply list_elem_of_filter in Hc0 as [Hp _]. exact Hp. }
  destruct (written_then_read_world w1) as (w2 & Hr2 & Hc2 & _ & _).
  - exact Hf1.
  - by rewrite Hd1.
  - rewrite HP1. apply Forall_rev, Forall_fmap.
    eapply Forall_impl; [exact Hok|]. intros c Hc. by apply channel_ok_restored.
  - rewrite HP1. apply fresh_names_spec. split.
    + intros a b _ Hb. by apply elem_of_nil in Hb.
    + apply distinct_names_rev, distinct_names_restored.
      by apply (fresh_names_spec P []).
  - by rewrite HP1, length_rev, length_map.
  - exists w1, w2. split_and!; try done.
    rewrite Hc2, HP1, map_rev, rev_involutive, map_map.
    rewrite <- (map_id P) at 2. apply map_ext. intros c. apply restored_restored.
Qed.

Lemma channeldb_configrun_database (conf : list (string * string)) : forall w,
  channeldb_configrun conf w =
    Ret 1 (with_database (configured_database conf (database w)) w).
Proof.
  induction conf as [|[varname vardata] conf IH]; intros w.
  - simpl. unfold ret. f_equal. by destruct w.
  - cbn [channeldb_configrun configured_database].
    destruct (String.eqb varname "database").
    + mstep ltac:(reflexivity). rewrite IH. reflexivity.
    + mstep ltac:(reflexivity). apply IH.
Qed.

(** X16. channeldb_configrun returns 1 and changes the database path only: to
    the value of the last database directive of the block, whatever
    stands before or after it; with no database directive the path is
    left as it was. Directives of another name are passed over. *)
Theorem channeldb_configrun_last_wins (conf : list (string * string)) (w : World Mode) :
  exists d,
    channeldb_configrun conf w = Ret 1 (with_database d w) /\
    (Forall (fun e => fst e ≠ "database") conf -> d = database w) /\
    (forall pre v post,
       conf = pre ++ ("database", v) :: post ->
       Forall (fun e => fst e ≠ "database") post -> d = v).
Proof.
  exists (configured_database conf (database w)).
  split; [apply channeldb_configrun_database|].
  assert (forall l d, Forall (fun e : string * string => fst e ≠ "database") l ->
                      configured_database l d = d) as Hnone.
  { induction l as [|[n v] l IH]; intros d Hall; [done|].
    apply Forall_cons in Hall as [Hn Hall]. simpl in *.
    destruct (String.eqb_spec n "database") as [->|_]; [done|]. by apply IH. }
  split; [apply Hnone|].
  intros pre v post -> Hpost. generalize (database w).
  induction pre as [|[n u] pre IH]; intros d; simpl.
  - by apply Hnone.
  - apply IH.
Qed.

(** ** Loading and unloading *)

(** X19. MOD_UNLOAD returns MOD_SUCCESS whether the save succeeds or not: the
    result of write_channeldb is dropped. The files, the log and the
    system calls made are those of the one save write_channeldb makes in
    the state of the call; after it the configured path is freed; the
    channel list and the flag channeldb_loaded are not changed. *)
Theorem MOD_UNLOAD_saves_and_succeeds (w : World Mode) :
  exists r w1 w',
    write_channeldb w = Ret r w1 /\
    MOD_UNLOAD w = Ret MOD_SUCCESS w' /\
    files w' = files w1 /\ logs w' = logs w1 /\ syscalls w' = syscalls w1 /\
    channels w' = channels w /\
    database w' = "" /\
    channeldb_loaded w' = channeldb_loaded w.
Proof.
  destruct (write_channeldb_spec w)
    as (r & w1 & tr & Hr & _ & _ & Hc & _ & Hl & _).
  exists r, w1. eexists. split; [exact Hr|]. split.
  - unfold MOD_UNLOAD. mstep ltac:(exact Hr). reflexivity.
  - simpl. rewrite Hc, Hl. by split_and!.
Qed.

End WithModes.

Lemma configtest_entries_spec (conv : string -> string -> string) (dir : string)
    (l : list ConfigEntry) : forall errors,
  configtest_entries conv dir l errors =
    (errors + Z.of_nat (length (filter (fun e => directive_ok e = false) l)),
     map (tested_entry conv dir) l, concat (map complaint l)).
Proof.
  induction l as [|cep l IH]; intros errors.
  - simpl. by rewrite Z.add_0_r.
  - cbn [configtest_entries map concat].
    unfold tested_entry at 1, complaint at 1.
    destruct (ce_vardata cep) as [v|] eqn:Hv;
      [destruct (String.eqb (ce_varname cep) "database") eqn:Hn|].
    + assert (directive_ok cep = true) as Hd by (unfold directive_ok; by rewrite Hv, Hn).
      rewrite IH, filter_cons, decide_False by (rewrite Hd; done). reflexivity.
    + assert (directive_ok cep = false) as Hd by (unfold directive_ok; by rewrite Hv, Hn).
      rewrite IH, filter_cons, decide_True by done. cbn [length app]. do 2 f_equal. lia.
    + assert (directive_ok cep = false) as Hd by (unfold directive_ok; by rewrite Hv).
      rewrite IH, filter_cons, decide_True by done. cbn [length app]. do 2 f_equal. lia.
Qed.

Lemma length_complaint (e : ConfigEntry) :
  length (complaint e) = if directive_ok e then 0%nat else 1%nat.
Proof.
  unfold complaint, directive_ok.
  destruct (ce_vardata e); [destruct (String.eqb _ _)|]; reflexivity.
Qed.

Lemma complaints_count (l : list ConfigEntry) :
  Z.of_nat (length (concat (map complaint l))) =
  Z.of_nat (length (filter (fun e => directive_ok e = false) l)).
Proof.
  f_equal. induction l as [|e l IH]; [done|].
  cbn [map concat]. rewrite length_app, length_complaint, filter_cons, IH.
  destruct (directive_ok e) eqn:Hd.
  - by rewrite decide_False.
  - by rewrite decide_True.
Qed.

(** X17. channeldb_configtest on a [set::channeldb] block. [*errs] becomes the
    number of directives that have no value or a name other than
    "database", one line is printed for each of them, in order, and the
    result is 1 when there is none and -1 otherwise. The value of every
    database directive is made absolute; the other entries are as they
    were. On anything else (another kind of block, no block, another
    name) the result is 0, [*errs] is left alone and nothing is printed. *)
Theorem channeldb_configtest_counts (CONFIG_SET : Z)
    (conv : string -> string -> string) (dir : string)
    (ce : option ConfigBlock) (type errs : Z) :
  let t := channeldb_configtest CONFIG_SET conv dir ce type errs in
  (forall b, type = CONFIG_SET -> ce = Some b -> cb_varname b = "channeldb" ->
     ct_errs t = Z.of_nat (length (filter (fun e => directive_ok e = false) (cb_entries b))) /\
     ct_result t = (if forallb directive_ok (cb_entries b) then 1 else -1) /\
     ct_entries t = map (tested_entry conv dir) (cb_entries b) /\
     ct_lines t = concat (map complaint (cb_entries b)) /\
     Z.of_nat (length (ct_lines t)) = ct_errs t) /\
  ((type ≠ CONFIG_SET \/ ce = None \/ exists b, ce = Some b /\ cb_varname b ≠ "channeldb") ->
     ct_result t = 0 /\ ct_errs t = errs /\ ct_lines t = []).
Proof.
  intros t. subst t. unfold channeldb_configtest. split.
  - intros b -> -> Hname. rewrite Z.eqb_refl, Hname, String.eqb_refl. cbn [negb].
    rewrite configtest_entries_spec. cbn [ct_errs ct_result ct_entries ct_lines].
    rewrite Z.add_0_l. split_and!; try done.
    + induction (cb_entries b) as [|e l IH]; [done|].
      rewrite filter_cons. cbn [forallb].
      destruct (directive_ok e); cbn [andb].
      * by rewrite decide_False.
      * rewrite decide_True by done. cbn [length].
        destruct (Z.eqb_spec (Z.of_nat (S (length (filter (λ e0, directive_ok e0 = false) l)))) 0);
          [lia|done].
    + apply complaints_count.
  - intros [Hty|[->|(b & -> & Hname)]].
    + destruct (Z.eqb_spec type CONFIG_SET) as [?|_]; [done|]. done.
    + by destruct (negb (type =? CONFIG_SET)).
    + destruct (negb (type =? CONFIG_SET)); [done|].
      destruct (String.eqb_spec (cb_varname b) "channeldb") as [?|_]; [done|]. done.
Qed.

Lemma configured_database_tested (conv : string -> string -> string) (dir : string)
    (l : list ConfigEntry) : forall d,
  forallb directive_ok l = true ->
  configured_database
    (map (fun cep => (ce_varname cep, default "" (ce_vardata cep)))
       (map (tested_entry conv dir) l)) d =
  match last l with
  | Some e => conv (default "" (ce_vardata e)) dir
  | None => d
  end.
Proof.
  induction l as [|e l IH]; intros d Hall; [done|].
  cbn [forallb] in Hall. apply andb_prop in Hall as [He Hall].
  cbn [map configured_database]. rewrite (IH _ Hall).
  unfold directive_ok in He. unfold tested_entry.
  destruct (ce_vardata e) as [v|] eqn:Hv; [|discriminate He].
  rewrite He. cbn [ce_varname ce_vardata]. rewrite He.
  destruct l as [|e' l]; [simpl; by rewrite Hv|].
  rewrite last_cons_cons. by destruct (last (e' :: l)) eqn:Hlast;
    [|apply last_None in Hlast].
Qed.

(** X18. The test and the run together. When channeldb_configtest accepts a
    [set::channeldb] block (result 1), channeldb_configrun on the block as
    the test left it returns 1 and sets the database path to the absolute
    path of the value of the last directive; a block with no directive
    leaves the path as it was. *)
Theorem config_test_then_run {Mode : Type} `{ChannelModes Mode} (CONFIG_SET : Z)
    (conv : string -> string -> string) (dir : string) (b : ConfigBlock) (errs : Z)
    (w : World Mode) :
  cb_varname b = "channeldb" ->
  ct_result (channeldb_configtest CONFIG_SET conv dir (Some b) CONFIG_SET errs) = 1 ->
  channeldb_configrun_hook CONFIG_SET
    (Some (mkConfigBlock (cb_varname b)
             (ct_entries (channeldb_configtest CONFIG_SET conv dir (Some b) CONFIG_SET errs))))
    CONFIG_SET w =
  Ret 1 (with_database
           match last (cb_entries b) with
           | Some e => conv (default "" (ce_vardata e)) dir
           | None => database w
           end w).
Proof.
  intros Hname. unfold channeldb_configtest.
  rewrite Z.eqb_refl, Hname, String.eqb_refl. cbn [negb].
  rewrite configtest_entries_spec. cbn [ct_result ct_entries]. rewrite Z.add_0_l.
  intros Hres.
  assert (forallb directive_ok (cb_entries b) = true) as Hall.
  { destruct (Z.eqb_spec (Z.of_nat (length (filter (fun e => directive_ok e = false)
                                              (cb_entries b)))) 0) as [Hz|_];
      [|discriminate Hres].
    apply forallb_forall. intros e He. destruct (directive_ok e) eqn:Hd; [done|].
    assert (e ∈ filter (fun e => directive_ok e = false) (cb_entries b)) as Hin.
    { apply list_elem_of_filter. split; [done|]. by apply list_elem_of_In. }
    destruct (filter _ (cb_entries b)); [by apply elem_of_nil in Hin|]. simpl in Hz. lia. }
  unfold channeldb_configrun_hook. rewrite Z.eqb_refl. cbn [negb cb_varname cb_entries].
  rewrite String.eqb_refl. cbn [negb].
  rewrite channeldb_configrun_database. by rewrite configured_database_tested.
Qed.

Lemma read_channeldb_writes_nothing_witness :
  exists r w',
    read_channeldb w_cut = Ret r w' /\
    files w' = files w_cut /\ database w' = database w_cut /\ (r = 0 \/ r = 1).
Proof.
  eexists _, _. split; [vm_compute; reflexivity|].
  match goal with |- files ?st = _ /\ _ => set (w' := st) end.
  destruct (read_channeldb_writes_nothing w_cut 0 w') as (Hf & Hd & _ & _ & _ & _ & _ & Hr).
  - vm_compute. reflexivity.
  - by split_and!.
Defined.

Lemma read_channeldb_newer_version_witness :
  exists w',
    read_channeldb w_newer = Ret 0 w' /\
    channels w' = [chanB] /\ logs w' = [warn_wrong_version 101].
Proof.
  destruct (read_channeldb_newer_version w_newer 101 (le_bytes 8 0))
    as (w' & ok & Hr & Hc & Hl & _).
  - apply lookup_insert_eq.
  - reflexivity.
  - unfold CHANNELDB_VERSION. lia.
  - exists w'. by split_and!.
Defined.

Lemma read_channeldb_short_header_witness :
  exists w',
    read_channeldb w_emptyfile = Ret 0 w' /\
    channels w' = [chanB] /\ logs w' = [warn_read_error].
Proof.
  destruct (read_channeldb_short_header w_emptyfile [])
    as (w' & ok & Hr & Hc & Hl & _).
  - apply lookup_insert_eq.
  - reflexivity.
  - simpl. lia.
  - unfold CHANNELDB_VERSION. simpl. lia.
  - exists w'. by split_and!.
Defined.

Lemma MOD_LOAD_first_load_witness :
  exists w',
    MOD_LOAD w_emptyfile = Ret MOD_SUCCESS w' /\
    channeldb_loaded w' = 1 /\
    timers w' = ["channeldb_write_channeldb"] /\
    files w' !! db_path = None /\
    files w' !! (db_path +:+ ".corrupt") = Some [].
Proof.
  assert (exists w1, read_channeldb w_emptyfile = Ret 0 w1 /\ head_ok w1 = true)
    as (w1 & Hread & Hok).
  { eexists. split; [vm_compute; reflexivity|]. reflexivity. }
  destruct (MOD_LOAD_first_load w_emptyfile 0 w1 eq_refl Hread)
    as (r & w' & ls & Hm & Hl & _ & Hres & _ & Hmoved & _).
  destruct (Hmoved eq_refl Hok) as (_ & _ & Hfiles).
  assert (r = MOD_SUCCESS) as ->.
  { pose proof (f_equal (fun o => match o with Ret r _ => r | _ => 1 end) Hm) as E.
    vm_compute in E. symmetry. exact E. }
  destruct Hres as [(_ & _ & Ht)|([=] & _)].
  exists w'. split; [exact Hm|]. split; [exact Hl|]. split; [exact Ht|].
  rewrite Hfiles. split; vm_compute; reflexivity.
Defined.

Lemma write_channeldb_reports_failure_witness :
  exists w',
    write_channeldb w_full = Ret 0 w' /\
    logs w' = [warn_write_error (db_path +:+ ".tmp")].
Proof.
  destruct (write_channeldb_reports_failure w_full) as (r & w' & Hw & _ & Hcases).
  assert (r = 0) as ->.
  { pose proof (f_equal (fun o => match o with Ret r _ => r | _ => 1 end) Hw) as E.
    vm_compute in E. symmetry. exact E. }
  exists w'. split; [exact Hw|].
  destruct Hcases as [[Hr _]|[_ [Hl|Hl]]]; [discriminate Hr|exact Hl|].
  pose proof (f_equal (fun o => match o with Ret _ s => logs s | _ => [] end) Hw) as E.
  cbv beta iota in E. rewrite Hl in E. vm_compute in E. discriminate E.
Defined.

Lemma write_channeldb_success_replaces_witness :
  exists w',
    write_channeldb w_saved = Ret 1 w' /\
    files w' !! db_path = Some (ser_db [chanA; chanB; chanC]) /\
    files w' !! (db_path +:+ ".tmp") = None /\
    files w' !! "motd.txt" = Some (le_bytes 2 7).
Proof.
  eexists. split; [vm_compute; reflexivity|].
  match goal with |- files ?st !! _ = _ /\ _ => set (w' := st) end.
  destruct (write_channeldb_success_replaces w_saved w') as (Hdb & Htmp & Hothers).
  - vm_compute. reflexivity.
  - vm_compute. lia.
  - split; [exact Hdb|]. split; [exact Htmp|].
    rewrite (Hothers "motd.txt"); [|discriminate|discriminate].
    vm_compute. reflexivity.
Defined.

Lemma MOD_UNLOAD_saves_and_succeeds_witness :
  exists w',
    MOD_UNLOAD w_full = Ret MOD_SUCCESS w' /\
    files w' !! db_path = None /\ database w' = EmptyString.
Proof.
  destruct (MOD_UNLOAD_saves_and_succeeds w_full)
    as (r & w1 & w' & Hw & Hu & Hf & _ & _ & _ & Hd & _).
  exists w'. split; [exact Hu|]. split; [|exact Hd].
  rewrite Hf.
  assert (match write_channeldb w_full with
          | Ret _ s => files s !! db_path = None
          | _ => False
          end) as Hfiles by (vm_compute; reflexivity).
  rewrite Hw in Hfiles. exact Hfiles.
Defined.

Lemma channeldb_configrun_last_wins_witness :
  channeldb_configrun [("database", "a.db"); ("other", "x"); ("database", "b.db")] w0 =
    Ret 1 (with_database "b.db" w0).
Proof.
  destruct (channeldb_configrun_last_wins
              [("database", "a.db"); ("other", "x"); ("database", "b.db")] w0)
    as (d & Hr & _ & Hlast).
  rewrite Hr. f_equal. f_equal.
  apply (Hlast [("database", "a.db"); ("other", "x")] "b.db" []); [reflexivity|].
  apply Forall_nil_2.
Defined.

Lemma channeldb_configtest_counts_witness :
  ct_result (channeldb_configtest 2 under_dir "data" (Some block_bad) 2 0) = -1 /\
  ct_errs (channeldb_configtest 2 under_dir "data" (Some block_bad) 2 0) = 2 /\
  ct_result (channeldb_configtest 2 under_dir "data" (Some block_bad) 1 7) = 0 /\
  ct_errs (channeldb_configtest 2 under_dir "data" (Some block_bad) 1 7) = 7.
Proof.
  destruct (channeldb_configtest_counts 2 under_dir "data" (Some block_bad) 2 0) as [Hin _].
  destruct (Hin block_bad eq_refl eq_refl eq_refl) as (He & Hr & _).
  destruct (channeldb_configtest_counts 2 under_dir "data" (Some block_bad) 1 7) as [_ Hout].
  destruct Hout as (Hr0 & He0 & _); [left; lia|].
  split; [exact Hr|]. split; [exact He|]. split; [exact Hr0|exact He0].
Defined.

Lemma config_test_then_run_witness :
  channeldb_configrun_hook 2
    (Some (mkConfigBlock "channeldb"
             (ct_entries (channeldb_configtest 2 under_dir "data" (Some block_good) 2 0))))
    2 w0 =
  Ret 1 (with_database "data/new.db" w0).
Proof.
  apply (config_test_then_run 2 under_dir "data" block_good 0 w0); reflexivity.
Defined.

Lemma read_channeldb_reads_announced_witness :
  exists w',
    read_channeldb w_trailing = Ret 1 w' /\
    channels w' = [restored chanC; restored chanA; chanB] /\
    rstream w' = le_bytes 4 5 /\ logs w' = [info_added 2].
Proof.
  apply (read_channeldb_reads_announced w_trailing 7 [chanA; chanC] (le_bytes 4 5)).
  - apply lookup_insert_eq.
  - reflexivity.
  - unfold CHANNELDB_VERSION. lia.
  - simpl. lia.
  - apply Forall_cons. split; [exact chanA_ok|].
    apply Forall_cons. split; [exact chanC_ok|]. apply Forall_nil_2.
  - vm_compute. done.
Defined.

Lemma two_restarts_restore_witness :
  exists w1 w2,
    written_then_read w0 = Ret 1 w1 /\
    channels w1 = [restored chanC; restored chanA] /\
    written_then_read w1 = Ret 1 w2 /\
    channels w2 = [chanA; chanC].
Proof.
  destruct (two_restarts_restore w0) as (w1 & w2 & Hr1 & Hc1 & Hr2 & Hc2).
  - reflexivity.
  - vm_compute. lia.
  - rewrite w0_persistent.
    apply Forall_cons. split; [exact chanA_ok|].
    apply Forall_cons. split; [exact chanC_ok|]. apply Forall_nil_2.
  - rewrite w0_persistent. vm_compute. done.
  - rewrite w0_persistent. simpl. lia.
  - rewrite w0_persistent in Hc1, Hc2. exists w1, w2. by split_and!.
Defined.

End ChannelDbBehaviour.
